(** * rock3d: image sanitization and toolchain orchestration

    A shallow embedding of [src/preprocess.py] (classical engine),
    [src/preprocess_ia.py] (learned-segmentation engine) and
    [src/pipeline.py] (toolchain orchestrator), with the properties the
    specification states about them.

    Conventions of the embedding:
    - 8-bit samples are [Z] values in [0, 256);
    - [np.float64] is [PrimFloat.float]; an [np.float32] operation is the
      binary64 operation followed by rounding to a 24-bit significand
      (exact for [+], [-], [*], [/] on binary32 operands);
    - Python [dict]s are [gmap]s, directories are [gmap]s from file name to
      content, [print] and [logging] append to a list;
    - library and subprocess calls whose result the program cannot compute
      (image decoding, inference, external binaries) are parameters. *)

From Stdlib Require Import ZArith Uint63 Ascii String.
From Stdlib Require Import Floats.PrimFloat Floats.SpecFloat Floats.FloatOps
  Floats.FloatAxioms.
From stdpp Require Import gmap strings list fin_maps sorting pretty.

Open Scope Z_scope.

(* ===================================================================== *)
(** * Definitions *)
(* ===================================================================== *)

(** ** Python built-ins and standard library *)

Module Py.

(** [fnmatch.fnmatch] on a POSIX system, for patterns made of literal
    characters and [*] (the only forms the sources use). *)
Fixpoint fnmatch (pat name : string) {struct pat} : bool :=
  match pat with
  | EmptyString => match name with EmptyString => true | _ => false end
  | String "*"%char pat' =>
      (fix any (s : string) : bool :=
         fnmatch pat' s
         || match s with EmptyString => false | String _ s' => any s' end) name
  | String c pat' =>
      match name with
      | EmptyString => false
      | String d s' => Ascii.eqb c d && fnmatch pat' s'
      end
  end.

(** [glob._ishidden]: the name starts with a dot. *)
Definition ishidden (name : string) : bool :=
  match name with
  | String "."%char _ => true
  | _ => false
  end.

(** [glob.glob(os.path.join(d, pat))] over the listing [names] of [d]:
    hidden names are dropped because no pattern here starts with a dot. *)
Definition glob (pat : string) (names : list string) : list string :=
  filter (λ n, fnmatch pat n = true) (filter (λ n, ishidden n = false) names).

(** [pathlib.Path.glob(pat)]: hidden names are not special. *)
Definition path_glob (pat : string) (names : list string) : list string :=
  filter (λ n, fnmatch pat n = true) names.

(** [s.rpartition('.')] when a dot occurs: the text before the last dot
    and the text from that dot on. *)
Fixpoint rpartition_dot (s : string) : option (string * string) :=
  match s with
  | EmptyString => None
  | String c s' =>
      match rpartition_dot s' with
      | Some (pre, suf) => Some (String c pre, suf)
      | None => if Ascii.eqb c "." then Some (EmptyString, s) else None
      end
  end.

Fixpoint all_dots (s : string) : bool :=
  match s with
  | EmptyString => true
  | String c s' => Ascii.eqb c "." && all_dots s'
  end.

(** [os.path.splitext] on a base name: leading dots do not start an
    extension. *)
Definition splitext (name : string) : string * string :=
  match rpartition_dot name with
  | Some (pre, suf) => if all_dots pre then (name, EmptyString) else (pre, suf)
  | None => (name, EmptyString)
  end.

(** [pathlib.PurePath.stem]: the last dot must be neither the first nor
    the last character. *)
Definition stem (name : string) : string :=
  match rpartition_dot name with
  | Some (String c pre, String _ (String d suf)) => String c pre
  | _ => name
  end.

(** [str.endswith]. *)
Definition endswith (s suffix : string) : bool :=
  let n := String.length s in
  let k := String.length suffix in
  bool_decide (k ≤ n)%nat && String.eqb (substring (n - k) k s) suffix.

(** [str.startswith]. *)
Definition startswith (s pre : string) : bool :=
  String.eqb (substring 0 (String.length pre) s) pre.

(** What [os.path.join] puts between a directory and a relative name: a
    slash, unless the directory is empty or already ends in one. *)
Definition sep_after (dir : string) : string :=
  match dir with
  | EmptyString => EmptyString
  | _ => if endswith dir "/" then EmptyString else "/"
  end.

(** [os.path.join] of a directory and a relative name
    ([os.path.join("/p/bin/", "x")] is ["/p/bin/x"]); [Path / name] gives
    the same text on the normalised paths the scripts build. *)
Definition join (dir name : string) : string := dir +:+ sep_after dir +:+ name.

(** [sorted] on strings: ascending code-point order.  Python's sort is
    stable; on a total antisymmetric order every sorting function returns
    the same list. *)
Definition sorted (l : list string) : list string := merge_sort String.le l.

(** [f"{n}"] for an integer. *)
Definition str (n : Z) : string := pretty n.

End Py.

(** ** NumPy scalar arithmetic *)

Module Np.

(** A value of dtype [uint8]. *)
Definition is_uint8 (z : Z) : Prop := 0 ≤ z < 256.

Definition float64 (z : Z) : float := PrimFloat.of_uint63 (Uint63.of_Z z).

(** Round a non-negative binary64 value to the nearest binary32 value,
    ties to even: scale the significand to [2^23, 2^24), round it to an
    integer by adding and subtracting [2^52], and scale back.  Valid away
    from the binary32 subnormal and overflow ranges, which no sample
    reaches. *)
Definition two24 : float := PrimFloat.of_uint63 16777216%uint63.
Definition two52 : float := PrimFloat.of_uint63 4503599627370496%uint63.

Definition round32 (x : float) : float :=
  let (m, e) := PrimFloat.frshiftexp x in
  let y := PrimFloat.mul m two24 in
  let r := PrimFloat.sub (PrimFloat.add y two52) two52 in
  PrimFloat.ldshiftexp r (Uint63.sub e 24%uint63).

(** [astype(np.float32)] of a [uint8] sample (exact). *)
Definition float32 (z : Z) : float := round32 (float64 z).

Definition add32 (x y : float) : float := round32 (PrimFloat.add x y).
Definition mul32 (x y : float) : float := round32 (PrimFloat.mul x y).
Definition div32 (x y : float) : float := round32 (PrimFloat.div x y).

(** [astype(np.uint8)] of a finite float in [0, 256): the C conversion,
    which drops the fractional part.  [x = mant * 2^(e - 2101 - 53)]. *)
Definition to_uint8 (x : float) : Z :=
  let (m, e) := PrimFloat.frshiftexp x in
  let mant := PrimFloat.normfr_mantissa m in
  Uint63.to_Z (Uint63.lsr mant (Uint63.sub 2154%uint63 e)).

End Np.

(** ** Pixel buffers *)

(** An OpenCV colour image is a row-major sequence of interleaved samples,
    in blue, green, red (, alpha) order; a single-channel plane is a
    sequence of samples. *)
Record bgr (A : Type) := Bgr { blue : A; green : A; red : A }.
Arguments Bgr {A} _ _ _.
Arguments blue {A} _.
Arguments green {A} _.
Arguments red {A} _.

Record bgra := Bgra { blue4 : Z; green4 : Z; red4 : Z; alpha4 : Z }.

(** What [cv2.imread(path, cv2.IMREAD_UNCHANGED)] can return. *)
Inductive image :=
  | Gray (samples : list Z)
  | Color (pixels : list (bgr Z))
  | ColorAlpha (pixels : list bgra).

Module Cv2.

(** [cv2.split] and [cv2.merge]. *)
Definition split3 {A} (img : list (bgr A)) : list A * list A * list A :=
  (blue <$> img, green <$> img, red <$> img).

Definition split4 (img : list bgra) : list Z * list Z * list Z * list Z :=
  (blue4 <$> img, green4 <$> img, red4 <$> img, alpha4 <$> img).

Definition merge3 {A} (b g r : list A) : list (bgr A) :=
  zip_with (λ bg r, Bgr bg.1 bg.2 r) (zip b g) r.

Definition merge4 (b g r a : list Z) : list bgra :=
  zip_with (λ p a, Bgra (blue p) (green p) (red p) a) (merge3 b g r) a.

(** [cv2.bitwise_and(c1, c2, mask=a)] on one plane: the conjunction where
    the mask is nonzero, zero elsewhere (the destination is fresh). *)
Definition bitwise_and (c1 c2 a : list Z) : list Z :=
  zip_with (λ v m, if decide (m = 0) then 0 else v)
           (zip_with Z.land c1 c2) a.

End Cv2.

(** ** Files, directories and the log *)

(** A file path, kept as its directory and its base name. *)
Abbreviation path := (string * string)%type.

(** Metadata of a file: tag name to value. *)
Abbreviation tags := (gmap string string).

(** A file written by this program: its pixel buffer (the codec is not
    modelled) and its metadata. *)
Record file := File { pixels : image; exif : tags }.

Inductive level := STDOUT | INFO | WARNING | ERROR | CRITICAL.

(** The part of the machine the two sanitization engines act on.  [raw] is
    the content of a photograph in the input directory. *)
Record world (raw : Type) := MkWorld {
  raw_dir : gmap string raw;               (* INPUT_DIR: base name to content *)
  disk : gmap string (gmap string file);   (* other directories, by path *)
  has_exiftool : bool;                     (* shutil.which("exiftool") *)
  log : list (level * string);             (* print and logging output *)
  jpeg_encodable : image → bool            (* can cv2's JPEG encoder take the image *)
}.
Arguments MkWorld {raw} _ _ _ _ _.
Arguments raw_dir {raw} _.
Arguments disk {raw} _.
Arguments has_exiftool {raw} _.
Arguments log {raw} _.
Arguments jpeg_encodable {raw} _ _.

(** The pixel buffers of this model carry no shape, so whether an image can
    be written as a JPEG (the encoder refuses a side of more than 65500
    pixels) is a property of the machine.  [World] is a machine on which
    every image can be encoded. *)
Definition World {raw : Type} (raw_dir : gmap string raw)
    (disk : gmap string (gmap string file)) (has_exiftool : bool)
    (log : list (level * string)) : world raw :=
  MkWorld raw_dir disk has_exiftool log (λ _, true).

Section World.
Context {raw : Type}.
Implicit Type w : world raw.

Definition emit (l : level) (msg : string) w : world raw :=
  MkWorld (raw_dir w) (disk w) (has_exiftool w) (log w ++ [(l, msg)])
          (jpeg_encodable w).

Definition print := emit STDOUT.

Definition set_disk (d : gmap string (gmap string file)) w : world raw :=
  MkWorld (raw_dir w) d (has_exiftool w) (log w) (jpeg_encodable w).

(** [os.listdir]-like enumeration of the input directory. *)
Definition listdir w : list string := elements (dom (raw_dir w)).

(** [if os.path.exists(d): shutil.rmtree(d)] followed by [os.makedirs(d)]. *)
Definition recreate (d : string) w : world raw :=
  set_disk (<[d := ∅]> (disk w)) w.

(** Whether [cv2.imwrite] can encode [img] for the path [p]: the encoder is
    chosen by the extension, and only the JPEG encoder refuses images. *)
Definition encodes w (p : path) (img : image) : bool :=
  if Py.endswith p.2 ".jpg" then jpeg_encodable w img else true.

(** [cv2.imwrite(p, img)], whose result no caller looks at: a fresh file
    without metadata.  The call returns [False] and writes nothing when the
    image cannot be encoded; nothing is written either when the directory
    does not exist. *)
Definition imwrite (p : path) (img : image) w : world raw :=
  if encodes w p img then
    match disk w !! p.1 with
    | Some dir => set_disk (<[p.1 := <[p.2 := File img ∅]> dir]> (disk w)) w
    | None => w
    end
  else w.

(** Replace the metadata of an existing file. *)
Definition rewrite_tags (p : path) (t : tags) w : world raw :=
  match disk w !! p.1 with
  | Some dir =>
      match dir !! p.2 with
      | Some f => set_disk (<[p.1 := <[p.2 := File (pixels f) t]> dir]> (disk w)) w
      | None => w
      end
  | None => w
  end.

(** The file at a path, if any. *)
Definition file_at w (p : path) : option file :=
  dir ← disk w !! p.1; dir !! p.2.

(** [cv2.imread(p, cv2.IMREAD_UNCHANGED)] of a file this program wrote. *)
Definition imread_unchanged (p : path) w : option image :=
  pixels <$> file_at w p.

End World.

(** ** ExifTool

    The metadata tool is an external program.  Its effect is modelled for
    the argument forms the two engines pass, after its manual: arguments
    are processed left to right, [-TagsFromFile SRC] selects a source,
    [-all:all] copies every tag of the source, [-TAG=VALUE] assigns one
    tag, a later operation on a tag overrides an earlier one, and the last
    argument names the file rewritten in place.  The exit status is 0 when
    the target was updated. *)

(** An element of an argument vector: file operands keep their structure. *)
Inductive arg :=
  | Word (s : string)
  | PathArg (p : path).

Module ExifTool.
Section Run.
Context {raw : Type}.
Variable INPUT_DIR : string.
Variable exif_of : raw → tags.     (* metadata stored in a photograph *)

(** Text before and after the first [=] of an option. *)
Fixpoint split_eq (s : string) : option (string * string) :=
  match s with
  | EmptyString => None
  | String c s' =>
      if Ascii.eqb c "=" then Some (EmptyString, s')
      else '(k, v) ← split_eq s'; Some (String c k, v)
  end.

(** [-TAG=VALUE]. *)
Definition assignment (s : string) : option (string * string) :=
  match s with
  | String "-"%char s' => split_eq s'
  | _ => None
  end.

Definition tags_at (w : world raw) (p : path) : option tags :=
  if decide (p.1 = INPUT_DIR) then exif_of <$> raw_dir w !! p.2
  else exif <$> file_at w p.

(** The target file and the tags to write, or [None] on an error. *)
Fixpoint plan (w : world raw) (args : list arg) (src : option tags) (new : tags)
  : option (path * tags) :=
  match args with
  | [] => None
  | [PathArg target] => Some (target, new)
  | PathArg _ :: _ => None
  | Word "-TagsFromFile" :: PathArg p :: rest =>
      t ← tags_at w p; plan w rest (Some t) new
  | Word o :: rest =>
      if decide (o = "-overwrite_original") then plan w rest src new
      else if decide (o = "-n") then plan w rest src new
      else if decide (o = "-all:all")
        then plan w rest src (default ∅ src ∪ new)
      else '(tag, v) ← assignment o; plan w rest src (<[tag := v]> new)
  end.

(** [subprocess.run(["exiftool", ...])]: return code and new state. *)
Definition run (argv : list arg) (w : world raw) : Z * world raw :=
  match argv with
  | Word "exiftool" :: args =>
      match plan w args None ∅ with
      | Some (target, new) =>
          match file_at w target with
          | Some f => (0, rewrite_tags target (new ∪ exif f) w)
          | None => (1, w)
          end
      | None => (1, w)
      end
  | _ => (1, w)
  end.

End Run.
End ExifTool.

(** ** preprocess_ia.py: the learned-segmentation engine *)

Module PreprocessIA.

Definition APPLY_DESPILL : bool := true.
(** The binary64 value of the literal [0.8]. *)
Definition DESPILL_FACTOR : float := 0x1.999999999999ap-1%float.

(** The green sample after line 54, as a [float32]: [g] and [rb_avg] are
    [float32], the two Python scalars are converted to [float32]. *)
Definition blend (g rb_avg : float) : float :=
  Np.add32 (Np.mul32 g (Np.round32 (PrimFloat.sub 1 DESPILL_FACTOR)))
           (Np.mul32 rb_avg (Np.round32 DESPILL_FACTOR)).

Definition green_spill_reduction
    (img_array : list (bgr Z)) (mask_array : list Z) : list (bgr Z) :=
  let img_float :=
    (λ p, Bgr (Np.float32 (blue p)) (Np.float32 (green p)) (Np.float32 (red p)))
      <$> img_array in
  let '(b, g, r) := Cv2.split3 img_float in
  let rb_avg := (λ x, Np.div32 x 2) <$> zip_with Np.add32 r b in
  let spill_mask :=
    zip_with andb (zip_with (λ x y, PrimFloat.ltb y x) g rb_avg)
                  ((λ m, bool_decide (0 < m)) <$> mask_array) in
  let g :=
    if existsb id spill_mask
    then zip_with (λ x (s : bool), if s then blend x.1 x.2 else x.1)
                  (zip g rb_avg) spill_mask
    else g in
  (λ p, Bgr (Np.to_uint8 (blue p)) (Np.to_uint8 (green p)) (Np.to_uint8 (red p)))
    <$> Cv2.merge3 b g r.

(** Lines 121-123 and the [astype(np.uint8)] of line 129, for one sample
    [c] of [img_rgb] and the alpha [a] of its pixel.  The division by
    [255.0] and both products are [float64]. *)
Definition composite_sample (c a : Z) : Z :=
  let bg_black := 0 in
  let alpha_f := PrimFloat.div (Np.float64 a) 255 in
  let comp_final :=
    PrimFloat.add (PrimFloat.mul (Np.float64 c) alpha_f)
                  (PrimFloat.mul (Np.float64 bg_black) (PrimFloat.sub 1 alpha_f)) in
  Np.to_uint8 comp_final.

Definition composite (img_rgb : list (bgr Z)) (a : list Z) : list (bgr Z) :=
  zip_with (λ p a, Bgr (composite_sample (blue p) a)
                       (composite_sample (green p) a)
                       (composite_sample (red p) a)) img_rgb a.

Definition extensions : list string := ["*.jpg"; "*.JPG"; "*.jpeg"; "*.png"].
Definition start_index : Z := 1000.

Section Engine.
Context {raw session encoded : Type}.
Variable PROJECT_DIR : string.
(** [rembg.new_session(model_name)]: the session, or the text of the
    exception it raises. *)
Variable new_session : string → string + session.
(** [open(file_path, 'rb').read()] followed by [rembg.remove]: the encoded
    cut-out, or the text of the exception either call raises. *)
Variable remove : raw → session → string + encoded.
(** [cv2.imdecode(..., cv2.IMREAD_UNCHANGED)]: [None] when decoding
    fails; the cut-out always has four channels. *)
Variable imdecode : encoded → option (list bgra).
Variable exif_of : raw → tags.

Definition INPUT_DIR : string := Py.join (Py.join PROJECT_DIR "data") "raw".
Definition OUTPUT_DIR : string := Py.join (Py.join PROJECT_DIR "data") "sanitized".

(** The [try] block of lines 95-110 for one file: the decoded cut-out
    ([None] when decoding fails), or the text of the exception raised. *)
Definition try_decode (session_ : session) (rd : gmap string raw)
    (filename : string) : string + option (list bgra) :=
  match rd !! filename with
  | None => inl "[Errno 2] No such file or directory"
  | Some input_data =>
      match remove input_data session_ with
      | inl e => inl e
      | inr output_data => inr (imdecode output_data)
      end
  end.

(** Lines 113-123 and the conversion of line 129: the frame written for a
    decoded cut-out. *)
Definition render (img_rgba : list bgra) : image :=
  let '(b, g, r, a) := Cv2.split4 img_rgba in
  let img_rgb := Cv2.merge3 b g r in
  let img_rgb :=
    if APPLY_DESPILL then green_spill_reduction img_rgb a else img_rgb in
  let comp_final := composite img_rgb a in
  Color comp_final.

(** The loop of lines 91-130; [i] is the index [enumerate] supplies. *)
Fixpoint sanitize_loop (session_ : session) (files : list string) (i : Z)
    (mapping : gmap string path) (w : world raw)
  : gmap string path * world raw :=
  match files with
  | [] => (mapping, w)
  | filename :: rest =>
      let original_name_base := Py.stem filename in
      match try_decode session_ (raw_dir w) filename with
      | inl e =>
          sanitize_loop session_ rest (i + 1) mapping
            (emit ERROR ("Error procesando " +:+ filename +:+ ": " +:+ e) w)
      | inr None =>
          sanitize_loop session_ rest (i + 1) mapping
            (emit WARNING ("Decodificación fallida para " +:+ filename) w)
      | inr (Some img_rgba) =>
          let new_filename := Py.str (start_index + i) +:+ ".jpg" in
          let final_path : path := (OUTPUT_DIR, new_filename) in
          sanitize_loop session_ rest (i + 1)
            (<[original_name_base := final_path]> mapping)
            (imwrite final_path (render img_rgba) w)
      end
  end.

Definition sanitize_images (w : world raw) : gmap string path * world raw :=
  let w := recreate OUTPUT_DIR w in
  let files := ext ← extensions; Py.path_glob ext (listdir w) in
  if decide (files = []) then
    (∅, emit ERROR ("No se encontraron imágenes en " +:+ INPUT_DIR) w)
  else
    let files := Py.sorted files in
    let w := emit INFO ("Cargando modelo de segmentación para "
                        +:+ Py.str (Z.of_nat (length files)) +:+ " imágenes...") w in
    match new_session "u2net" with
    | inl e => (∅, emit CRITICAL ("Error inicializando motor de IA: " +:+ e) w)
    | inr session_ => sanitize_loop session_ files 0 ∅ w
    end.

(** The command of lines 156-164. *)
Definition transfer_cmd (raw_path san_path : path) : list arg :=
  [ Word "exiftool"; Word "-overwrite_original";
    Word "-TagsFromFile"; PathArg raw_path;
    Word "-all:all"; Word "-n"; Word "-Orientation=1";
    PathArg san_path ].

(** [{f.stem: f for f in INPUT_DIR.glob('*')}]. *)
Definition raw_map (w : world raw) : gmap string path :=
  foldl (λ m f, <[Py.stem f := (INPUT_DIR, f)]> m) ∅
        (Py.path_glob "*" (listdir w)).

Fixpoint transfer_loop (raw_map_ : gmap string path)
    (items : list (string * path)) (success_count : Z) (w : world raw)
  : Z * world raw :=
  match items with
  | [] => (success_count, w)
  | (orig_name, san_path) :: rest =>
      match raw_map_ !! orig_name with
      | Some raw_path =>
          let '(returncode, w) :=
            ExifTool.run INPUT_DIR exif_of (transfer_cmd raw_path san_path) w in
          transfer_loop raw_map_ rest
            (if decide (returncode = 0) then success_count + 1 else success_count) w
      | None => transfer_loop raw_map_ rest success_count w
      end
  end.

(** [mapping.items()] is enumerated in the map's key order; Python uses
    insertion order.  The commands act on distinct target files. *)
Definition transfer_metadata (mapping : gmap string path) (w : world raw)
  : world raw :=
  let w := emit INFO "Iniciando transferencia y normalización de metadatos EXIF..." w in
  if negb (has_exiftool w) then
    emit ERROR "Herramienta 'exiftool' no encontrada en el sistema. Se omiten metadatos." w
  else
    let '(success_count, w) :=
      transfer_loop (raw_map w) (map_to_list mapping) 0 w in
    emit INFO ("Metadatos procesados correctamente en " +:+ Py.str success_count
               +:+ "/" +:+ Py.str (Z.of_nat (size mapping)) +:+ " archivos.") w.

Definition main (w : world raw) : world raw :=
  let w := emit INFO "Iniciando pipeline de preprocesamiento..." w in
  let '(mapping, w) := sanitize_images w in
  if decide (mapping = ∅) then w
  else
    let w := transfer_metadata mapping w in
    emit INFO ("Proceso finalizado. Salida disponible en: " +:+ OUTPUT_DIR) w.

End Engine.
End PreprocessIA.

(** ** preprocess.py: the classical engine *)

Module Preprocess.

Definition extensions : list string := ["*.jpg"; "*.JPG"; "*.jpeg"; "*.png"].
Definition start_index : Z := 1000.

(** Lines 133-138: flatten the transparency onto black. *)
Definition flatten (img : image) : image :=
  match img with
  | ColorAlpha px =>
      let '(b, g, r, a) := Cv2.split4 px in
      match (λ c, Cv2.bitwise_and c c a) <$> [b; g; r] with
      | [b'; g'; r'] => Color (Cv2.merge3 b' g' r')
      | _ => img
      end
  | _ => img
  end.

Section Engine.
Context {raw photo : Type}.
Variable PROJECT_DIR : string.
(** [cv2.imread(file_path)]: the decoded photograph, [None] on failure. *)
Variable imread : raw → option photo.
(** Lines 87-95 (colour range, circular region, largest component,
    opening): the foreground mask of a photograph. *)
Variable final_mask : photo → list Z.
(** [apply_clahe]: the contrast-enhanced pixels of a photograph. *)
Variable apply_clahe : photo → list (bgr Z).
Variable exif_of : raw → tags.

Definition INPUT_DIR : string := Py.join PROJECT_DIR "data/raw".
Definition PROCESSED_TEMP_DIR : string := Py.join PROJECT_DIR "data/processed_temp".
Definition OUTPUT_FINAL_DIR : string := Py.join PROJECT_DIR "data/sanitized".

(** The loop of lines 80-104. *)
Fixpoint stage_1_loop (files : list string)
    (temp_map : gmap string path) (w : world raw)
  : gmap string path * world raw :=
  match files with
  | [] => (temp_map, w)
  | filename :: rest =>
      let name := (Py.splitext filename).1 in
      match raw_dir w !! filename ≫= imread with
      | None => stage_1_loop rest temp_map w
      | Some img =>
          let img_enhanced := apply_clahe img in
          let '(b, g, r) := Cv2.split3 img_enhanced in
          let final_img := Cv2.merge4 b g r (final_mask img) in
          let output_path : path := (PROCESSED_TEMP_DIR, name +:+ ".png") in
          stage_1_loop rest (<[name := output_path]> temp_map)
                       (imwrite output_path (ColorAlpha final_img) w)
      end
  end.

Definition stage_1_image_processing (w : world raw)
  : gmap string path * world raw :=
  let w := print "
[Etapa 1/3] Procesamiento de Imagen (Masking + CLAHE)..." w in
  let w := recreate PROCESSED_TEMP_DIR w in
  let files := ext ← extensions; Py.glob ext (listdir w) in
  if decide (files = []) then
    (∅, print ("[ERROR] No hay imágenes en " +:+ INPUT_DIR) w)
  else stage_1_loop files ∅ w.

(** The loop of lines 126-146. *)
Fixpoint stage_2_loop (temp_map : gmap string path) (names : list string)
    (final_map : gmap string path) (count : Z) (w : world raw)
  : gmap string path * world raw :=
  match names with
  | [] => (final_map, w)
  | original_name :: rest =>
      match temp_map !! original_name ≫= (λ png_path, imread_unchanged png_path w) with
      | None => stage_2_loop temp_map rest final_map count w
      | Some img =>
          let img_jpg := flatten img in
          let new_filename := Py.str (start_index + count) +:+ ".jpg" in
          let final_path : path := (OUTPUT_FINAL_DIR, new_filename) in
          stage_2_loop temp_map rest
            (<[original_name := final_path]> final_map) (count + 1)
            (imwrite final_path img_jpg w)
      end
  end.

Definition stage_2_sanitization (temp_map : gmap string path) (w : world raw)
  : gmap string path * world raw :=
  let w := print "
[Etapa 2/3] Sanitización (Conversión a JPG + Renombrado)..." w in
  let w := recreate OUTPUT_FINAL_DIR w in
  let sorted_original_names := Py.sorted (elements (dom temp_map)) in
  stage_2_loop temp_map sorted_original_names ∅ 0 w.

(** The command of lines 173-179. *)
Definition inject_cmd (raw_path final_path : path) : list arg :=
  [ Word "exiftool"; Word "-overwrite_original";
    Word "-TagsFromFile"; PathArg raw_path;
    Word "-all:all";
    PathArg final_path ].

(** [{splitext(basename(f))[0]: f for f in glob(INPUT_DIR/'*')}]. *)
Definition raw_path_map (w : world raw) : gmap string path :=
  foldl (λ m f, <[(Py.splitext f).1 := (INPUT_DIR, f)]> m) ∅
        (Py.glob "*" (listdir w)).

Fixpoint stage_3_loop (raw_path_map_ : gmap string path)
    (items : list (string * path)) (processed_count : Z) (w : world raw)
  : Z * world raw :=
  match items with
  | [] => (processed_count, w)
  | (original_name, final_path) :: rest =>
      match raw_path_map_ !! original_name with
      | Some raw_path =>
          let '(returncode, w) :=
            ExifTool.run INPUT_DIR exif_of (inject_cmd raw_path final_path) w in
          stage_3_loop raw_path_map_ rest
            (if decide (returncode = 0) then processed_count + 1
             else processed_count) w
      | None => stage_3_loop raw_path_map_ rest processed_count w
      end
  end.

(** [final_map.items()] is enumerated in the map's key order; Python uses
    insertion order.  The commands act on distinct target files. *)
Definition stage_3_metadata_injection (final_map : gmap string path)
    (w : world raw) : world raw :=
  let w := print "
[Etapa 3/3] Inyección de Metadatos EXIF..." w in
  if negb (has_exiftool w) then
    print "        Esto puede causar que AliceVision falle al no detectar el sensor."
      (print "[ERROR] 'exiftool' no está instalado o en el PATH. Se omitirá la inyección de metadatos." w)
  else
    let '(processed_count, w) :=
      stage_3_loop (raw_path_map w) (map_to_list final_map) 0 w in
    print ("[INFO] Metadatos restaurados en " +:+ Py.str processed_count
           +:+ " imágenes.") w.

Definition banner : string :=
  "============================================================".

Definition main (w : world raw) : world raw :=
  let w := print banner w in
  let w := print " PREPARACIÓN DE DATOS PARA FOTOGRAMETRÍA" w in
  let w := print banner w in
  let '(temp_map, w) := stage_1_image_processing w in
  if decide (temp_map = ∅) then w
  else
    let '(final_map, w) := stage_2_sanitization temp_map w in
    let w := stage_3_metadata_injection final_map w in
    let w := print ("
" +:+ banner) w in
    let w := print " [LISTO] Las imágenes están preparadas en: data/sanitized" w in
    let w := print "         Ahora puede ejecutar 'src/pipeline.py'" w in
    print banner w.

End Engine.
End Preprocess.

(** ** pipeline.py: the toolchain orchestrator *)

Module Pipeline.

(** The machine the orchestrator acts on. *)
Record machine := Machine {
  ALICEVISION_BIN : option string;     (* os.environ.get("ALICEVISION_BIN") *)
  SENSOR_DB : option string;           (* os.environ.get("ALICEVISION_SENSOR_DB") *)
  sanitized : option (list string);    (* os.listdir(INPUT_IMAGES_DIR), None when absent *)
  recon : option (gset string);        (* entries below OUTPUT_ROOT, None when absent *)
  stdout : list string;
  invoked : list (list string)         (* argument vectors given to subprocess.run *)
}.

(** A call returns, leaves through [sys.exit], or raises an exception that
    nothing catches (the interpreter then prints a traceback). *)
Inductive outcome (A : Type) :=
  | Done (a : A)
  | Exit (code : Z)
  | Raised (exc : string).
Arguments Done {A} _.
Arguments Exit {A} _.
Arguments Raised {A} _.

Definition M (A : Type) : Type := machine → outcome A * machine.

Global Instance M_ret : MRet M := λ A a m, (Done a, m).
Global Instance M_bind : MBind M := λ A B k c m,
  match c m with
  | (Done a, m') => k a m'
  | (Exit code, m') => (Exit code, m')
  | (Raised exc, m') => (Raised exc, m')
  end.

Definition sys_exit {A} (code : Z) : M A := λ m, (Exit code, m).

Definition print (line : string) : M unit := λ m,
  (Done (),
   Machine (ALICEVISION_BIN m) (SENSOR_DB m) (sanitized m) (recon m)
           (stdout m ++ [line]) (invoked m)).

Definition get : M machine := λ m, (Done m, m).

Definition set_recon (r : option (gset string)) : M unit := λ m,
  (Done (),
   Machine (ALICEVISION_BIN m) (SENSOR_DB m) (sanitized m) r
           (stdout m) (invoked m)).

Definition record_call (argv : list string) : M unit := λ m,
  (Done (),
   Machine (ALICEVISION_BIN m) (SENSOR_DB m) (sanitized m) (recon m)
           (stdout m) (invoked m ++ [argv])).

(** Truth value of an [os.environ.get] result. *)
Definition truthy (v : option string) : bool :=
  match v with
  | None | Some EmptyString => false
  | Some _ => true
  end.

Definition banner : string :=
  "============================================================".

Section Orchestrator.
Variable PROJECT_DIR : string.
(** An external reconstruction binary: from its argument vector, the
    sanitized frames and the output tree, its return code and the new
    output tree; [None] when the program named by the first argument cannot
    be started. *)
Variable binary :
  list string → option (list string) → gset string → option (Z * gset string).

Definition INPUT_IMAGES_DIR : string := Py.join PROJECT_DIR "data/sanitized".
Definition OUTPUT_ROOT : string := Py.join PROJECT_DIR "data/recon".

Definition validate_environment : M bool :=
  m ← get;
  if negb (truthy (ALICEVISION_BIN m)) || negb (truthy (SENSOR_DB m)) then
    print "[ERROR] Variables de entorno no configuradas.";;
    print "        Ejecute 'source vars.sh' antes de iniciar.";;
    mret false
  else
    match sanitized m with
    | None =>
        print ("[ERROR] No se encuentra el directorio de entrada: "
               +:+ INPUT_IMAGES_DIR);;
        print "        Por favor ejecute primero 'python src/preprocess.py'.";;
        mret false
    | Some entries =>
        let num_files :=
          Z.of_nat (length (filter (λ f, Py.endswith f ".jpg" = true) entries)) in
        if decide (num_files < 3) then
          print ("[ERROR] Insuficientes imágenes en " +:+ INPUT_IMAGES_DIR
                 +:+ " (Encontradas: " +:+ Py.str num_files +:+ ").");;
          print "        Se requieren al menos 3 imágenes para la triangulación.";;
          mret false
        else mret true
    end.

(** [subprocess.run(cmd_list, check=True)]: the return code, which the
    caller sees as [CalledProcessError] when it is not zero; a program that
    cannot be started raises [FileNotFoundError], which [run_alicevision_node]
    does not catch. *)
Definition subprocess_run (argv : list string) : M Z :=
  record_call argv;;
  m ← get;
  match binary argv (sanitized m) (default ∅ (recon m)) with
  | Some (returncode, tree) => set_recon (Some tree);; mret returncode
  | None => λ m, (Raised "FileNotFoundError", m)
  end.

Definition run_alicevision_node (cmd_list : list string) (step_name : string)
  : M unit :=
  print ("
[Ejecución] Nodo: " +:+ step_name);;
  let cmd_list :=
    if decide ("--verboseLevel" ∈ cmd_list) then cmd_list
    else cmd_list ++ ["--verboseLevel"; "error"] in
  returncode ← subprocess_run cmd_list;
  if decide (returncode = 0) then
    print ("[Estado] " +:+ step_name +:+ ": Completado.")
  else
    print ("
[ERROR FATAL] Fallo en el nodo: " +:+ step_name);;
    print ("Comando: " +:+ String.concat " " cmd_list);;
    sys_exit 1.

(** [os.makedirs(os.path.join(OUTPUT_ROOT, name), exist_ok=True)]. *)
Definition makedirs_in_root (name : string) : M unit :=
  m ← get; set_recon (Some ({[name]} ∪ default ∅ (recon m))).

Definition main : M unit :=
  print banner;;
  print " SISTEMA DE RECONSTRUCCIÓN 3D - ALICEVISION PIPELINE";;
  print banner;;
  ok ← validate_environment;
  (if negb ok then sys_exit 1 else mret ());;
  m ← get;
  (if decide (is_Some (recon m)) then
     print "[INFO] Limpiando directorio de salida previo...";;
     set_recon None
   else mret ());;
  set_recon (Some ∅);;
  let bin := default EmptyString (ALICEVISION_BIN m) in
  let sensor_db := default EmptyString (SENSOR_DB m) in
  let sfm_file := Py.join OUTPUT_ROOT "cameraInit.sfm" in
  run_alicevision_node
    [ Py.join bin "aliceVision_cameraInit";
      "--imageFolder"; INPUT_IMAGES_DIR;
      "--sensorDatabase"; sensor_db;
      "--output"; sfm_file;
      "--allowSingleView"; "1";
      "--viewIdMethod"; "filename" ] "CameraInit";;
  let features_dir := Py.join OUTPUT_ROOT "features" in
  makedirs_in_root "features";;
  run_alicevision_node
    [ Py.join bin "aliceVision_featureExtraction";
      "--input"; sfm_file;
      "--output"; features_dir;
      "--describerTypes"; "sift";
      "--forceCpuExtraction"; "1" ] "FeatureExtraction";;
  let matches_file := Py.join OUTPUT_ROOT "imageMatches.txt" in
  run_alicevision_node
    [ Py.join bin "aliceVision_imageMatching";
      "--input"; sfm_file;
      "--features"; features_dir;
      "--output"; matches_file;
      "--minNbImages"; "2";
      "--method"; "Sequential";
      "--nbNeighbors"; "50" ] "ImageMatching";;
  let matches_dir := Py.join OUTPUT_ROOT "matches" in
  makedirs_in_root "matches";;
  run_alicevision_node
    [ Py.join bin "aliceVision_featureMatching";
      "--input"; sfm_file;
      "--features"; features_dir;
      "--imagePairsList"; matches_file;
      "--output"; matches_dir;
      "--describerTypes"; "sift";
      "--distanceRatio"; "0.8" ] "FeatureMatching";;
  let sfm_output := Py.join OUTPUT_ROOT "sfm.abc" in
  run_alicevision_node
    [ Py.join bin "aliceVision_incrementalSfM";
      "--input"; sfm_file;
      "--features"; features_dir;
      "--matches"; matches_dir;
      "--output"; sfm_output;
      "--outputViewsAndPoses"; Py.join OUTPUT_ROOT "cameras.sfm" ]
    "StructureFromMotion";;
  run_alicevision_node
    [ Py.join bin "aliceVision_prepareDenseScene";
      "--input"; sfm_output;
      "--output"; OUTPUT_ROOT;
      "--imagesFolders"; INPUT_IMAGES_DIR ] "PrepareDenseScene";;
  run_alicevision_node
    [ Py.join bin "aliceVision_depthMapEstimation";
      "--input"; sfm_output;
      "--output"; OUTPUT_ROOT;
      "--imagesFolder"; INPUT_IMAGES_DIR;
      "--downscale"; "2" ] "DepthMapEstimation";;
  run_alicevision_node
    [ Py.join bin "aliceVision_depthMapFiltering";
      "--input"; sfm_output;
      "--output"; OUTPUT_ROOT;
      "--depthMapsFolder"; OUTPUT_ROOT ] "DepthMapFiltering";;
  let dense_sfm := Py.join OUTPUT_ROOT "densePointCloud.sfm" in
  let mesh_output := Py.join OUTPUT_ROOT "mesh.obj" in
  run_alicevision_node
    [ Py.join bin "aliceVision_meshing";
      "--input"; sfm_output;
      "--output"; dense_sfm;
      "--outputMesh"; mesh_output;
      "--depthMapsFolder"; OUTPUT_ROOT;
      "--minVis"; "2" ] "Meshing";;
  run_alicevision_node
    [ Py.join bin "aliceVision_texturing";
      "--input"; dense_sfm;
      "--inputMesh"; mesh_output;
      "--output"; OUTPUT_ROOT;
      "--imagesFolder"; INPUT_IMAGES_DIR;
      "--textureSide"; "4096";
      "--colorMappingFileType"; "png" ] "Texturing";;
  print ("
" +:+ banner);;
  print " [INFO] PROCESO FINALIZADO EXITOSAMENTE";;
  print (" [INFO] Modelo generado en: " +:+ Py.join OUTPUT_ROOT "texturedMesh.obj");;
  print banner.

End Orchestrator.
End Pipeline.

(** ** Pointwise forms and decision procedures used by the proofs *)

(** What [green_spill_reduction] does to one pixel with mask sample [m]. *)
Definition despill_pixel (p : bgr Z) (m : Z) : bgr Z :=
  let g := Np.float32 (green p) in
  let rb_avg := Np.div32 (Np.add32 (Np.float32 (red p)) (Np.float32 (blue p))) 2 in
  let g' :=
    if PrimFloat.ltb rb_avg g && bool_decide (0 < m)
    then PreprocessIA.blend g rb_avg else g in
  Bgr (Np.to_uint8 (Np.float32 (blue p))) (Np.to_uint8 g')
      (Np.to_uint8 (Np.float32 (red p))).


(** [half_sum s] is the red/blue average of a pixel with [red + blue = s]. *)
Definition half_sum (s : Z) : float := Np.div32 (Np.float32 s) 2.

Definition add32_exact_at (r b : Z) : bool :=
  PrimFloat.Leibniz.eqb (Np.add32 (Np.float32 r) (Np.float32 b)) (Np.float32 (r + b)).

Definition uint8_roundtrip_at (z : Z) : bool :=
  Np.to_uint8 (Np.float32 z) =? z.

(** For green [g] above the average of a pixel with [red + blue = s]: the
    blended [float32] lies strictly between the average and [g], and its
    8-bit truncation [o] satisfies [s / 2 <= o < g]. *)
Definition blend_between_at (g s : Z) : bool :=
  let gf := Np.float32 g in
  let rb_avg := half_sum s in
  if PrimFloat.ltb rb_avg gf then
    let g' := PreprocessIA.blend gf rb_avg in
    let o := Np.to_uint8 g' in
    PrimFloat.ltb rb_avg g' && PrimFloat.ltb g' gf
    && (s <=? 2 * o + 1) && (o <? g) && (s <? 2 * g)
  else (2 * g <=? s).

Definition composite_at (c a : Z) : bool :=
  let o := PreprocessIA.composite_sample c a in
  (0 <=? o) && (255 * o <=? c * a) && (c * a <=? 255 * o + 255)
  && implb (a =? 255) (o =? c).

(** A pixel of dtype [uint8]. *)
Definition uint8_pixel (p : bgr Z) : Prop :=
  Np.is_uint8 (blue p) ∧ Np.is_uint8 (green p) ∧ Np.is_uint8 (red p).


(** The name of the frame with index [BASE_INDEX + k]. *)
Definition frame_name (k : Z) : string := Py.str (1000 + k) +:+ ".jpg".

(** [str.__contains__]. *)
Fixpoint contains (s sub : string) : bool :=
  Py.startswith s sub
  || match s with EmptyString => false | String _ s' => contains s' sub end.

(** Strict ascending code-point order on strings. *)
Definition str_lt (a b : string) : Prop := String.compare a b = Lt.

(** ** A concrete machine for the examples

    A photograph is given by what decoding it yields and by its metadata;
    segmentation keeps every pixel, contrast enhancement changes nothing,
    and the inference session always starts. *)
Module Demo.

Record photo := Photo { decoded : option (list (bgr Z)); meta : tags }.

Definition good (t : tags) : photo := Photo (Some [Bgr 10 20 30]) t.
Definition corrupt : photo := Photo None ∅.

Definition imread (r : photo) : option (list (bgr Z)) := decoded r.
Definition final_mask (img : list (bgr Z)) : list Z := (λ _, 255) <$> img.
Definition apply_clahe (img : list (bgr Z)) : list (bgr Z) := img.

Definition new_session (model_name : string) : string + unit := inr ().
Definition remove (r : photo) (s : unit) : string + option (list bgra) :=
  match decoded r with
  | Some px => inr (Some ((λ p, Bgra (blue p) (green p) (red p) 255) <$> px))
  | None => inl "cannot identify image file"
  end.
Definition imdecode (e : option (list bgra)) : option (list bgra) := e.

Definition classic_main : world photo → world photo :=
  Preprocess.main "/p" imread final_mask apply_clahe meta.

Definition classic_stages (w : world photo) : gmap string path * world photo :=
  let '(temp_map, w) :=
    Preprocess.stage_1_image_processing "/p" imread final_mask apply_clahe w in
  Preprocess.stage_2_sanitization "/p" temp_map w.

Definition learned_sanitize : world photo → gmap string path * world photo :=
  PreprocessIA.sanitize_images "/p" new_session remove imdecode.

Definition learned_main : world photo → world photo :=
  PreprocessIA.main "/p" new_session remove imdecode meta.

Definition out_dir : string := "/p/data/sanitized".

(** The names in a directory of a state. *)
Definition names_in (d : string) (w : world photo) : list string :=
  elements (dom (default ∅ (disk w !! d))).

End Demo.

(** Example states. *)
Module Worlds.
Import Demo.

(** One photograph taken with the camera rotated (orientation tag 6). *)
Definition rotated : world photo :=
  World {["a.jpg" := good {["Orientation" := "6"]}]} ∅ true [].

(** The same photograph next to its sanitized frame, before any transfer. *)
Definition rotated_sanitized : world photo :=
  World {["a.jpg" := good {["Orientation" := "6"]}]}
        {[out_dir := {["1000.jpg" := File (Color [Bgr 10 20 30]) ∅]}]} true [].

(** An unreadable file sorted before a readable one. *)
Definition one_corrupt : world photo :=
  World {["bad.jpg" := corrupt; "ok.jpg" := good ∅]} ∅ true [].


End Worlds.


(** ** The frames a loop keeps *)

(** Whether the [try] block of the learned engine yields a cut-out. *)
Definition survives {raw session encoded : Type}
    (remove : raw → session → string + encoded)
    (imdecode : encoded → option (list bgra))
    (session_ : session) (rd : gmap string raw) (f : string) : bool :=
  match PreprocessIA.try_decode remove imdecode session_ rd f with
  | inr (Some _) => true
  | _ => false
  end.

(** Whether the frame of a file reaches the disk in the learned engine: the
    file yields a cut-out and the encoder [enc] takes its rendering. *)
Definition frame_written {raw session encoded : Type}
    (remove : raw → session → string + encoded)
    (imdecode : encoded → option (list bgra))
    (session_ : session) (rd : gmap string raw) (enc : image → bool)
    (f : string) : bool :=
  match PreprocessIA.try_decode remove imdecode session_ rd f with
  | inr (Some img_rgba) => enc (PreprocessIA.render img_rgba)
  | _ => false
  end.

(** The indices [enumerate] gives, from [i] on, to the files that pass
    [ok]. *)
Fixpoint survivor_indices (ok : string → bool) (files : list string) (i : Z)
  : list Z :=
  match files with
  | [] => []
  | f :: rest =>
      if ok f then i :: survivor_indices ok rest (i + 1)
      else survivor_indices ok rest (i + 1)
  end.

(** The result of the first stage of the classical engine on the examples. *)
Definition stage_1_of (w : world Demo.photo) : gmap string path * world Demo.photo :=
  Preprocess.stage_1_image_processing "/p"
    Demo.imread Demo.final_mask Demo.apply_clahe w.

(** ** Reference binary32 arithmetic

    The same blend computed with the Standard Library's specification of
    IEEE 754 arithmetic at precision 24 and maximal exponent 128, to check
    the emulation of [np.float32] in [Np] against. *)
Module Ref32.

Definition of_Z (z : Z) : spec_float := binary_normalize 24 128 z 0 false.

(** A binary64 value rounded to binary32. *)
Definition of_float64 (x : float) : spec_float :=
  match Prim2SF x with
  | S754_finite s m e => binary_normalize 24 128 (if s then Z.neg m else Z.pos m) e s
  | y => y
  end.

Definition blend (g s : Z) : spec_float :=
  let rb_avg := SFdiv 24 128 (of_Z s) (of_Z 2) in
  SFadd 24 128
    (SFmul 24 128 (of_Z g)
       (of_float64 (PrimFloat.sub 1 PreprocessIA.DESPILL_FACTOR)))
    (SFmul 24 128 rb_avg (of_float64 PreprocessIA.DESPILL_FACTOR)).

Definition grid : list Z := [0; 1; 3; 128; 255].

(** Two finite values are the same number (their significands may be
    scaled differently). *)
Definition same (x y : spec_float) : bool :=
  match x, y with
  | S754_finite s m e, S754_finite s' m' e' =>
      let lo := Z.min e e' in
      Bool.eqb s s' && (Z.pos m * 2 ^ (e - lo) =? Z.pos m' * 2 ^ (e' - lo))
  | S754_zero s, S754_zero s' => Bool.eqb s s'
  | _, _ => false
  end.

Definition agrees_at (g s : Z) : bool :=
  same (Prim2SF (PreprocessIA.blend (Np.float32 g) (half_sum s))) (blend g s).

End Ref32.

(** A pattern without [*]. *)
Fixpoint star_free (pat : string) : bool :=
  match pat with
  | EmptyString => true
  | String c pat' => negb (Ascii.eqb c "*") && star_free pat'
  end.

(** [s] ends with [suffix]. *)
Definition is_suffix (suffix s : string) : Prop := ∃ pre, s = pre +:+ suffix.

(* ===================================================================== *)
(** * Further definitions: stages, helpers and the remaining scripts *)
(* ===================================================================== *)

(** ** Runs of the orchestrator *)


(** What [main] does once the output root is fresh, in order: it runs a
    node, named here by the path of its binary, or makes a directory under
    the output root. *)
Inductive stage_step :=
  | Run (exe : string)
  | Mk (name : string).

Definition stage_program (bin : string) : list stage_step :=
  [ Run (Py.join bin "aliceVision_cameraInit");
    Mk "features";
    Run (Py.join bin "aliceVision_featureExtraction");
    Run (Py.join bin "aliceVision_imageMatching");
    Mk "matches";
    Run (Py.join bin "aliceVision_featureMatching");
    Run (Py.join bin "aliceVision_incrementalSfM");
    Run (Py.join bin "aliceVision_prepareDenseScene");
    Run (Py.join bin "aliceVision_depthMapEstimation");
    Run (Py.join bin "aliceVision_depthMapFiltering");
    Run (Py.join bin "aliceVision_meshing");
    Run (Py.join bin "aliceVision_texturing") ].


(** The three preconditions [validate_environment] tests. *)
Definition preconditions (m : Pipeline.machine) : bool :=
  Pipeline.truthy (Pipeline.ALICEVISION_BIN m)
  && Pipeline.truthy (Pipeline.SENSOR_DB m)
  && match Pipeline.sanitized m with
     | None => false
     | Some entries =>
         bool_decide
           (3 ≤ length (filter (λ f, Py.endswith f ".jpg" = true) entries))%nat
     end.

(** Two machines that differ at most in what has been printed. *)
Definition same_but_stdout (m m' : Pipeline.machine) : Prop :=
  Pipeline.ALICEVISION_BIN m = Pipeline.ALICEVISION_BIN m'
  ∧ Pipeline.SENSOR_DB m = Pipeline.SENSOR_DB m'
  ∧ Pipeline.sanitized m = Pipeline.sanitized m'
  ∧ Pipeline.recon m = Pipeline.recon m'
  ∧ Pipeline.invoked m = Pipeline.invoked m'.

(** Two runs that end alike and differ at most in what has been printed. *)
Definition same_run (res res' : Pipeline.outcome unit * Pipeline.machine) : Prop :=
  res.1 = res'.1 ∧ same_but_stdout res.2 res'.2.

(** [calls] are the calls a run of [prog] makes from the output tree
    [tree], [ending] is how it ends and [final] the tree it leaves: every
    node is called with its binary first and [--verboseLevel] among the
    arguments, on the tree the steps before it left; the run goes on after
    a return code of zero, stops with exit code 1 right after any other
    return code, the tree being as that binary left it, and stops with an
    uncaught [FileNotFoundError] at a binary that cannot be started; it
    ends normally only after every step. *)
Fixpoint follows
    (binary : list string → option (list string) → gset string
              → option (Z * gset string))
    (san : option (list string)) (prog : list stage_step) (tree : gset string)
    (calls : list (list string)) (ending : Pipeline.outcome unit)
    (final : gset string) : Prop :=
  match prog with
  | [] => calls = [] ∧ ending = Pipeline.Done () ∧ final = tree
  | Mk name :: rest => follows binary san rest ({[name]} ∪ tree) calls ending final
  | Run exe :: rest =>
      ∃ argv calls',
        calls = argv :: calls'
        ∧ head argv = Some exe
        ∧ "--verboseLevel" ∈ argv
        ∧ match binary argv san tree with
          | None =>
              calls' = [] ∧ ending = Pipeline.Raised "FileNotFoundError"
              ∧ final = tree
          | Some (returncode, tree') =>
              if decide (returncode = 0)
              then follows binary san rest tree' calls' ending final
              else calls' = [] ∧ ending = Pipeline.Exit 1 ∧ final = tree'
          end
  end.

(** What is on screen last when a run has stopped early: the command line
    of the call that failed, or, under the traceback of a binary that could
    not be started, the line that announced its node. *)
Definition last_words (calls : list (list string))
    (res : Pipeline.outcome unit * Pipeline.machine) : Prop :=
  match res.1 with
  | Pipeline.Done _ => True
  | Pipeline.Exit _ =>
      ∃ argv, last calls = Some argv
              ∧ last (Pipeline.stdout res.2)
                = Some ("Comando: " +:+ String.concat " " argv)
  | Pipeline.Raised _ =>
      ∃ step_name, last (Pipeline.stdout res.2)
                   = Some ("
[Ejecución] Nodo: " +:+ step_name)
  end.

(** What a sequence of steps has done when it took the machine from [m] to
    [res.2], [prog] being due: the calls it added, and how it ended. *)
Definition nodes_run
    (binary : list string → option (list string) → gset string
              → option (Z * gset string))
    (prog : list stage_step) (m : Pipeline.machine)
    (res : Pipeline.outcome unit * Pipeline.machine) : Prop :=
  Pipeline.ALICEVISION_BIN res.2 = Pipeline.ALICEVISION_BIN m
  ∧ Pipeline.SENSOR_DB res.2 = Pipeline.SENSOR_DB m
  ∧ Pipeline.sanitized res.2 = Pipeline.sanitized m
  ∧ (is_Some (Pipeline.recon m) → is_Some (Pipeline.recon res.2))
  ∧ ∃ calls,
      Pipeline.invoked res.2 = Pipeline.invoked m ++ calls
      ∧ follows binary (Pipeline.sanitized m) prog
          (default ∅ (Pipeline.recon m)) calls res.1
          (default ∅ (Pipeline.recon res.2))
      ∧ last_words calls res.

(** ** The classical engine, stage by stage *)

(** Lines 97-99 of [preprocess.py]: the image written to the temporary
    directory for a decoded photograph. *)
Definition final_img {photo : Type}
    (final_mask : photo → list Z) (apply_clahe : photo → list (bgr Z))
    (img : photo) : image :=
  let img_enhanced := apply_clahe img in
  let '(b, g, r) := Cv2.split3 img_enhanced in
  ColorAlpha (Cv2.merge4 b g r (final_mask img)).

(** The files the first stage of the classical engine iterates over. *)
Definition classic_files {raw : Type} (w : world raw) : list string :=
  ext ← Preprocess.extensions; Py.glob ext (listdir w).

(** ** The mask operations of [preprocess.py] *)

Definition ROI_RATIO : float := 0x1.b333333333333p-1%float.   (* 0.85 *)

(** [int(x)] for a finite float in [0, 2^53): the fractional part is
    dropped. *)
Definition py_int (x : float) : Z :=
  let (m, e) := PrimFloat.frshiftexp x in
  let mant := PrimFloat.normfr_mantissa m in
  Uint63.to_Z (Uint63.lsr mant (Uint63.sub 2154%uint63 e)).

(** Lines 43-44 of [create_circular_mask]: the centre and the radius handed
    to [cv2.circle].  The product and the quotient are [float]. *)
Definition create_circular_mask_circle (h w : Z) (ratio : float) : (Z * Z) * Z :=
  let center := (w / 2, h / 2) in
  let radius :=
    py_int (PrimFloat.div (PrimFloat.mul (Np.float64 (Z.min h w)) ratio) 2) in
  (center, radius).

(** [np.argmax] of a vector: the first index of a maximal element. *)
Fixpoint np_argmax (l : list Z) : nat :=
  match l with
  | [] => 0
  | x :: l' =>
      match l' !! np_argmax l' with
      | Some y => if decide (x < y) then S (np_argmax l') else 0%nat
      | None => 0%nat
      end
  end.

Section Components.
(** [cv2.connectedComponentsWithStats(mask, connectivity=8)]: the number of
    labels, the label of every pixel, and column [CC_STAT_AREA] of the
    statistics (one row per label, label 0 being the background). *)
Variable connectedComponentsWithStats : list Z → Z * list Z * list Z.

Definition keep_largest_component (mask : list Z) : list Z :=
  let '(num_labels, labels, areas) := connectedComponentsWithStats mask in
  if decide (num_labels < 2) then mask
  else
    let largest_label := 1 + Z.of_nat (np_argmax (drop 1 areas)) in
    (λ l, if decide (l = largest_label) then 255 else 0) <$> labels.

End Components.

(** The radius of the region of interest for a smaller side of
    [256 * hi + lo] pixels lies within one of [0.425] times that side. *)
Definition roi_radius_at (hi lo : Z) : bool :=
  let m := 256 * hi + lo in
  let r := (create_circular_mask_circle m m ROI_RATIO).2 in
  (40 * r <=? 17 * m) && (17 * m <? 40 * r + 40).

(** ** Pointwise form of the learned engine's rendering *)

(** A pixel of a decoded cut-out, of dtype [uint8]. *)
Definition uint8_pixel4 (p : bgra) : Prop :=
  Np.is_uint8 (blue4 p) ∧ Np.is_uint8 (green4 p) ∧ Np.is_uint8 (red4 p)
  ∧ Np.is_uint8 (alpha4 p).

(** What [render] does to one pixel: spill reduction under the pixel's own
    alpha, then compositing over black. *)
Definition render_pixel (p : bgra) : bgr Z :=
  let q := despill_pixel (Bgr (blue4 p) (green4 p) (red4 p)) (alpha4 p) in
  Bgr (PreprocessIA.composite_sample (blue q) (alpha4 p))
      (PreprocessIA.composite_sample (green q) (alpha4 p))
      (PreprocessIA.composite_sample (red q) (alpha4 p)).

(** Compositing over black does not decrease when the alpha grows by one
    level. *)
Definition composite_mono_at (c a : Z) : bool :=
  PreprocessIA.composite_sample c a <=? PreprocessIA.composite_sample c (a + 1).

(** Nor when the sample grows by one level. *)
Definition composite_mono_sample_at (c a : Z) : bool :=
  PreprocessIA.composite_sample c a <=? PreprocessIA.composite_sample (c + 1) a.

(** ** tuner.py: the choice of the sample image *)

Module Tuner.

Definition INPUT_DIR : string := "data/raw".

(** [str.lower] on one character.  Only the letters A-Z are mapped; no other
    character lowers to a character of the three extensions tested below,
    so the test of line 23 is not affected. *)
Definition lower_ascii (c : ascii) : ascii :=
  let n := nat_of_ascii c in
  if bool_decide (65 ≤ n ≤ 90)%nat then ascii_of_nat (n + 32) else c.

Fixpoint lower (s : string) : string :=
  match s with
  | EmptyString => EmptyString
  | String c s' => String (lower_ascii c) (lower s')
  end.

Definition valid_exts : list string := [".jpg"; ".jpeg"; ".png"].

(** Lines 21-23: the paths of the candidate images, over the listing
    [names] of [INPUT_DIR]. *)
Definition files (names : list string) : list string :=
  let files := Py.sorted (Py.join INPUT_DIR <$> Py.glob "*" names) in
  filter (λ f, existsb (Py.endswith (lower f)) valid_exts = true) files.

(** Line 30: [files[len(files)//2]]. *)
Definition sample_img_path (files : list string) : option string :=
  files !! (length files / 2)%nat.

End Tuner.

(** ** setup_env.py: preparing the environment of the orchestrator *)

Module SetupEnv.

(** An entry of the file system: a directory, or a text file with its
    content and whether the user may read it and write to it. *)
Inductive node :=
  | Dir
  | TextFile (content : string) (readable writable : bool).

(** The machine the script acts on. *)
Record host := Host {
  fs : gmap string node;          (* existing paths *)
  cwd_writable : bool;            (* may a file be created in CURRENT_DIR *)
  log : list (level * string)     (* logging and print output *)
}.

(** A call returns, leaves through [sys.exit], or raises an exception that
    nothing catches. *)
Inductive result (A : Type) :=
  | Returned (a : A)
  | Exited (code : Z)
  | Raised (exc : string).
Arguments Returned {A} _.
Arguments Exited {A} _.
Arguments Raised {A} _.

Definition emit (l : level) (msg : string) (h : host) : host :=
  Host (fs h) (cwd_writable h) (log h ++ [(l, msg)]).

Definition set_fs (f : gmap string node) (h : host) : host :=
  Host f (cwd_writable h) (log h).

(** [Path.exists]. *)
Definition exists_ (p : string) (h : host) : bool :=
  bool_decide (is_Some (fs h !! p)).

Definition VARS_FILENAME : string := "vars.sh".
Definition CAMERA_MODEL_ID : string := "Samsung S22 Ultra".
Definition SENSOR_WIDTH_MM : string := "9.6".

Definition validate_binaries (root_path : string) (h : host)
  : result string * host :=
  let bin_path := Py.join (Py.join root_path "aliceVision") "bin" in
  let bin_path :=
    if negb (exists_ bin_path h) then Py.join root_path "bin" else bin_path in
  if negb (exists_ bin_path h) then
    (Exited 1,
     emit ERROR "Verifique la instalación del framework."
       (emit ERROR ("No se encontró la carpeta 'bin' en " +:+ root_path +:+ ".") h))
  else
    (Returned bin_path, emit INFO ("Binarios validados en: " +:+ bin_path) h).

(** The three lines written through the handle opened for appending. *)
Definition sensor_lines : string :=
  ("
" +:+ CAMERA_MODEL_ID +:+ ";" +:+ SENSOR_WIDTH_MM +:+ "
")
  +:+ ("SM-S908B;" +:+ SENSOR_WIDTH_MM +:+ "
")
  +:+ ("Samsung;SM-S908B;" +:+ SENSOR_WIDTH_MM +:+ "
").

(** Lines 57-62: where the sensor database is looked for. *)
Definition locate_sensor_database (root_path : string) (h : host) : string :=
  let share_path :=
    Py.join (Py.join (Py.join root_path "aliceVision") "share") "aliceVision" in
  let db_file := Py.join share_path "cameraSensors.db" in
  if negb (exists_ db_file h)
  then Py.join (Py.join (Py.join root_path "share") "aliceVision") "cameraSensors.db"
  else db_file.

Definition update_sensor_database (root_path : string) (h : host)
  : result string * host :=
  let db_file := locate_sensor_database root_path h in
  match fs h !! db_file with
  | None =>
      (Exited 1,
       emit CRITICAL "No se encontró 'cameraSensors.db'. Imposible continuar." h)
  | Some entry =>
      let h := emit INFO ("Base de datos de sensores: " +:+ db_file) h in
      let denied :=
        emit WARNING
          "Permiso denegado en cameraSensors.db. Ejecute con 'sudo' si es necesario." h in
      match entry with
      | Dir =>
          (* [read_text] raises [IsADirectoryError], which is not caught *)
          (Raised "IsADirectoryError", h)
      | TextFile content readable writable =>
          if negb readable then (Returned db_file, denied)
          else if contains content CAMERA_MODEL_ID then
            (Returned db_file,
             emit INFO ("Modelo '" +:+ CAMERA_MODEL_ID +:+ "' ya registrado.") h)
          else
            let h := emit INFO ("Registrando nuevo sensor: " +:+ CAMERA_MODEL_ID
                                +:+ " (" +:+ SENSOR_WIDTH_MM +:+ "mm)") h in
            if negb writable then
              (Returned db_file,
               emit WARNING
                 "Permiso denegado en cameraSensors.db. Ejecute con 'sudo' si es necesario." h)
            else
              let h :=
                set_fs (<[db_file := TextFile (content +:+ sensor_lines)
                                       readable writable]> (fs h)) h in
              (Returned db_file,
               emit INFO "Base de datos actualizada correctamente." h)
      end
  end.

Section Script.
(** [CURRENT_DIR]. *)
Variable CURRENT_DIR : string.

Definition ALICEVISION_ROOT : string := Py.join CURRENT_DIR "aliceVision".

(** The text of lines 95-101. *)
Definition env_content (bin_path db_file root_path : string) : string :=
  let lib_path := Py.join (Py.join root_path "aliceVision") "lib" in
  let av_root_internal := Py.join root_path "aliceVision" in
  "# Script de entorno autogenerado
"
  +:+ ("export ALICEVISION_BIN='" +:+ bin_path +:+ "'
")
  +:+ ("export ALICEVISION_SENSOR_DB='" +:+ db_file +:+ "'
")
  +:+ ("export ALICEVISION_ROOT='" +:+ av_root_internal +:+ "'
")
  +:+ ("export LD_LIBRARY_PATH='" +:+ lib_path +:+ ":$LD_LIBRARY_PATH'
").

(** [env_script.write_text(content)]: the new file system, or the text of
    the [OSError] raised. *)
Definition write_text (p content : string) (h : host) : string + gmap string node :=
  match fs h !! p with
  | Some Dir => inl ("[Errno 21] Is a directory: '" +:+ p +:+ "'")
  | Some (TextFile _ readable writable) =>
      if writable then inr (<[p := TextFile content readable writable]> (fs h))
      else inl ("[Errno 13] Permission denied: '" +:+ p +:+ "'")
  | None =>
      if cwd_writable h then inr (<[p := TextFile content true true]> (fs h))
      else inl ("[Errno 13] Permission denied: '" +:+ p +:+ "'")
  end.

Definition generate_env_script (bin_path db_file root_path : string) (h : host)
  : host :=
  let env_script := Py.join CURRENT_DIR VARS_FILENAME in
  let content := env_content bin_path db_file root_path in
  match write_text env_script content h with
  | inr fs' =>
      let h := set_fs fs' h in
      let h := emit INFO ("Archivo de entorno generado: " +:+ VARS_FILENAME) h in
      emit STDOUT ("
[ACCIÓN REQUERIDA] Ejecute: source " +:+ VARS_FILENAME +:+ "
") h
  | inl e =>
      emit ERROR ("Error escribiendo " +:+ VARS_FILENAME +:+ ": " +:+ e) h
  end.

Definition main (h : host) : result unit * host :=
  let h := emit INFO "Iniciando configuración de infraestructura..." h in
  if negb (exists_ ALICEVISION_ROOT h) then
    (Exited 1,
     emit ERROR ("Directorio base no encontrado: " +:+ ALICEVISION_ROOT) h)
  else
    match validate_binaries ALICEVISION_ROOT h with
    | (Returned bin_path, h) =>
        match update_sensor_database ALICEVISION_ROOT h with
        | (Returned db_file, h) =>
            (Returned (), generate_env_script bin_path db_file ALICEVISION_ROOT h)
        | (Exited code, h) => (Exited code, h)
        | (Raised exc, h) => (Raised exc, h)
        end
    | (Exited code, h) => (Exited code, h)
    | (Raised exc, h) => (Raised exc, h)
    end.

End Script.
End SetupEnv.

(* ===================================================================== *)
(** * Properties *)
(* ===================================================================== *)

#[local] Set Warnings "-clear-no-such-hyp".

(** ** Exhaustive checks over 8-bit samples *)

Lemma forallb_seqZ (P : Z → bool) (lo n : Z) :
  forallb P (seqZ lo n) = true → ∀ z, lo ≤ z < lo + n → P z = true.
Proof.
  intros H z Hz. rewrite forallb_forall in H. apply H.
  apply list_elem_of_In, elem_of_seqZ. lia.
Qed.

Lemma forallb2_seqZ (P : Z → Z → bool) (n1 n2 : Z) :
  forallb (λ x, forallb (P x) (seqZ 0 n2)) (seqZ 0 n1) = true →
  ∀ x y, 0 ≤ x < n1 → 0 ≤ y < n2 → P x y = true.
Proof.
  intros H x y Hx Hy.
  apply (forallb_seqZ (P x) 0 n2); [|lia].
  apply (forallb_seqZ (λ x, forallb (P x) (seqZ 0 n2)) 0 n1 H); lia.
Qed.

Lemma uint8_roundtrip z : Np.is_uint8 z → Np.to_uint8 (Np.float32 z) = z.
Proof.
  intros Hz. apply Z.eqb_eq.
  apply (forallb_seqZ uint8_roundtrip_at 0 256); [by vm_compute | exact Hz].
Qed.

Lemma add32_exact r b :
  Np.is_uint8 r → Np.is_uint8 b →
  Np.add32 (Np.float32 r) (Np.float32 b) = Np.float32 (r + b).
Proof.
  intros Hr Hb. apply FloatAxioms.Leibniz.eqb_spec.
  apply (forallb2_seqZ add32_exact_at 256 256); [by vm_compute | exact Hr | exact Hb].
Qed.

Lemma blend_between_all g s :
  0 ≤ g < 256 → 0 ≤ s < 511 → blend_between_at g s = true.
Proof. apply (forallb2_seqZ blend_between_at 256 511). by vm_compute. Qed.

Lemma composite_all c a :
  0 ≤ c < 256 → 0 ≤ a < 256 → composite_at c a = true.
Proof. apply (forallb2_seqZ composite_at 256 256). by vm_compute. Qed.


(** ** Spill correction and compositing *)

Lemma merge3_fmap {A B} (f1 f2 f3 : A → B) (l : list A) :
  Cv2.merge3 (f1 <$> l) (f2 <$> l) (f3 <$> l) = (λ x, Bgr (f1 x) (f2 x) (f3 x)) <$> l.
Proof. induction l as [|x l IH]; [done|]. unfold Cv2.merge3 in *. simpl. f_equal. exact IH. Qed.

Lemma masked_update_none {A} (f : A → A → A) (xs ys : list A) (ss : list bool) :
  existsb id ss = false → length ss = length xs → length ys = length xs →
  zip_with (λ x (s : bool), if s then f x.1 x.2 else x.1) (zip xs ys) ss = xs.
Proof.
  revert ys ss. induction xs as [|x xs IH]; intros [|y ys] [|s ss]; simpl; try done.
  intros Hs Hl1 Hl2. destruct s; simpl in *; [done|].
  f_equal. apply IH; [done|lia|lia].
Qed.

Lemma green_spill_reduction_pointwise (img : list (bgr Z)) (mask : list Z) :
  length img = length mask →
  PreprocessIA.green_spill_reduction img mask = zip_with despill_pixel img mask.
Proof.
  intros Hlen. unfold PreprocessIA.green_spill_reduction, Cv2.split3.
  match goal with
  | |- context [if existsb id ?ss then ?upd else ?g] =>
      assert (Hany : (if existsb id ss then upd else g) = upd)
  end.
  { destruct (existsb id _) eqn:Hex; [done|]. symmetry.
    apply (masked_update_none PreprocessIA.blend); [done|..];
      repeat first [rewrite length_zip_with | rewrite length_fmap]; lia. }
  rewrite Hany. clear Hany.
  revert mask Hlen. induction img as [|p img IH]; intros [|m mask] Hlen;
    simplify_eq/=; [done|].
  unfold Cv2.merge3 in *. simpl. f_equal. by apply IH.
Qed.

(** Turn the boolean tests of a checked case into arithmetic facts. *)
Ltac unbool :=
  repeat match goal with
  | H : _ && _ = true |- _ => apply andb_prop in H as [? ?]
  | H : (_ <=? _) = true |- _ => apply Z.leb_le in H
  | H : (_ <? _) = true |- _ => apply Z.ltb_lt in H
  | H : (_ =? _) = true |- _ => apply Z.eqb_eq in H
  end.


Lemma despill_at (img : list (bgr Z)) (mask : list Z) (i : nat) (p : bgr Z) (m : Z) :
  length img = length mask → img !! i = Some p → mask !! i = Some m →
  PreprocessIA.green_spill_reduction img mask !! i = Some (despill_pixel p m).
Proof.
  intros Hlen Hp Hm. rewrite green_spill_reduction_pointwise by done.
  rewrite lookup_zip_with, Hp. simpl. by rewrite Hm.
Qed.

Lemma rb_avg_half_sum (p : bgr Z) :
  uint8_pixel p →
  Np.div32 (Np.add32 (Np.float32 (red p)) (Np.float32 (blue p))) 2
  = half_sum (red p + blue p).
Proof. intros (Hb & _ & Hr). unfold half_sum. by rewrite add32_exact. Qed.

(** C9: [green_spill_reduction] leaves the blue and red samples of every
    pixel as they were, and leaves the green sample as it was wherever the
    mask is zero or green does not exceed the red/blue average. *)
Theorem green_spill_reduction_frame
    (img : list (bgr Z)) (mask : list Z) (i : nat) (p : bgr Z) (m : Z) :
  length img = length mask →
  Forall uint8_pixel img →
  img !! i = Some p → mask !! i = Some m →
  ∃ q, PreprocessIA.green_spill_reduction img mask !! i = Some q
       ∧ blue q = blue p ∧ red q = red p
       ∧ (m = 0 ∨ 2 * green p ≤ red p + blue p → green q = green p).
Proof.
  intros Hlen Hu8 Hp Hm. exists (despill_pixel p m).
  split; [by apply despill_at|].
  assert (Hpx : uint8_pixel p) by (eapply Forall_lookup_1; eauto).
  destruct Hpx as (Hb & Hg & Hr).
  unfold despill_pixel. simpl. rewrite !uint8_roundtrip by done.
  split; [done|]. split; [done|]. intros Hcase.
  rewrite rb_avg_half_sum by done.
  pose proof (blend_between_all (green p) (red p + blue p) Hg) as Hchk.
  unfold blend_between_at in Hchk. unfold Np.is_uint8 in *.
  destruct (PrimFloat.ltb _ _) eqn:Hlt; simpl.
  - destruct Hcase as [-> | Hle].
    + rewrite bool_decide_eq_false_2 by lia. by apply uint8_roundtrip.
    + specialize (Hchk ltac:(lia)). unbool. lia.
  - by apply uint8_roundtrip.
Qed.

Lemma green_spill_reduction_frame_witness :
  ∃ q, PreprocessIA.green_spill_reduction [Bgr 10 200 30; Bgr 90 40 80] [0; 255] !! 1%nat
       = Some q
       ∧ blue q = 90 ∧ red q = 80
       ∧ (255 = 0 ∨ 2 * 40 ≤ 80 + 90 → green q = 40).
Proof.
  apply (green_spill_reduction_frame
           [Bgr 10 200 30; Bgr 90 40 80] [0; 255] 1 (Bgr 90 40 80) 255).
  - reflexivity.
  - repeat constructor; vm_compute; congruence.
  - reflexivity.
  - reflexivity.
Defined.

(** C6 (as amended): inside the mask, where green exceeds the red/blue
    average, the blended value [g * (1 - 0.8) + avg * 0.8] that line 54
    stores lies strictly between the average and the original green.  The
    sample the function returns is that value cut to 8 bits: it is below
    the original green and at least the integer part of the average. *)
Theorem spill_correction_bound
    (img : list (bgr Z)) (mask : list Z) (i : nat) (p : bgr Z) (m : Z) :
  length img = length mask →
  Forall uint8_pixel img →
  img !! i = Some p → mask !! i = Some m →
  0 < m → red p + blue p < 2 * green p →
  let g := Np.float32 (green p) in
  let rb_avg := Np.div32 (Np.add32 (Np.float32 (red p)) (Np.float32 (blue p))) 2 in
  let g' := PreprocessIA.blend g rb_avg in
  PrimFloat.ltb rb_avg g = true
  ∧ PrimFloat.ltb rb_avg g' = true ∧ PrimFloat.ltb g' g = true
  ∧ ∃ q, PreprocessIA.green_spill_reduction img mask !! i = Some q
         ∧ green q = Np.to_uint8 g'
         ∧ (red p + blue p) / 2 ≤ green q < green p.
Proof.
  intros Hlen Hu8 Hp Hm Hpos Hgt.
  assert (Hpx : uint8_pixel p) by (eapply Forall_lookup_1; eauto).
  pose proof Hpx as (Hb & Hg & Hr). simpl.
  rewrite rb_avg_half_sum by done.
  pose proof (blend_between_all (green p) (red p + blue p) Hg) as Hchk.
  unfold blend_between_at in Hchk. unfold Np.is_uint8 in *.
  specialize (Hchk ltac:(lia)).
  destruct (PrimFloat.ltb (half_sum _) _) eqn:Hlt; unbool; [|lia].
  split; [done|]. split; [done|]. split; [done|].
  exists (despill_pixel p m). split; [by apply despill_at|].
  unfold despill_pixel. simpl. rewrite rb_avg_half_sum by done.
  rewrite Hlt, bool_decide_eq_true_2 by done. simpl.
  split; [done|].
  split; [|lia]. apply Z.lt_succ_r, Z.div_lt_upper_bound; lia.
Qed.

Lemma spill_correction_bound_witness :
  let g := Np.float32 200 in
  let rb_avg := Np.div32 (Np.add32 (Np.float32 30) (Np.float32 10)) 2 in
  let g' := PreprocessIA.blend g rb_avg in
  PrimFloat.ltb rb_avg g = true
  ∧ PrimFloat.ltb rb_avg g' = true ∧ PrimFloat.ltb g' g = true
  ∧ ∃ q, PreprocessIA.green_spill_reduction [Bgr 10 200 30] [255] !! 0%nat = Some q
         ∧ green q = Np.to_uint8 g'
         ∧ (30 + 10) / 2 ≤ green q < 200.
Proof.
  apply (spill_correction_bound [Bgr 10 200 30] [255] 0 (Bgr 10 200 30) 255).
  - reflexivity.
  - repeat constructor; vm_compute; congruence.
  - reflexivity.
  - reflexivity.
  - reflexivity.
  - reflexivity.
Defined.

(** The 8-bit sample can fall below the average itself: green 1 with
    red 1 and blue 0 (average 0.5) is returned as 0. *)
Example spill_truncation_below_average :
  PreprocessIA.green_spill_reduction [Bgr 0 1 1] [255] = [Bgr 0 0 1].
Proof. by vm_compute. Qed.

(** C6, as stated, fails for the sample the function returns.  Inside the
    mask and with green above the red/blue average, green 1 with red 1 and
    blue 0 (average 0.5) comes back as 0, below the average, and green 101
    with red 100 and blue 100 comes back as 100, the average itself. *)
Lemma returned_green_not_above_average :
  (1 + 0 < 2 * 1
   ∧ PreprocessIA.green_spill_reduction [Bgr 0 1 1] [255] !! 0%nat = Some (Bgr 0 0 1)
   ∧ ¬ (1 + 0 < 2 * green (Bgr 0 0 1)))
  ∧ (100 + 100 < 2 * 101
     ∧ PreprocessIA.green_spill_reduction [Bgr 100 101 100] [255] !! 0%nat
       = Some (Bgr 100 100 100)
     ∧ ¬ (100 + 100 < 2 * green (Bgr 100 100 100))).
Proof.
  split; (split; [lia|]); (split; [by vm_compute|]); simpl; lia.
Qed.

(** The learned engine's blend falls one level short of the exact quotient
    where rounding leaves the product just under an integer. *)
Example composite_rounds_down :
  PreprocessIA.composite_sample 85 147 = 48 ∧ 85 * 147 = 255 * 49.
Proof. by vm_compute. Qed.




(** The emulated [float32] blend agrees with the reference binary32
    arithmetic on a grid of green samples and red/blue sums. *)
Example float32_emulation_agrees_on_grid :
  forallb (λ g, forallb (λ s, Ref32.agrees_at g (2 * s)) Ref32.grid
                && forallb (λ s, Ref32.agrees_at g (2 * s + 1)) Ref32.grid)
          Ref32.grid = true.
Proof. by vm_compute. Qed.

(** ** Patterns *)

Lemma fnmatch_cons_literal (c : ascii) (pat s : string) :
  Ascii.eqb c "*" = false →
  Py.fnmatch (String c pat) s
  = match s with
    | EmptyString => false
    | String d s' => Ascii.eqb c d && Py.fnmatch pat s'
    end.
Proof. by destruct c as [[] [] [] [] [] [] [] []]. Qed.

Lemma fnmatch_literal (lit s : string) :
  star_free lit = true → Py.fnmatch lit s = true ↔ s = lit.
Proof.
  revert s. induction lit as [|c lit IH]; intros s Hfree.
  { destruct s; simpl; naive_solver. }
  simpl in Hfree. apply andb_prop in Hfree as [Hc Hfree].
  apply negb_true_iff in Hc. rewrite fnmatch_cons_literal by done.
  destruct s as [|d s]; [naive_solver|].
  rewrite andb_true_iff, Ascii.eqb_eq, IH by done. naive_solver.
Qed.

(** [*lit] matches exactly the names that end with [lit]. *)
Lemma fnmatch_star (lit s : string) :
  star_free lit = true → Py.fnmatch (String "*" lit) s = true ↔ is_suffix lit s.
Proof.
  intros Hfree. unfold is_suffix.
  change (Py.fnmatch (String "*" lit) s)
    with ((fix any (s : string) : bool :=
             Py.fnmatch lit s
             || match s with EmptyString => false | String _ s' => any s' end) s).
  induction s as [|c s IH].
  - rewrite orb_false_r, fnmatch_literal by done. split.
    + intros ->. by exists "".
    + intros [[|? ?] Hpre]; [done|discriminate].
  - rewrite orb_true_iff, fnmatch_literal, IH by done. split.
    + intros [->|[pre ->]]; [by exists ""|by exists (String c pre)].
    + intros [[|d pre] Hpre]; [by left|].
      injection Hpre as -> ->. right. by exists pre.
Qed.

(** The files the learned engine discovers are those whose names end, letter
    for letter, in [.jpg], [.JPG], [.jpeg] or [.png]; the classical engine
    moreover leaves out the names that start with a dot. *)
Lemma discovered_iff_suffix (names : list string) (f : string) :
  (f ∈ (ext ← PreprocessIA.extensions; Py.path_glob ext names)
   ↔ f ∈ names ∧ (is_suffix ".jpg" f ∨ is_suffix ".JPG" f
                  ∨ is_suffix ".jpeg" f ∨ is_suffix ".png" f))
  ∧ (f ∈ (ext ← Preprocess.extensions; Py.glob ext names)
     ↔ f ∈ names ∧ Py.ishidden f = false
       ∧ (is_suffix ".jpg" f ∨ is_suffix ".JPG" f
          ∨ is_suffix ".jpeg" f ∨ is_suffix ".png" f)).
Proof.
  assert (Hbind : ∀ (g : string → list string) a b c d,
            (ext ← [a; b; c; d]; g ext) = g a ++ g b ++ g c ++ g d ++ [])
    by reflexivity.
  unfold PreprocessIA.extensions, Preprocess.extensions, Py.path_glob, Py.glob.
  rewrite !Hbind, !app_nil_r, !elem_of_app, !list_elem_of_filter.
  rewrite !fnmatch_star by done. naive_solver.
Qed.

(** ** Discovery of the input photographs *)

(** C8: on a file system with case-sensitive names the four patterns
    [*.jpg], [*.JPG], [*.jpeg], [*.png] miss [.JPEG], [.PNG] and [.Jpg]:
    neither engine discovers such a file, and a directory holding only
    such files is reported as empty by the learned engine. *)
Theorem uppercase_extensions_not_discovered
    {raw session encoded : Type} (PROJECT_DIR : string)
    (new_session : string → string + session)
    (remove : raw → session → string + encoded)
    (imdecode : encoded → option (list bgra))
    (r : raw) (prev : gmap string (gmap string file)) :
  let names := ["IMG_0001.JPEG"; "scan.PNG"; "b.Jpg"] in
  let w := World {["scan.PNG" := r]} prev true [] in
  (ext ← Preprocess.extensions; Py.glob ext names) = []
  ∧ (ext ← PreprocessIA.extensions; Py.path_glob ext names) = []
  ∧ (PreprocessIA.sanitize_images PROJECT_DIR new_session remove imdecode w).1 = ∅
  ∧ log (PreprocessIA.sanitize_images PROJECT_DIR new_session remove imdecode w).2
    = [(ERROR, "No se encontraron imágenes en "
               +:+ PreprocessIA.INPUT_DIR PROJECT_DIR)].
Proof. intros names w. split; [by vm_compute|]. split; [by vm_compute|]. done. Qed.

(** The extensions the patterns do cover are found by both engines. *)
Example lowercase_extensions_discovered :
  let names := ["a.jpg"; "b.JPG"; "c.jpeg"; "d.png"] in
  (ext ← Preprocess.extensions; Py.glob ext names) = names
  ∧ (ext ← PreprocessIA.extensions; Py.path_glob ext names) = names.
Proof. by vm_compute. Qed.

(** ** The learned engine clears its output first *)

(** C10: the learned engine replaces the output directory by an empty one
    before it looks for input images and before it builds the inference
    session: a run that finds no image, or whose session cannot be built,
    returns the empty mapping and leaves the output directory empty,
    whatever it held before. *)
Theorem output_dir_erased_on_failed_run
    {raw session encoded : Type} (PROJECT_DIR : string)
    (new_session : string → string + session)
    (remove : raw → session → string + encoded)
    (imdecode : encoded → option (list bgra))
    (w : world raw) :
  (ext ← PreprocessIA.extensions; Py.path_glob ext (listdir w)) = []
  ∨ (∃ e, new_session "u2net" = inl e) →
  let run := PreprocessIA.sanitize_images PROJECT_DIR new_session remove imdecode w in
  run.1 = ∅
  ∧ disk run.2 = <[PreprocessIA.OUTPUT_DIR PROJECT_DIR := ∅]> (disk w)
  ∧ disk run.2 !! PreprocessIA.OUTPUT_DIR PROJECT_DIR = Some ∅.
Proof.
  intros Hfail run.
  assert (Hrun : run.1 = ∅
    ∧ disk run.2 = <[PreprocessIA.OUTPUT_DIR PROJECT_DIR := ∅]> (disk w)).
  { subst run. unfold PreprocessIA.sanitize_images.
    change (listdir (recreate _ w)) with (listdir w).
    destruct (decide (_ = [])) as [Hnil|Hfiles]; [done|].
    destruct Hfail as [Hnil|[e He]]; [done|]. by rewrite He. }
  destruct Hrun as [Hmap Hdisk]. split; [done|]. split; [done|].
  rewrite Hdisk. apply lookup_insert_eq.
Qed.

Lemma output_dir_erased_on_failed_run_witness :
  let stale : gmap string file := {["1000.jpg" := File (Gray [7]) ∅]} in
  let w : world unit :=
    World ∅ {[PreprocessIA.OUTPUT_DIR "/p" := stale]} true [] in
  let run :=
    PreprocessIA.sanitize_images (session := unit) (encoded := unit) "/p"
      (λ _, inr ()) (λ _ _, inr ()) (λ _, None) w in
  run.1 = ∅
  ∧ disk run.2 = <[PreprocessIA.OUTPUT_DIR "/p" := ∅]> (disk w)
  ∧ disk run.2 !! PreprocessIA.OUTPUT_DIR "/p" = Some ∅.
Proof.
  intros stale w.
  apply (output_dir_erased_on_failed_run (session := unit) (encoded := unit) "/p"
           (λ _, inr ()) (λ _ _, inr ()) (λ _, None) w).
  left. by vm_compute.
Defined.

(** ** The orchestrator's precondition *)

(** C7: with fewer than three [.jpg] entries in the sanitized directory the
    orchestrator leaves through [sys.exit(1)] after printing a diagnostic;
    no binary has been invoked and the reconstruction output directory is
    as it was. *)
Theorem too_few_frames_abort
    (PROJECT_DIR : string)
    (binary : list string → option (list string) → gset string
              → option (Z * gset string))
    (m : Pipeline.machine) (entries : list string) :
  Pipeline.sanitized m = Some entries →
  (length (filter (λ f, Py.endswith f ".jpg" = true) entries) < 3)%nat →
  ∃ diagnostic detail,
    Pipeline.main PROJECT_DIR binary m
    = (Pipeline.Exit 1,
       Pipeline.Machine (Pipeline.ALICEVISION_BIN m) (Pipeline.SENSOR_DB m)
         (Pipeline.sanitized m) (Pipeline.recon m)
         (Pipeline.stdout m
            ++ [Pipeline.banner;
                " SISTEMA DE RECONSTRUCCIÓN 3D - ALICEVISION PIPELINE";
                Pipeline.banner; diagnostic; detail])
         (Pipeline.invoked m))
    ∧ Py.startswith diagnostic "[ERROR]" = true.
Proof.
  intros Hdir Hfew. destruct m as [bin db san rec out inv]. simpl in *. subst san.
  unfold Pipeline.main, Pipeline.validate_environment.
  destruct (negb (Pipeline.truthy bin) || negb (Pipeline.truthy db)) eqn:Henv.
  - eexists _, _. split.
    + unfold mbind, Pipeline.M_bind, Pipeline.print, Pipeline.get, mret,
        Pipeline.M_ret, Pipeline.sys_exit; simpl. rewrite Henv. simpl.
      rewrite <- !app_assoc. reflexivity.
    + reflexivity.
  - eexists _, _. split.
    + unfold mbind, Pipeline.M_bind, Pipeline.print, Pipeline.get, mret,
        Pipeline.M_ret, Pipeline.sys_exit; simpl. rewrite Henv. simpl.
      destruct (decide _) as [_|Hge]; [|lia]. simpl.
      rewrite <- !app_assoc. reflexivity.
    + reflexivity.
Qed.

Lemma too_few_frames_abort_witness :
  ∃ diagnostic detail,
    Pipeline.main "/p" (λ _ _ tree, Some (0, tree))
      (Pipeline.Machine (Some "/opt/av/bin") (Some "/opt/av/db")
         (Some ["1000.jpg"; "1001.jpg"; "notes.txt"]) (Some {["mesh.obj"]}) [] [])
    = (Pipeline.Exit 1,
       Pipeline.Machine (Some "/opt/av/bin") (Some "/opt/av/db")
         (Some ["1000.jpg"; "1001.jpg"; "notes.txt"]) (Some {["mesh.obj"]})
         ([] ++ [Pipeline.banner;
                 " SISTEMA DE RECONSTRUCCIÓN 3D - ALICEVISION PIPELINE";
                 Pipeline.banner; diagnostic; detail])
         [])
    ∧ Py.startswith diagnostic "[ERROR]" = true.
Proof.
  apply (too_few_frames_abort "/p" (λ _ _ tree, Some (0, tree))
           (Pipeline.Machine (Some "/opt/av/bin") (Some "/opt/av/db")
              (Some ["1000.jpg"; "1001.jpg"; "notes.txt"]) (Some {["mesh.obj"]}) [] [])
           ["1000.jpg"; "1001.jpg"; "notes.txt"]).
  - reflexivity.
  - vm_compute. lia.
Defined.

(** ** Metadata transfer *)

Arguments file_at : simpl never.
Arguments rewrite_tags : simpl never.

Lemma file_at_rewrite_tags {raw} (w : world raw) (p : path) (t : tags) (f : file) :
  file_at w p = Some f →
  file_at (rewrite_tags p t w) p = Some (File (pixels f) t).
Proof.
  unfold file_at, rewrite_tags. intros Hf.
  destruct (disk w !! p.1) as [dir|] eqn:Hdir; simpl in *; [|done].
  rewrite Hf. simpl. rewrite lookup_insert_eq. simpl. by rewrite lookup_insert_eq.
Qed.

(** What a transfer command that exits with status 0 leaves, per engine:
    the sanitized file has orientation tag 1 in the learned engine, whose
    command carries [-n -Orientation=1]; in the classical engine the
    command only copies the photograph's tags, so the file ends up with the
    photograph's own tags laid over the ones it had. *)
Lemma orientation_after_transfer {raw : Type}
    (INPUT_DIR : string) (exif_of : raw → tags)
    (w w' : world raw) (raw_path target : path) :
  (ExifTool.run INPUT_DIR exif_of (PreprocessIA.transfer_cmd raw_path target) w = (0, w') →
     ∃ f, file_at w' target = Some f ∧ exif f !! "Orientation" = Some "1")
  ∧ (ExifTool.run INPUT_DIR exif_of (Preprocess.inject_cmd raw_path target) w = (0, w') →
     ∃ t f0 f, ExifTool.tags_at INPUT_DIR exif_of w raw_path = Some t
               ∧ file_at w target = Some f0
               ∧ file_at w' target = Some f
               ∧ exif f = t ∪ exif f0).
Proof.
  split.
  - unfold ExifTool.run, PreprocessIA.transfer_cmd. simpl.
    destruct (ExifTool.tags_at _ _ w raw_path) as [t|] eqn:Ht; simpl; [|done].
    destruct (file_at w target) as [f0|] eqn:Hf0; [|done].
    intros [= <-]. eexists. split; [by apply file_at_rewrite_tags|].
    simpl. apply lookup_union_Some_l, lookup_insert_eq.
  - unfold ExifTool.run, Preprocess.inject_cmd. simpl.
    destruct (ExifTool.tags_at _ _ w raw_path) as [t|] eqn:Ht; simpl; [|done].
    destruct (file_at w target) as [f0|] eqn:Hf0; [|done].
    intros [= <-]. exists t, f0. eexists. split; [done|]. split; [done|].
    split; [by apply file_at_rewrite_tags|].
    simpl. by rewrite (right_id_L ∅ (∪)).
Qed.

Lemma orientation_after_transfer_witness :
  (∃ f, file_at
          (ExifTool.run "/p/data/raw" Demo.meta
             (PreprocessIA.transfer_cmd ("/p/data/raw", "a.jpg") (Demo.out_dir, "1000.jpg"))
             Worlds.rotated_sanitized).2
          (Demo.out_dir, "1000.jpg") = Some f
        ∧ exif f !! "Orientation" = Some "1")
  ∧ (∃ t f0 f,
        ExifTool.tags_at "/p/data/raw" Demo.meta Worlds.rotated_sanitized
          ("/p/data/raw", "a.jpg") = Some t
        ∧ file_at Worlds.rotated_sanitized (Demo.out_dir, "1000.jpg") = Some f0
        ∧ file_at
            (ExifTool.run "/p/data/raw" Demo.meta
               (Preprocess.inject_cmd ("/p/data/raw", "a.jpg") (Demo.out_dir, "1000.jpg"))
               Worlds.rotated_sanitized).2
            (Demo.out_dir, "1000.jpg") = Some f
        ∧ exif f = t ∪ exif f0).
Proof.
  split.
  - apply (proj1 (orientation_after_transfer "/p/data/raw" Demo.meta
                    Worlds.rotated_sanitized _ ("/p/data/raw", "a.jpg")
                    (Demo.out_dir, "1000.jpg"))).
    vm_compute. reflexivity.
  - apply (proj2 (orientation_after_transfer "/p/data/raw" Demo.meta
                    Worlds.rotated_sanitized _ ("/p/data/raw", "a.jpg")
                    (Demo.out_dir, "1000.jpg"))).
    vm_compute. reflexivity.
Defined.

(** C4: the claim fails in the classical engine, whose transfer command
    lacks [-Orientation=1].  For a photograph stored with orientation 6 the
    transfer succeeds (one file is counted) and the sanitized frame carries
    orientation 6, not 1.  The learned engine, whose command ends in
    [-n -Orientation=1], leaves orientation 1 on the same photograph. *)
Theorem classic_transfer_keeps_orientation :
  (file_at (Demo.classic_main Worlds.rotated) (Demo.out_dir, "1000.jpg")
     ≫= λ f, exif f !! "Orientation") = Some "6"
  ∧ (file_at (Demo.classic_main Worlds.rotated) (Demo.out_dir, "1000.jpg")
       ≫= λ f, exif f !! "Orientation") ≠ Some "1"
  ∧ (STDOUT, "[INFO] Metadatos restaurados en 1 imágenes.")
      ∈ log (Demo.classic_main Worlds.rotated)
  ∧ (file_at (Demo.learned_main Worlds.rotated) (Demo.out_dir, "1000.jpg")
       ≫= λ f, exif f !! "Orientation") = Some "1".
Proof.
  assert (Htag : (file_at (Demo.classic_main Worlds.rotated) (Demo.out_dir, "1000.jpg")
                    ≫= λ f, exif f !! "Orientation") = Some "6") by (by vm_compute).
  split; [done|]. split; [by rewrite Htag|]. split; [|by vm_compute].
  assert (Hlog : log (Demo.classic_main Worlds.rotated) !! 6%nat
                 = Some (STDOUT, "[INFO] Metadatos restaurados en 1 imágenes."))
    by (by vm_compute).
  by eapply list_elem_of_lookup_2.
Qed.

(** The learned engine, on the same photograph, leaves orientation 1. *)
Example learned_transfer_normalizes_orientation :
  (file_at (Demo.learned_main Worlds.rotated) (Demo.out_dir, "1000.jpg")
     ≫= λ f, exif f !! "Orientation") = Some "1".
Proof. by vm_compute. Qed.

(** ** Strings: frame names and the sort order *)

Arguments String.append : simpl nomatch.

Lemma string_length_app (s t : string) :
  String.length (s +:+ t) = (String.length s + String.length t)%nat.
Proof. induction s as [|c s IH]; simpl; [done|]. by rewrite IH. Qed.

Lemma string_app_empty_r (s : string) : s +:+ "" = s.
Proof. induction s as [|c s IH]; simpl; [done|]. by rewrite IH. Qed.

Lemma string_app_inj_r (s1 s2 t : string) : s1 +:+ t = s2 +:+ t → s1 = s2.
Proof.
  revert s2. induction s1 as [|a s1 IH]; intros [|b s2] Heq; simpl in *.
  - done.
  - apply (f_equal String.length) in Heq. simpl in Heq.
    rewrite string_length_app in Heq. lia.
  - apply (f_equal String.length) in Heq. simpl in Heq.
    rewrite string_length_app in Heq. lia.
  - injection Heq as -> Heq. f_equal. by apply IH.
Qed.

Lemma frame_name_inj (j k : Z) : frame_name j = frame_name k → j = k.
Proof.
  unfold frame_name, Py.str. intros Heq.
  apply string_app_inj_r, (inj pretty) in Heq. lia.
Qed.

Lemma frame_names_NoDup (ks : list Z) : NoDup ks → NoDup (frame_name <$> ks).
Proof. apply NoDup_fmap_2. intros j k. apply frame_name_inj. Qed.

Lemma str_lt_irrefl (a : string) : ¬ str_lt a a.
Proof.
  unfold str_lt. intros Hlt.
  pose proof (String.compare_antisym a a) as Hanti. rewrite Hlt in Hanti. done.
Qed.

Lemma str_lt_not_le (a b : string) : str_lt a b → String.le b a → False.
Proof.
  unfold str_lt, String.le, String.leb. intros Hlt Hle.
  rewrite String.compare_antisym, Hlt in Hle. done.
Qed.




Lemma sorted_strongly (l : list string) : StronglySorted String.le (Py.sorted l).
Proof. apply StronglySorted_merge_sort; apply _. Qed.

Lemma sorted_permutation (l : list string) : Py.sorted l ≡ₚ l.
Proof. apply merge_sort_Permutation. Qed.

(** ** Writing files *)

Section WorldFacts.
Context {raw : Type}.
Implicit Type w : world raw.

Lemma imwrite_refused w p img : encodes w p img = false → imwrite p img w = w.
Proof. intros He. unfold imwrite. by rewrite He. Qed.

Lemma imwrite_disk_same w d n img dir :
  disk w !! d = Some dir → encodes w (d, n) img = true →
  disk (imwrite (d, n) img w) !! d = Some (<[n := File img ∅]> dir).
Proof.
  intros Hd He. unfold imwrite. rewrite He. simpl. rewrite Hd. simpl.
  apply lookup_insert_eq.
Qed.

Lemma imwrite_disk_other w d d' n img :
  d ≠ d' → disk (imwrite (d, n) img w) !! d' = disk w !! d'.
Proof.
  intros Hne. unfold imwrite. destruct (encodes _ _ _); [|done]. simpl.
  destruct (disk w !! d); [|done]. simpl. by apply lookup_insert_ne.
Qed.

Lemma imwrite_raw_dir w p img : raw_dir (imwrite p img w) = raw_dir w.
Proof. unfold imwrite. destruct (encodes _ _ _); [|done]. by destruct (disk w !! p.1). Qed.

Lemma imwrite_log w p img : log (imwrite p img w) = log w.
Proof. unfold imwrite. destruct (encodes _ _ _); [|done]. by destruct (disk w !! p.1). Qed.

Lemma imwrite_jpeg_encodable w p img :
  jpeg_encodable (imwrite p img w) = jpeg_encodable w.
Proof. unfold imwrite. destruct (encodes _ _ _); [|done]. by destruct (disk w !! p.1). Qed.

Lemma imwrite_file_at_other w d n img p :
  p.1 ≠ d → file_at (imwrite (d, n) img w) p = file_at w p.
Proof. intros Hne. unfold file_at. by rewrite imwrite_disk_other. Qed.

Lemma imwrite_file_at_same w d n img dir :
  disk w !! d = Some dir → encodes w (d, n) img = true →
  file_at (imwrite (d, n) img w) (d, n) = Some (File img ∅).
Proof.
  intros Hd He. unfold file_at. simpl. rewrite (imwrite_disk_same _ _ _ _ dir Hd He).
  simpl. apply lookup_insert_eq.
Qed.

(** A [.png] path is always written; for a frame name the JPEG encoder
    decides. *)
Lemma endswith_same_length (s t suffix : string) :
  String.length t = String.length suffix →
  Py.endswith (s +:+ t) suffix = String.eqb t suffix.
Proof.
  intros Hlen. unfold Py.endswith.
  assert (Hl : String.length (s +:+ t) = (String.length s + String.length t)%nat).
  { induction s as [|c s IH]; [done|]. simpl. by rewrite IH. }
  rewrite Hl, bool_decide_eq_true_2 by lia. simpl.
  replace (String.length s + String.length t - String.length suffix)%nat
    with (String.length s) by lia.
  rewrite <- Hlen. f_equal. clear Hlen Hl.
  induction s as [|c s IH]; simpl; [|exact IH].
  induction t as [|c t IH]; [done|]. simpl. by rewrite IH.
Qed.

Lemma encodes_png w d (s : string) img : encodes w (d, s +:+ ".png") img = true.
Proof. unfold encodes. simpl. by rewrite endswith_same_length. Qed.

Lemma encodes_frame w d (k : Z) img :
  encodes w (d, frame_name k) img = jpeg_encodable w img.
Proof. unfold encodes, frame_name. simpl. by rewrite endswith_same_length. Qed.

Lemma recreate_disk_same w d : disk (recreate d w) !! d = Some ∅.
Proof. unfold recreate. simpl. apply lookup_insert_eq. Qed.

Lemma recreate_disk_other w d d' : d ≠ d' → disk (recreate d w) !! d' = disk w !! d'.
Proof. intros Hne. unfold recreate. simpl. by apply lookup_insert_ne. Qed.
End WorldFacts.

Lemma survivor_indices_length (ok : string → bool) files i :
  length (survivor_indices ok files i) = length (filter (λ f, ok f = true) files).
Proof.
  revert i. induction files as [|f files IH]; intros i; simpl; [done|].
  destruct (ok f) eqn:Hok; simpl.
  - rewrite filter_cons_True by done. simpl. by rewrite IH.
  - rewrite filter_cons_False by (by rewrite Hok). apply IH.
Qed.

Lemma survivor_indices_ge (ok : string → bool) files i k :
  k ∈ survivor_indices ok files i → i ≤ k.
Proof.
  revert i. induction files as [|f files IH]; intros i; simpl; [by intros ?%elem_of_nil|].
  destruct (ok f).
  - intros [->|Hk]%elem_of_cons; [lia|]. apply IH in Hk. lia.
  - intros Hk. apply IH in Hk. lia.
Qed.

Lemma survivor_indices_NoDup (ok : string → bool) files i :
  NoDup (survivor_indices ok files i).
Proof.
  revert i. induction files as [|f files IH]; intros i; simpl; [constructor|].
  destruct (ok f); [|apply IH].
  constructor; [|apply IH]. intros Hin%survivor_indices_ge. lia.
Qed.

(** With every file kept, the indices are consecutive. *)
Lemma survivor_indices_all (ok : string → bool) files i :
  Forall (λ f, ok f = true) files →
  survivor_indices ok files i = seqZ i (Z.of_nat (length files)).
Proof.
  revert i. induction files as [|f files IH]; intros i Hall; simpl; [done|].
  apply Forall_cons in Hall as [-> Hall]. rewrite IH by done.
  rewrite (seqZ_cons i) by lia. f_equal. f_equal; lia.
Qed.

(** ** The loop of the learned engine *)

Section LearnedLoop.
Context {raw session encoded : Type}.
Variable PROJECT_DIR : string.
Variable remove : raw → session → string + encoded.
Variable imdecode : encoded → option (list bgra).
Variable session_ : session.
Variable rd : gmap string raw.

Local Abbreviation OUT := (PreprocessIA.OUTPUT_DIR PROJECT_DIR).
Local Abbreviation ok := (survives remove imdecode session_ rd).
Local Abbreviation loop :=
  (PreprocessIA.sanitize_loop PROJECT_DIR remove imdecode session_).
Local Abbreviation try_ := (PreprocessIA.try_decode remove imdecode session_ rd).

Lemma learned_loop_raw_dir files i mp (w : world raw) :
  raw_dir (loop files i mp w).2 = raw_dir w.
Proof.
  revert i mp w. induction files as [|f files IH]; intros i mp w; simpl; [done|].
  destruct (PreprocessIA.try_decode _ _ _ _ _) as [e|[img|]];
    rewrite IH; [done| |done].
  apply imwrite_raw_dir.
Qed.

Lemma learned_loop_jpeg_encodable files i mp (w : world raw) :
  jpeg_encodable (loop files i mp w).2 = jpeg_encodable w.
Proof.
  revert i mp w. induction files as [|f files IH]; intros i mp w; simpl; [done|].
  destruct (PreprocessIA.try_decode _ _ _ _ _) as [e|[img|]];
    rewrite IH; [done| |done].
  apply imwrite_jpeg_encodable.
Qed.

(** The directory gains exactly the frames of the files that yield a
    cut-out the encoder takes, each at the index of its file. *)
Lemma learned_loop_dir files i mp (w : world raw) dir :
  raw_dir w = rd → disk w !! OUT = Some dir →
  ∃ dir', disk (loop files i mp w).2 !! OUT = Some dir'
          ∧ dom dir' = dom dir
                       ∪ list_to_set (frame_name <$>
                           survivor_indices
                             (frame_written remove imdecode session_ rd
                                (jpeg_encodable w)) files i).
Proof.
  revert i mp w dir. induction files as [|f files IH]; intros i mp w dir Hrd Hdir; simpl.
  { exists dir. split; [done|]. set_solver. }
  unfold frame_written at 1. rewrite Hrd.
  destruct (PreprocessIA.try_decode _ _ _ _ _) as [e|[img|]] eqn:Htry.
  - by apply (IH (i + 1) mp (emit ERROR _ w) dir).
  - change (Py.str (PreprocessIA.start_index + i) +:+ ".jpg") with (frame_name i).
    destruct (jpeg_encodable w (PreprocessIA.render img)) eqn:Henc.
    + edestruct (IH (i + 1) (<[Py.stem f := (OUT, frame_name i)]> mp)
                    (imwrite (OUT, frame_name i) (PreprocessIA.render img) w))
        as (dir' & Hdir' & Hdom).
      { by rewrite imwrite_raw_dir. }
      { apply imwrite_disk_same; [done|]. by rewrite encodes_frame. }
      exists dir'. split; [exact Hdir'|].
      rewrite Hdom, dom_insert_L, imwrite_jpeg_encodable. simpl. set_solver.
    + rewrite imwrite_refused by (by rewrite encodes_frame).
      by apply (IH (i + 1) _ w dir).
  - by apply (IH (i + 1) mp (emit WARNING _ w) dir).
Qed.

(** Every entry of the mapping is an old one or names the frame of a
    surviving file, at the index of that file. *)
Lemma learned_loop_mapping files i mp (w : world raw) A p :
  raw_dir w = rd →
  (loop files i mp w).1 !! A = Some p →
  mp !! A = Some p
  ∨ ∃ (k : nat) f, files !! k = Some f ∧ ok f = true ∧ Py.stem f = A
                   ∧ p = (OUT, frame_name (i + Z.of_nat k)).
Proof.
  revert i mp w. induction files as [|f files IH]; intros i mp w Hrd; simpl.
  { by left. }
  assert (Hshift : ∀ mp' (w' : world raw),
    raw_dir w' = rd → (loop files (i + 1) mp' w').1 !! A = Some p →
    mp' !! A = Some p
    ∨ ∃ (k : nat) f', (f :: files) !! k = Some f' ∧ ok f' = true ∧ Py.stem f' = A
                      ∧ p = (OUT, frame_name (i + Z.of_nat k))).
  { intros mp' w' Hrd' Hres. apply IH in Hres; [|done].
    destruct Hres as [Hold|(k & f' & Hk & Hok & Hst & ->)]; [by left|].
    right. exists (S k), f'. split; [done|]. split; [done|]. split; [done|].
    do 2 f_equal. lia. }
  rewrite Hrd.
  destruct (PreprocessIA.try_decode _ _ _ _ _) as [e|[img|]] eqn:Htry; intros Hres.
  - by apply Hshift in Hres.
  - apply Hshift in Hres; [|by rewrite imwrite_raw_dir].
    destruct Hres as [Hnew|?]; [|by right].
    destruct (decide (Py.stem f = A)) as [<-|Hne].
    + rewrite lookup_insert_eq in Hnew. injection Hnew as <-.
      right. exists 0%nat, f. split; [done|]. split.
      { unfold survives. by rewrite Htry. }
      split; [done|]. by replace (i + Z.of_nat 0) with i by lia.
    + rewrite lookup_insert_ne in Hnew by done. by left.
  - by apply Hshift in Hres.
Qed.

(** The keys of the mapping are the old ones and the base names of the
    surviving files. *)
Lemma learned_loop_keys files i mp (w : world raw) :
  raw_dir w = rd →
  dom (loop files i mp w).1
  = dom mp ∪ list_to_set (Py.stem <$> filter (λ f, ok f = true) files).
Proof.
  revert i mp w. induction files as [|f files IH]; intros i mp w Hrd; simpl.
  { set_solver. }
  rewrite Hrd.
  destruct (PreprocessIA.try_decode _ _ _ _ _) as [e|[img|]] eqn:Htry.
  - rewrite filter_cons_False; [by apply IH|].
    unfold survives. by rewrite Htry.
  - rewrite filter_cons_True.
    2:{ unfold survives. by rewrite Htry. }
    rewrite IH by (by rewrite imwrite_raw_dir). rewrite dom_insert_L. set_solver.
  - rewrite filter_cons_False; [by apply IH|].
    unfold survives. by rewrite Htry.
Qed.

(** The log only grows, and every skipped file is named in it. *)
Lemma learned_loop_log_mono files i mp (w : world raw) entry :
  entry ∈ log w → entry ∈ log (loop files i mp w).2.
Proof.
  revert i mp w. induction files as [|f files IH]; intros i mp w Hin; simpl; [done|].
  destruct (PreprocessIA.try_decode _ _ _ _ _) as [e|[img|]]; apply IH.
  - simpl. set_solver.
  - by rewrite imwrite_log.
  - simpl. set_solver.
Qed.

Lemma learned_loop_log files i mp (w : world raw) f :
  raw_dir w = rd → f ∈ files →
  match try_ f with
  | inl e => (ERROR, "Error procesando " +:+ f +:+ ": " +:+ e)
               ∈ log (loop files i mp w).2
  | inr None => (WARNING, "Decodificación fallida para " +:+ f)
                  ∈ log (loop files i mp w).2
  | inr (Some _) => True
  end.
Proof.
  revert i mp w. induction files as [|f' files IH]; intros i mp w Hrd Hin.
  { by apply elem_of_nil in Hin. }
  apply elem_of_cons in Hin as [->|Hin].
  - simpl. rewrite Hrd.
    destruct (PreprocessIA.try_decode _ _ _ _ _) as [e|[img|]]; [|done|].
    + apply learned_loop_log_mono. simpl. set_solver.
    + apply learned_loop_log_mono. simpl. set_solver.
  - simpl. destruct (PreprocessIA.try_decode _ _ _ (raw_dir w) f') as [e|[img|]].
    + by apply IH.
    + apply IH; [by rewrite imwrite_raw_dir|done].
    + by apply IH.
Qed.
End LearnedLoop.

(** ** The loops of the classical engine *)

Lemma imwrite_file_at_mono {raw} (w : world raw) (q p : path) img :
  is_Some (file_at w p) → is_Some (file_at (imwrite q img w) p).
Proof.
  destruct q as [d n]. intros [f Hf].
  destruct (encodes w (d, n) img) eqn:He; [|rewrite imwrite_refused by done; by eexists].
  destruct (decide (p.1 = d)) as [Hd|Hd]; [|by rewrite imwrite_file_at_other].
  unfold file_at in *. destruct (disk w !! p.1) as [dir|] eqn:Hdir; [|done].
  simpl in Hf. rewrite Hd in Hdir.
  rewrite Hd, (imwrite_disk_same _ _ _ _ dir Hdir He). simpl.
  destruct (decide (n = p.2)) as [->|Hn].
  - rewrite lookup_insert_eq. by eexists.
  - rewrite lookup_insert_ne by done. by eexists.
Qed.

Section ClassicLoops.
Context {raw photo : Type}.
Variable PROJECT_DIR : string.
Variable imread : raw → option photo.
Variable final_mask : photo → list Z.
Variable apply_clahe : photo → list (bgr Z).
Variable rd : gmap string raw.

Local Abbreviation TEMP := (Preprocess.PROCESSED_TEMP_DIR PROJECT_DIR).
Local Abbreviation OUT := (Preprocess.OUTPUT_FINAL_DIR PROJECT_DIR).
Local Abbreviation loop1 :=
  (Preprocess.stage_1_loop PROJECT_DIR imread final_mask apply_clahe).
Local Abbreviation loop2 := (Preprocess.stage_2_loop PROJECT_DIR).
Local Abbreviation decodes := (λ f : string, is_Some (rd !! f ≫= imread)).
Local Abbreviation base := (λ f : string, (Py.splitext f).1).

Lemma temp_out_differ : TEMP ≠ OUT.
Proof.
  unfold Preprocess.PROCESSED_TEMP_DIR, Preprocess.OUTPUT_FINAL_DIR, Py.join.
  intros Heq. apply (inj (String.append PROJECT_DIR)) in Heq.
  apply (inj (String.append (Py.sep_after PROJECT_DIR))) in Heq. done.
Qed.

Lemma stage_1_loop_raw_dir files T (w : world raw) :
  raw_dir (loop1 files T w).2 = raw_dir w.
Proof.
  revert T w. induction files as [|f files IH]; intros T w; simpl; [done|].
  destruct (raw_dir w !! f ≫= imread); rewrite IH; [|done].
  apply imwrite_raw_dir.
Qed.

(** The keys of the temporary map are the base names of the decodable
    files. *)
Lemma stage_1_loop_keys files T (w : world raw) :
  raw_dir w = rd →
  dom (loop1 files T w).1
  = dom T ∪ list_to_set (base <$> filter decodes files).
Proof.
  revert T w. induction files as [|f files IH]; intros T w Hrd; simpl.
  { set_solver. }
  rewrite Hrd. destruct (rd !! f ≫= imread) as [img|] eqn:Hread.
  - rewrite filter_cons_True by (rewrite Hread; by eexists).
    rewrite IH by (by rewrite imwrite_raw_dir). rewrite dom_insert_L. set_solver.
  - rewrite filter_cons_False by (rewrite Hread; by intros [? ?]).
    by apply IH.
Qed.

(** Every entry of the temporary map names an existing file of the
    temporary directory. *)
Lemma stage_1_loop_files files T (w : world raw) dir :
  disk w !! TEMP = Some dir →
  (∀ s p, T !! s = Some p → p.1 = TEMP ∧ is_Some (file_at w p)) →
  ∀ s p, (loop1 files T w).1 !! s = Some p →
         p.1 = TEMP ∧ is_Some (file_at (loop1 files T w).2 p).
Proof.
  revert T w dir. induction files as [|f files IH]; intros T w dir Hdir Hgood; simpl.
  { done. }
  destruct (raw_dir w !! f ≫= imread) as [img|]; [|by eapply IH].
  eapply IH.
  - apply imwrite_disk_same; [done|apply encodes_png].
  - intros s p. destruct (decide (base f = s)) as [<-|Hne].
    + rewrite lookup_insert_eq. intros [= <-]. split; [done|].
      erewrite imwrite_file_at_same; [by eexists|done|apply encodes_png].
    + rewrite lookup_insert_ne by done. intros Hs.
      destruct (Hgood s p Hs) as [Hp1 Hp2]. split; [done|].
      by apply imwrite_file_at_mono.
Qed.

Section Stage2.
Variable temp_map : gmap string path.

Lemma stage_2_loop_jpeg_encodable names fm c (w : world raw) :
  jpeg_encodable (loop2 temp_map names fm c w).2 = jpeg_encodable w.
Proof.
  revert fm c w. induction names as [|x names IH]; intros fm c w; simpl; [done|].
  destruct (temp_map !! x ≫= _); rewrite IH; [|done]. apply imwrite_jpeg_encodable.
Qed.

(** Indices are handed out consecutively from [count], one for every
    temporary image that can be read back, and follow the order of the
    names.  The frame of an index is on the disk when the encoder took it:
    the output directory gains frames of these indices only, and all of them
    when the encoder refuses nothing. *)
Lemma stage_2_loop_inv names fm c (w : world raw) dir :
  disk w !! OUT = Some dir →
  StronglySorted String.le names →
  (∀ A x, A ∈ dom fm → x ∈ names → String.le A x) →
  (∀ A p, fm !! A = Some p → ∃ k, 0 ≤ k < c ∧ p = (OUT, frame_name k)) →
  (∀ A B pA pB, fm !! A = Some pA → fm !! B = Some pB → str_lt A B →
     ∃ i j, pA = (OUT, frame_name i) ∧ pB = (OUT, frame_name j) ∧ 0 ≤ i < j) →
  0 ≤ c →
  let res := loop2 temp_map names fm c w in
  ∃ n dir', 0 ≤ n
    ∧ disk res.2 !! OUT = Some dir'
    ∧ dom dir' ⊆ dom dir ∪ list_to_set (frame_name <$> seqZ c n)
    ∧ ((∀ img, jpeg_encodable w img = true) →
       dom dir' = dom dir ∪ list_to_set (frame_name <$> seqZ c n))
    ∧ (∀ A p, res.1 !! A = Some p → ∃ k, 0 ≤ k < c + n ∧ p = (OUT, frame_name k))
    ∧ (∀ A B pA pB, res.1 !! A = Some pA → res.1 !! B = Some pB → str_lt A B →
         ∃ i j, pA = (OUT, frame_name i) ∧ pB = (OUT, frame_name j) ∧ 0 ≤ i < j).
Proof.
  revert fm c w dir.
  induction names as [|x names IH]; intros fm c w dir Hdir Hsorted Hbelow Hinv Hord Hc; simpl.
  { exists 0, dir. split; [done|]. split; [done|]. split; [set_solver|].
    split; [intros _; set_solver|].
    split; [|done]. intros A p HA. destruct (Hinv A p HA) as (k & ? & ?).
    exists k. split; [lia|done]. }
  apply StronglySorted_inv in Hsorted as [Hsorted Hx].
  destruct (temp_map !! x ≫= _) as [img|].
  2:{ apply (IH fm c w dir); try done.
      intros A y HA Hy. apply Hbelow; [done|]. by apply elem_of_cons; right. }
  change (Py.str (Preprocess.start_index + c) +:+ ".jpg") with (frame_name c).
  set (w1 := imwrite (OUT, frame_name c) (Preprocess.flatten img) w).
  assert (Hdir1 : ∃ dir1, disk w1 !! OUT = Some dir1
            ∧ dom dir1 ⊆ {[frame_name c]} ∪ dom dir
            ∧ ((∀ img, jpeg_encodable w img = true) →
               dom dir1 = {[frame_name c]} ∪ dom dir)).
  { unfold w1. destruct (encodes w (OUT, frame_name c) (Preprocess.flatten img)) eqn:He.
    - eexists. split; [by apply imwrite_disk_same|].
      rewrite dom_insert_L. split; [done|]. done.
    - rewrite imwrite_refused by done. exists dir. split; [done|].
      split; [set_solver|]. intros Hall. rewrite encodes_frame, Hall in He. done. }
  destruct Hdir1 as (dir1 & Hdir1 & Hsub1 & Heq1).
  edestruct (IH (<[x := (OUT, frame_name c)]> fm) (c + 1) w1)
    as (n & dir' & Hn & Hdir' & Hdom & Hdomeq & Hinv' & Hord').
  - exact Hdir1.
  - done.
  - intros A y HA Hy. rewrite dom_insert_L in HA.
    apply elem_of_union in HA as [->%elem_of_singleton|HA].
    + rewrite Forall_forall in Hx. by apply Hx.
    + apply Hbelow; [done|]. by apply elem_of_cons; right.
  - intros A p. destruct (decide (x = A)) as [<-|Hne].
    + rewrite lookup_insert_eq. intros [= <-]. exists c. split; [lia|done].
    + rewrite lookup_insert_ne by done. intros HA.
      destruct (Hinv A p HA) as (k & ? & ?). exists k. split; [lia|done].
  - intros A B pA pB HA HB Hlt.
    destruct (decide (x = A)) as [<-|HneA]; destruct (decide (x = B)) as [<-|HneB].
    + by apply str_lt_irrefl in Hlt.
    + rewrite lookup_insert_ne in HB by done.
      exfalso. apply (str_lt_not_le _ _ Hlt).
      apply Hbelow; [by apply elem_of_dom; eexists|by apply elem_of_cons; left].
    + rewrite lookup_insert_eq in HB. injection HB as <-.
      rewrite lookup_insert_ne in HA by done.
      destruct (Hinv A pA HA) as (k & ? & ->). exists k, c. split; [done|].
      split; [done|lia].
    + rewrite lookup_insert_ne in HA, HB by done. by eapply Hord.
  - lia.
  - assert (Hseq : (list_to_set (frame_name <$> seqZ c (n + 1)) : gset string)
                   = {[frame_name c]} ∪ list_to_set (frame_name <$> seqZ (c + 1) n)).
    { rewrite (seqZ_cons c (n + 1)) by lia.
      replace (Z.succ c) with (c + 1) by lia.
      replace (Z.pred (n + 1)) with n by lia. set_solver. }
    exists (n + 1), dir'. split; [lia|]. split; [exact Hdir'|]. split.
    { rewrite Hseq. etrans; [exact Hdom|]. clear -Hsub1. set_solver. }
    split.
    { intros Hall. rewrite Hseq, Hdomeq, Heq1; [clear; set_solver|done|].
      intros img'. unfold w1. rewrite imwrite_jpeg_encodable. apply Hall. }
    split; [|exact Hord'].
    intros A p HA. destruct (Hinv' A p HA) as (k & ? & ?).
    exists k. split; [lia|done].
Qed.
End Stage2.
End ClassicLoops.

(** ** Ordering of the output indices *)




(** ** Lists, frames and directories *)

Lemma filter_all {A} (P : A → Prop) `{∀ x, Decision (P x)} (l : list A) :
  Forall P l → filter P l = l.
Proof.
  induction 1 as [|x l Hx Hl IH]; [done|].
  rewrite filter_cons_True by done. by rewrite IH.
Qed.

Lemma recreate_file_at_other {raw} (w : world raw) d p :
  p.1 ≠ d → file_at (recreate d w) p = file_at w p.
Proof. intros Hne. unfold file_at. by rewrite recreate_disk_other. Qed.

Lemma size_frames (dir : gmap string file) (ks : list Z) :
  NoDup ks → dom dir = list_to_set (frame_name <$> ks) → size dir = length ks.
Proof.
  intros Hnd Hdom. rewrite <- size_dom, Hdom.
  rewrite size_list_to_set by by apply frame_names_NoDup. by rewrite length_fmap.
Qed.

Lemma sorted_elements_length (X : gset string) :
  length (Py.sorted (elements X)) = size X.
Proof. by rewrite sorted_permutation. Qed.

Lemma elem_of_sorted_elements (X : gset string) (x : string) :
  x ∈ Py.sorted (elements X) ↔ x ∈ X.
Proof. by rewrite sorted_permutation, elem_of_elements. Qed.

(** The loops of the classical engine print nothing. *)
Lemma stage_1_loop_log {raw photo : Type} (PROJECT_DIR : string)
    (imread : raw → option photo) (final_mask : photo → list Z)
    (apply_clahe : photo → list (bgr Z)) files T (w : world raw) :
  log (Preprocess.stage_1_loop PROJECT_DIR imread final_mask apply_clahe files T w).2
  = log w.
Proof.
  revert T w. induction files as [|f files IH]; intros T w; simpl; [done|].
  destruct (raw_dir w !! f ≫= imread); rewrite IH; [|done]. apply imwrite_log.
Qed.

Lemma stage_2_loop_log {raw : Type} (PROJECT_DIR : string) temp_map names fm c
    (w : world raw) :
  log (Preprocess.stage_2_loop PROJECT_DIR temp_map names fm c w).2 = log w.
Proof.
  revert fm c w. induction names as [|x names IH]; intros fm c w; simpl; [done|].
  destruct (temp_map !! x ≫= _); rewrite IH; [|done]. apply imwrite_log.
Qed.
(** ** Skipped files *)

(** C2: the classical engine skips an unreadable file without a word.  With
    an unreadable [bad.jpg] next to a readable [ok.jpg] the run goes on and
    writes the one frame [1000.jpg], and the mapping has no entry for [bad],
    but no line of the output mentions the skipped file.  The learned
    engine, on the same input, logs a line that names [bad.jpg]. *)
Theorem classic_skip_is_silent :
  Demo.names_in Demo.out_dir (Demo.classic_main Worlds.one_corrupt) = ["1000.jpg"]
  ∧ (Demo.classic_stages Worlds.one_corrupt).1 !! "bad" = None
  ∧ existsb (λ entry, contains entry.2 "bad") (log (Demo.classic_main Worlds.one_corrupt))
    = false
  ∧ existsb (λ entry, contains entry.2 "bad.jpg")
      (log (Demo.learned_sanitize Worlds.one_corrupt).2)
    = true.
Proof. repeat split; by vm_compute. Qed.

(** ** Contiguity of the frame names *)

(** The classical engine numbers its frames with a counter that advances
    only when a temporary image was read back: whatever the temporary map
    and the state of the disk, and as long as the encoder refuses no frame,
    the output directory ends up holding exactly [1000.jpg .. (999+n).jpg]
    for some [n]. *)
Lemma classic_frames_contiguous {raw : Type} (PROJECT_DIR : string)
    (temp_map : gmap string path) (w : world raw) :
  (∀ img, jpeg_encodable w img = true) →
  ∃ n dir',
    0 ≤ n
    ∧ disk (Preprocess.stage_2_sanitization PROJECT_DIR temp_map w).2
        !! Preprocess.OUTPUT_FINAL_DIR PROJECT_DIR = Some dir'
    ∧ dom dir' = list_to_set (frame_name <$> seqZ 0 n)
    ∧ size dir' = Z.to_nat n.
Proof.
  intros Hall. unfold Preprocess.stage_2_sanitization.
  edestruct (stage_2_loop_inv (raw := raw) PROJECT_DIR temp_map
               (Py.sorted (elements (dom temp_map))) ∅ 0)
    as (n & dir' & Hn & Hdir' & _ & Hdom & _ & _).
  - apply recreate_disk_same.
  - apply sorted_strongly.
  - intros ? ? Hin. by rewrite dom_empty_L in Hin.
  - intros ? ? Hin. by rewrite lookup_empty in Hin.
  - intros ? ? ? ? Hin. by rewrite lookup_empty in Hin.
  - done.
  - exists n, dir'. split; [done|]. split; [exact Hdir'|].
    specialize (Hdom Hall). rewrite dom_empty_L, (left_id_L ∅ (∪)) in Hdom.
    split; [done|].
    rewrite (size_frames dir' (seqZ 0 n)); [|apply NoDup_seqZ|done].
    apply length_seqZ.
Qed.

(** The learned engine does the same as long as no file is skipped and no
    frame refused. *)
Lemma learned_frames_contiguous_when_all_valid
    {raw session encoded : Type} (PROJECT_DIR : string)
    (new_session : string → string + session)
    (remove : raw → session → string + encoded)
    (imdecode : encoded → option (list bgra))
    (w : world raw) (session_ : session) (files : list string) :
  new_session "u2net" = inr session_ →
  Py.sorted (ext ← PreprocessIA.extensions; Py.path_glob ext (listdir w)) = files →
  files ≠ [] →
  Forall (λ f, frame_written remove imdecode session_ (raw_dir w)
                 (jpeg_encodable w) f = true) files →
  ∃ dir',
    disk (PreprocessIA.sanitize_images PROJECT_DIR new_session remove imdecode w).2
      !! PreprocessIA.OUTPUT_DIR PROJECT_DIR = Some dir'
    ∧ dom dir' = list_to_set (frame_name <$> seqZ 0 (Z.of_nat (length files))).
Proof.
  intros Hsession Hsorted Hne Hall.
  unfold PreprocessIA.sanitize_images.
  change (listdir (recreate _ w)) with (listdir w).
  destruct (decide (_ = [])) as [Hnil|_].
  { rewrite Hnil in Hsorted. by subst files. }
  rewrite Hsorted, Hsession.
  match goal with
  | |- context [PreprocessIA.sanitize_loop _ _ _ _ _ _ _ ?w0] =>
      destruct (learned_loop_dir PROJECT_DIR remove imdecode session_ (raw_dir w)
                  files 0 ∅ w0 ∅) as (dir' & Hdir' & Hdom)
  end.
  - reflexivity.
  - apply recreate_disk_same.
  - exists dir'. split; [exact Hdir'|].
    rewrite Hdom, dom_empty_L, (left_id_L ∅ (∪)).
    by rewrite survivor_indices_all.
Qed.

(** C1: the claim fails in the learned engine, which numbers a frame by the
    position of its file among the discovered files.  With an unreadable
    [bad.jpg] sorted before a readable [ok.jpg], the only frame written is
    [1001.jpg]: there is no [1000.jpg].  The classical engine, on the same
    input, writes [1000.jpg]. *)
Theorem learned_engine_leaves_gap :
  Demo.names_in Demo.out_dir (Demo.learned_sanitize Worlds.one_corrupt).2
  = [frame_name 1]
  ∧ (Demo.learned_sanitize Worlds.one_corrupt).1 !! "ok"
    = Some (Demo.out_dir, "1001.jpg")
  ∧ file_at (Demo.learned_sanitize Worlds.one_corrupt).2 (Demo.out_dir, frame_name 0)
    = None
  ∧ Demo.names_in Demo.out_dir (Demo.classic_stages Worlds.one_corrupt).2
    = [frame_name 0].
Proof. repeat split; by vm_compute. Qed.

(* ===================================================================== *)
(** * The orchestrator beyond its precondition *)
(* ===================================================================== *)

Section OrchestratorFacts.
Variable PROJECT_DIR : string.
Variable binary :
  list string → option (list string) → gset string → option (Z * gset string).

Local Abbreviation node := (Pipeline.run_alicevision_node binary).

Ltac run_M :=
  unfold mbind, Pipeline.M_bind, Pipeline.print, Pipeline.get, mret,
    Pipeline.M_ret, Pipeline.sys_exit, Pipeline.set_recon,
    Pipeline.record_call; simpl.

(** One node, as an equation on the machine. *)
Lemma run_alicevision_node_eq (cmd : list string) (step : string)
    (m : Pipeline.machine) :
  let argv :=
    if decide ("--verboseLevel" ∈ cmd) then cmd
    else cmd ++ ["--verboseLevel"; "error"] in
  node cmd step m
  = match binary argv (Pipeline.sanitized m) (default ∅ (Pipeline.recon m)) with
    | Some (returncode, tree) =>
        if decide (returncode = 0) then
          (Pipeline.Done (),
           Pipeline.Machine (Pipeline.ALICEVISION_BIN m) (Pipeline.SENSOR_DB m)
             (Pipeline.sanitized m) (Some tree)
             (Pipeline.stdout m
                ++ ["
[Ejecución] Nodo: " +:+ step; "[Estado] " +:+ step +:+ ": Completado."])
             (Pipeline.invoked m ++ [argv]))
        else
          (Pipeline.Exit 1,
           Pipeline.Machine (Pipeline.ALICEVISION_BIN m) (Pipeline.SENSOR_DB m)
             (Pipeline.sanitized m) (Some tree)
             (Pipeline.stdout m
                ++ ["
[Ejecución] Nodo: " +:+ step; "
[ERROR FATAL] Fallo en el nodo: " +:+ step;
                    "Comando: " +:+ String.concat " " argv])
             (Pipeline.invoked m ++ [argv]))
    | None =>
        (Pipeline.Raised "FileNotFoundError",
         Pipeline.Machine (Pipeline.ALICEVISION_BIN m) (Pipeline.SENSOR_DB m)
           (Pipeline.sanitized m) (Pipeline.recon m)
           (Pipeline.stdout m ++ ["
[Ejecución] Nodo: " +:+ step])
           (Pipeline.invoked m ++ [argv]))
    end.
Proof.
  intros argv. unfold Pipeline.run_alicevision_node, Pipeline.subprocess_run.
  fold argv. run_M.
  destruct (binary argv _ _) as [[rc tree]|]; simpl; [|reflexivity].
  destruct (decide (rc = 0)); simpl; rewrite <- !app_assoc; reflexivity.
Qed.

Lemma follows_app_done (san : option (list string)) (p1 p2 : list stage_step)
    (t t1 t2 : gset string) (calls1 calls2 : list (list string))
    (ending : Pipeline.outcome unit) :
  follows binary san p1 t calls1 (Pipeline.Done ()) t1 →
  follows binary san p2 t1 calls2 ending t2 →
  follows binary san (p1 ++ p2) t (calls1 ++ calls2) ending t2.
Proof.
  revert t calls1. induction p1 as [|[exe|name] p1 IH]; intros t calls1 H1 H2; simpl in *.
  - by destruct H1 as (-> & _ & ->).
  - destruct H1 as (argv & calls' & -> & Hh & Hq & H1).
    exists argv, (calls' ++ calls2). split_and!; [done..|].
    destruct (binary argv san t) as [[rc tree]|]; [|by destruct H1 as (_ & ? & _)].
    destruct (decide (rc = 0)); [by apply IH|by destruct H1 as (_ & ? & _)].
  - by apply IH.
Qed.

Lemma follows_app_stop (san : option (list string)) (p1 p2 : list stage_step)
    (t t1 : gset string) (calls : list (list string))
    (ending : Pipeline.outcome unit) :
  follows binary san p1 t calls ending t1 →
  ending ≠ Pipeline.Done () →
  follows binary san (p1 ++ p2) t calls ending t1.
Proof.
  revert t calls. induction p1 as [|[exe|name] p1 IH]; intros t calls H1 Hne; simpl in *.
  - by destruct H1 as (_ & ? & _).
  - destruct H1 as (argv & calls' & -> & Hh & Hq & H1).
    exists argv, calls'. split_and!; [done..|].
    destruct (binary argv san t) as [[rc tree]|]; [|done].
    destruct (decide (rc = 0)); [by apply IH|done].
  - by apply IH.
Qed.



Lemma node_nodes_run (exe : string) (args : list string) (step : string)
    (m : Pipeline.machine) :
  nodes_run binary [Run exe] m (node (exe :: args) step m).
Proof.
  pose proof (run_alicevision_node_eq (exe :: args) step m) as E.
  cbv zeta in E. rewrite E. clear E.
  set (argv := if decide (_ ∈ _) then exe :: args else _).
  assert (Hq : "--verboseLevel" ∈ argv).
  { subst argv. destruct (decide _); [done|]. set_solver. }
  assert (Hh : head argv = Some exe).
  { subst argv. by destruct (decide _). }
  destruct (binary argv _ _) as [[rc tree]|] eqn:Hb.
  - destruct (decide (rc = 0)) as [H0|H0]; unfold nodes_run; cbn [fst snd];
      simpl Pipeline.ALICEVISION_BIN; simpl Pipeline.SENSOR_DB;
      simpl Pipeline.sanitized; simpl Pipeline.recon; simpl Pipeline.invoked;
      (split_and!; [done|done|done|by eexists|]);
      exists [argv]; (split_and!; [done| |]).
    + simpl. exists argv, []. rewrite Hb. by destruct (decide (rc = 0)).
    + done.
    + simpl. exists argv, []. rewrite Hb. by destruct (decide (rc = 0)).
    + unfold last_words. simpl. exists argv. split; [done|]. by rewrite last_app.
  - unfold nodes_run; cbn [fst snd];
      simpl Pipeline.ALICEVISION_BIN; simpl Pipeline.SENSOR_DB;
      simpl Pipeline.sanitized; simpl Pipeline.recon; simpl Pipeline.invoked.
    split_and!; [done..|].
    exists [argv]. split_and!; [done| |].
    + simpl. exists argv, []. by rewrite Hb.
    + unfold last_words. simpl. exists step. by rewrite last_app.
Qed.

Lemma nodes_run_seq (e e1 e2 : list stage_step) (c k : Pipeline.M unit)
    (m : Pipeline.machine) :
  e = e1 ++ e2 →
  nodes_run binary e1 m (c m) →
  (∀ m1, nodes_run binary e2 m1 (k m1)) →
  nodes_run binary e m ((c ;; k) m).
Proof.
  intros -> H1 H2. unfold mbind, Pipeline.M_bind.
  destruct (c m) as [[[]|code|exc] m1] eqn:Hc.
  - destruct H1 as (Hb & Hd & Hs & Hr & calls1 & Hi & Hf & _). cbn [fst snd] in *.
    specialize (H2 m1). destruct (k m1) as [o2 m2].
    destruct H2 as (Hb2 & Hd2 & Hs2 & Hr2 & calls2 & Hi2 & Hf2 & Hw2). cbn [fst snd] in *.
    unfold nodes_run. cbn [fst snd]. split_and!; [congruence..|tauto|].
    exists (calls1 ++ calls2). split_and!.
    + rewrite Hi2, Hi, app_assoc. done.
    + rewrite Hs in Hf2. by eapply follows_app_done.
    + unfold last_words in *. cbn [fst snd] in *. destruct o2 as [[]|code|exc]; [done| |done].
      destruct Hw2 as (argv & Hl & Hout). exists argv. split; [|done].
      destruct calls2 as [|a calls2]; [done|]. rewrite last_app. by rewrite Hl.
  - destruct H1 as (Hb & Hd & Hs & Hr & calls1 & Hi & Hf & Hw). cbn [fst snd] in *.
    unfold nodes_run. cbn [fst snd]. split_and!; [done..|].
    exists calls1. split_and!; [done| |done]. by apply follows_app_stop.
  - destruct H1 as (Hb & Hd & Hs & Hr & calls1 & Hi & Hf & Hw). cbn [fst snd] in *.
    unfold nodes_run. cbn [fst snd]. split_and!; [done..|].
    exists calls1. split_and!; [done| |done]. by apply follows_app_stop.
Qed.

Lemma makedirs_nodes_run (name : string) (m : Pipeline.machine) :
  nodes_run binary [Mk name] m (Pipeline.makedirs_in_root name m).
Proof.
  unfold nodes_run. simpl. split_and!; [done..|by eexists|].
  exists []. simpl. by rewrite app_nil_r.
Qed.

Lemma print_nodes_run (line : string) (m : Pipeline.machine) :
  nodes_run binary [] m (Pipeline.print line m).
Proof.
  unfold nodes_run. simpl. split_and!; [done..|].
  exists []. simpl. by rewrite app_nil_r.
Qed.

Lemma M_bind_eq {A B} (c : Pipeline.M A) (k : A → Pipeline.M B)
    (m : Pipeline.machine) :
  (c ≫= k) m
  = match c m with
    | (Pipeline.Done a, m') => k a m'
    | (Pipeline.Exit code, m') => (Pipeline.Exit code, m')
    | (Pipeline.Raised exc, m') => (Pipeline.Raised exc, m')
    end.
Proof. reflexivity. Qed.

(** [validate_environment] decides the three preconditions, changes nothing
    but the standard output, and prints exactly when one of them fails. *)
Lemma validate_environment_eq (m : Pipeline.machine) :
  ∃ lines,
    Pipeline.validate_environment PROJECT_DIR m
    = (Pipeline.Done (preconditions m),
       Pipeline.Machine (Pipeline.ALICEVISION_BIN m) (Pipeline.SENSOR_DB m)
         (Pipeline.sanitized m) (Pipeline.recon m)
         (Pipeline.stdout m ++ lines) (Pipeline.invoked m))
    ∧ (if preconditions m then lines = []
       else ∃ diagnostic detail,
              lines = [diagnostic; detail]
              ∧ Py.startswith diagnostic "[ERROR]" = true).
Proof.
  destruct m as [bin db san rec out inv].
  unfold Pipeline.validate_environment, preconditions. run_M.
  destruct (Pipeline.truthy bin); simpl.
  2:{ eexists. split; [rewrite <- !app_assoc; reflexivity|]. by eexists _, _. }
  destruct (Pipeline.truthy db); simpl.
  2:{ eexists. split; [rewrite <- !app_assoc; reflexivity|]. by eexists _, _. }
  destruct san as [entries|]; simpl.
  2:{ eexists. split; [rewrite <- !app_assoc; reflexivity|]. by eexists _, _. }
  destruct (decide _) as [Hlt|Hge]; simpl.
  - rewrite bool_decide_eq_false_2 by lia.
    eexists. split; [rewrite <- !app_assoc; reflexivity|]. by eexists _, _.
  - rewrite bool_decide_eq_true_2 by lia.
    exists []. by rewrite app_nil_r.
Qed.

Lemma node_same_run (cmd : list string) (step : string) (m m' : Pipeline.machine) :
  same_but_stdout m m' → same_run (node cmd step m) (node cmd step m').
Proof.
  intros (Hb & Hd & Hs & Hr & Hi).
  pose proof (run_alicevision_node_eq cmd step m) as E.
  pose proof (run_alicevision_node_eq cmd step m') as E'.
  cbv zeta in E, E'. rewrite E, E'. clear E E'. rewrite Hb, Hd, Hs, Hr, Hi.
  destruct (binary _ _ _) as [[rc tree]|]; [|done].
  by destruct (decide (_ = 0)).
Qed.

Lemma makedirs_same_run (name : string) (m m' : Pipeline.machine) :
  same_but_stdout m m' →
  same_run (Pipeline.makedirs_in_root name m) (Pipeline.makedirs_in_root name m').
Proof.
  intros (Hb & Hd & Hs & Hr & Hi). unfold same_run, same_but_stdout. simpl.
  by rewrite Hb, Hd, Hs, Hr, Hi.
Qed.

Lemma print_same_run (line : string) (m m' : Pipeline.machine) :
  same_but_stdout m m' →
  same_run (Pipeline.print line m) (Pipeline.print line m').
Proof. intros (Hb & Hd & Hs & Hr & Hi). by unfold same_run, same_but_stdout. Qed.

Lemma same_run_seq (c k : Pipeline.M unit) (m m' : Pipeline.machine) :
  (∀ m m', same_but_stdout m m' → same_run (c m) (c m')) →
  (∀ m m', same_but_stdout m m' → same_run (k m) (k m')) →
  same_but_stdout m m' → same_run ((c ;; k) m) ((c ;; k) m').
Proof.
  intros Hc Hk Hm. unfold mbind, Pipeline.M_bind.
  destruct (Hc m m' Hm) as [Ho Hs].
  destruct (c m) as [[[]|code|exc] m1], (c m') as [[[]|code'|exc'] m1'];
    simpl in *; try done.
  by apply Hk.
Qed.

(** After validation and cleaning [main] runs the ten nodes from a machine
    whose output tree is empty; what follows is a function of the two
    environment variables alone. *)
Lemma main_tail :
  ∃ tail : option string → option string → Pipeline.M unit,
    (∀ m, preconditions m = true →
       ∃ out,
         Pipeline.main PROJECT_DIR binary m
         = tail (Pipeline.ALICEVISION_BIN m) (Pipeline.SENSOR_DB m)
             (Pipeline.Machine (Pipeline.ALICEVISION_BIN m) (Pipeline.SENSOR_DB m)
                (Pipeline.sanitized m) (Some ∅) out (Pipeline.invoked m)))
    ∧ (∀ b d m,
         nodes_run binary (stage_program (default EmptyString b)) m (tail b d m))
    ∧ (∀ b d m m', same_but_stdout m m' → same_run (tail b d m) (tail b d m')).
Proof.
  eexists. split_and!.
  - intros m Hpre. unfold Pipeline.main.
    do 3 (rewrite M_bind_eq; unfold Pipeline.print at 1; cbv beta iota).
    rewrite M_bind_eq. simpl Pipeline.ALICEVISION_BIN. simpl Pipeline.SENSOR_DB.
    simpl Pipeline.sanitized. simpl Pipeline.recon. simpl Pipeline.invoked.
    simpl Pipeline.stdout.
    match goal with |- context [Pipeline.validate_environment _ ?m0] =>
      destruct (validate_environment_eq m0) as (lines & -> & Hl);
      change (preconditions m0) with (preconditions m) in *
    end.
    rewrite Hpre in *. subst lines. cbv beta iota.
    simpl Pipeline.ALICEVISION_BIN. simpl Pipeline.SENSOR_DB.
    simpl Pipeline.sanitized. simpl Pipeline.recon. simpl Pipeline.invoked.
    simpl Pipeline.stdout. simpl negb. cbv iota.
    rewrite M_bind_eq. unfold mret at 1, Pipeline.M_ret at 1. cbv beta iota.
    rewrite M_bind_eq. unfold Pipeline.get at 1. cbv beta iota.
    simpl Pipeline.ALICEVISION_BIN. simpl Pipeline.SENSOR_DB.
    simpl Pipeline.sanitized. simpl Pipeline.recon. simpl Pipeline.invoked.
    rewrite M_bind_eq.
    match goal with |- context [(if decide _ then _ else _) ?m0] =>
      assert (Hclean : ∃ r out,
        (if decide (is_Some (Pipeline.recon m))
         then Pipeline.print "[INFO] Limpiando directorio de salida previo...";;
              Pipeline.set_recon None
         else mret ()) m0
        = (Pipeline.Done (),
           Pipeline.Machine (Pipeline.ALICEVISION_BIN m) (Pipeline.SENSOR_DB m)
             (Pipeline.sanitized m) r out (Pipeline.invoked m)))
        by (destruct (decide _); eexists _, _; reflexivity)
    end.
    destruct Hclean as (r & out & ->). cbv beta iota.
    rewrite M_bind_eq. unfold Pipeline.set_recon at 1. cbv beta iota.
    simpl Pipeline.ALICEVISION_BIN. simpl Pipeline.SENSOR_DB.
    simpl Pipeline.sanitized. simpl Pipeline.invoked. simpl Pipeline.stdout.
    exists out.
    generalize (Pipeline.sanitized m) (Pipeline.invoked m).
    generalize (Pipeline.ALICEVISION_BIN m) (Pipeline.SENSOR_DB m).
    intros b d s i.
    generalize (Pipeline.Machine b d s (Some ∅) out i). intros m0. reflexivity.
  - intros b d m. cbv beta. generalize (default EmptyString b). intros bin.
    unfold stage_program.
    repeat (eapply nodes_run_seq;
            [ | first [apply node_nodes_run | apply makedirs_nodes_run
                      | apply print_nodes_run] | ];
            [reflexivity | intros ?]).
    apply print_nodes_run.
  - intros b d m m' Hm. cbv beta.
    repeat (apply same_run_seq; [ | | done]; [ | clear m m' Hm; intros m m' Hm]).
    all: first [by apply node_same_run | by apply makedirs_same_run
               | by apply print_same_run].
Qed.

Lemma main_not_ready (m : Pipeline.machine) :
  preconditions m = false →
  ∃ lines,
    Pipeline.main PROJECT_DIR binary m
    = (Pipeline.Exit 1,
       Pipeline.Machine (Pipeline.ALICEVISION_BIN m) (Pipeline.SENSOR_DB m)
         (Pipeline.sanitized m) (Pipeline.recon m)
         (Pipeline.stdout m ++ lines) (Pipeline.invoked m)).
Proof.
  intros Hpre. unfold Pipeline.main.
  do 3 (rewrite M_bind_eq; unfold Pipeline.print at 1; cbv beta iota).
  rewrite M_bind_eq. simpl Pipeline.ALICEVISION_BIN. simpl Pipeline.SENSOR_DB.
  simpl Pipeline.sanitized. simpl Pipeline.recon. simpl Pipeline.invoked.
  simpl Pipeline.stdout.
  match goal with |- context [Pipeline.validate_environment _ ?m0] =>
    destruct (validate_environment_eq m0) as (lines & -> & Hl);
    change (preconditions m0) with (preconditions m) in *
  end.
  rewrite Hpre. cbv beta iota. simpl negb. cbv iota.
  rewrite M_bind_eq. unfold Pipeline.sys_exit at 1. cbv beta iota. simpl.
  eexists. rewrite <- !app_assoc. reflexivity.
Qed.


(** X2: a binary is invoked exactly when the three preconditions hold (both
    environment variables set and not empty, the sanitized directory present,
    at least three entries ending in [.jpg]); when one fails, [main] leaves
    with exit code 1 and the reconstruction tree is as it was. *)
Theorem binaries_invoked_iff_preconditions (m : Pipeline.machine) :
  let res := Pipeline.main PROJECT_DIR binary m in
  (Pipeline.invoked res.2 = Pipeline.invoked m ↔ preconditions m = false)
  ∧ (preconditions m = false →
     res.1 = Pipeline.Exit 1 ∧ Pipeline.recon res.2 = Pipeline.recon m).
Proof.
  intros res. subst res. destruct (preconditions m) eqn:Hpre.
  - split; [|done]. split; [|done]. intros Hinv. exfalso.
    destruct main_tail as (tail & Hmain & Hrun & _).
    destruct (Hmain m Hpre) as (out & E). rewrite E in Hinv.
    destruct (Hrun (Pipeline.ALICEVISION_BIN m) (Pipeline.SENSOR_DB m)
                (Pipeline.Machine (Pipeline.ALICEVISION_BIN m)
                   (Pipeline.SENSOR_DB m) (Pipeline.sanitized m) (Some ∅) out
                   (Pipeline.invoked m)))
      as (_ & _ & _ & _ & calls & Hi & Hf & _).
    simpl in Hi. rewrite Hinv in Hi.
    assert (calls = []) as ->.
    { apply (f_equal length) in Hi. rewrite length_app in Hi.
      destruct calls; [done|simpl in Hi; lia]. }
    simpl in Hf. by destruct Hf as (argv & calls' & ? & _).
  - destruct (main_not_ready m Hpre) as (lines & ->). simpl. done.
Qed.

(** X3: once the preconditions hold, what an earlier reconstruction left
    under the output root has no influence on the run: whether the directory
    existed and whatever it held, the outcome, the calls made and the final
    tree are the same. *)
Theorem stale_reconstruction_is_discarded
    (m : Pipeline.machine) (stale : option (gset string)) :
  preconditions m = true →
  let res := Pipeline.main PROJECT_DIR binary m in
  let res' :=
    Pipeline.main PROJECT_DIR binary
      (Pipeline.Machine (Pipeline.ALICEVISION_BIN m) (Pipeline.SENSOR_DB m)
         (Pipeline.sanitized m) stale (Pipeline.stdout m) (Pipeline.invoked m)) in
  res.1 = res'.1
  ∧ Pipeline.recon res.2 = Pipeline.recon res'.2
  ∧ Pipeline.invoked res.2 = Pipeline.invoked res'.2.
Proof.
  intros Hpre res res'. subst res res'.
  destruct main_tail as (tail & Hmain & _ & Hsame).
  destruct (Hmain m Hpre) as (out & ->).
  destruct (Hmain (Pipeline.Machine (Pipeline.ALICEVISION_BIN m)
                     (Pipeline.SENSOR_DB m) (Pipeline.sanitized m) stale
                     (Pipeline.stdout m) (Pipeline.invoked m)) Hpre)
    as (out' & ->). simpl.
  match goal with |- (tail _ _ ?m1).1 = (tail _ _ ?m2).1 ∧ _ =>
    destruct (Hsame (Pipeline.ALICEVISION_BIN m) (Pipeline.SENSOR_DB m) m1 m2)
      as (Ho & _ & _ & _ & Hr & Hi); [done|]
  end.
  done.
Qed.

End OrchestratorFacts.

Lemma stale_reconstruction_is_discarded_witness :
  let m := Pipeline.Machine (Some "/opt/av/bin") (Some "/opt/av/db")
             (Some ["1000.jpg"; "1001.jpg"; "1002.jpg"]) None [] [] in
  let binary := λ (argv : list string) (_ : option (list string))
                  (tree : gset string),
                  Some (0, {[default EmptyString (head argv)]} ∪ tree) in
  let res := Pipeline.main "/p" binary m in
  let res' :=
    Pipeline.main "/p" binary
      (Pipeline.Machine (Pipeline.ALICEVISION_BIN m) (Pipeline.SENSOR_DB m)
         (Pipeline.sanitized m) (Some {["mesh.obj"]}) (Pipeline.stdout m)
         (Pipeline.invoked m)) in
  res.1 = res'.1
  ∧ Pipeline.recon res.2 = Pipeline.recon res'.2
  ∧ Pipeline.invoked res.2 = Pipeline.invoked res'.2.
Proof.
  intros m binary.
  apply (stale_reconstruction_is_discarded "/p" binary m (Some {["mesh.obj"]})).
  reflexivity.
Defined.

(* ===================================================================== *)
(** * The classical engine, stage by stage *)
(* ===================================================================== *)

Lemma imwrite_file_at_ne {raw} (w : world raw) (d n : string) img (p : path) :
  p ≠ (d, n) → file_at (imwrite (d, n) img w) p = file_at w p.
Proof.
  intros Hne. destruct p as [d' n'].
  destruct (encodes w (d, n) img) eqn:He; [|by rewrite imwrite_refused].
  destruct (decide (d' = d)) as [->|Hd]; [|by apply imwrite_file_at_other].
  unfold file_at, imwrite. rewrite He. simpl.
  destruct (disk w !! d) as [dir|] eqn:Hdir; simpl; [|by rewrite Hdir].
  rewrite lookup_insert_eq. simpl. rewrite lookup_insert_ne; [done|congruence].
Qed.


Section ClassicStages.
Context {raw photo : Type}.
Variable PROJECT_DIR : string.
Variable imread : raw → option photo.
Variable final_mask : photo → list Z.
Variable apply_clahe : photo → list (bgr Z).

Local Abbreviation TEMP := (Preprocess.PROCESSED_TEMP_DIR PROJECT_DIR).
Local Abbreviation OUT := (Preprocess.OUTPUT_FINAL_DIR PROJECT_DIR).
Local Abbreviation loop1 :=
  (Preprocess.stage_1_loop PROJECT_DIR imread final_mask apply_clahe).
Local Abbreviation loop2 := (Preprocess.stage_2_loop PROJECT_DIR).
Local Abbreviation base := (λ f : string, (Py.splitext f).1).
Local Abbreviation png := (λ s : string, s +:+ ".png").

(** What the first stage has built so far: every entry of the temporary
    map names the image made from a decodable file of [all] with that base
    name. *)
Local Abbreviation built := (λ (rd : gmap string raw) (all : list string)
    (T : gmap string path) (w : world raw),
  ∀ s p, T !! s = Some p →
    p = (TEMP, png s)
    ∧ ∃ f img, f ∈ all ∧ base f = s ∧ rd !! f ≫= imread = Some img
        ∧ file_at w p = Some (File (final_img final_mask apply_clahe img) ∅)).

Lemma stage_1_loop_sound (rd : gmap string raw) (all files : list string)
    (T : gmap string path) (w : world raw) (dir : gmap string file) :
  raw_dir w = rd →
  disk w !! TEMP = Some dir →
  dom dir = set_map png (dom T) →
  built rd all T w →
  (∀ f, f ∈ files → f ∈ all) →
  let res := loop1 files T w in
  built rd all res.1 res.2
  ∧ ∃ dir', disk res.2 !! TEMP = Some dir'
      ∧ dom dir' = set_map png (dom res.1)
      ∧ ∀ d, d ≠ TEMP → disk res.2 !! d = disk w !! d.
Proof.
  revert T w dir.
  induction files as [|f files IH]; intros T w dir Hrd Hdir Hdom Hgood Hall; simpl.
  { split; [done|]. by exists dir. }
  rewrite Hrd. destruct (rd !! f ≫= imread) as [img|] eqn:Hread.
  2:{ apply (IH T w dir); try done. intros ? ?. apply Hall. by right. }
  set (p := (TEMP, png (base f))).
  set (w1 := imwrite p _ w).
  edestruct (IH (<[base f := p]> T) w1) as (Hgood' & dir' & Hdir' & Hdom' & Hother).
  - unfold w1. by rewrite imwrite_raw_dir.
  - unfold w1, p. apply imwrite_disk_same; [done|apply encodes_png].
  - rewrite !dom_insert_L, Hdom, set_map_union_L, set_map_singleton_L. done.
  - intros s q. destruct (decide (base f = s)) as [<-|Hne].
    + rewrite lookup_insert_eq. intros [= <-]. split; [done|].
      exists f, img. split; [apply Hall; by left|]. split; [done|]. split; [done|].
      unfold w1, p. erewrite imwrite_file_at_same; [|done|apply encodes_png].
      reflexivity.
    + rewrite lookup_insert_ne by done. intros Hs.
      destruct (Hgood s q Hs) as (-> & g & img' & ? & ? & ? & Hfile).
      split; [done|]. exists g, img'. split_and!; try done.
      unfold w1, p. rewrite imwrite_file_at_ne; [done|].
      intros [= E]. by apply string_app_inj_r in E.
  - intros ? ?. apply Hall. by right.
  - split; [exact Hgood'|]. exists dir'. split_and!; try done.
    intros d Hd. rewrite Hother by done. unfold w1, p.
    by rewrite imwrite_disk_other.
Qed.

(** The first stage of the classical engine, as one statement. *)
Lemma stage_1_image_processing_spec (w : world raw) :
  let res := Preprocess.stage_1_image_processing PROJECT_DIR
               imread final_mask apply_clahe w in
  (∀ s p, res.1 !! s = Some p →
     p = (TEMP, s +:+ ".png")
     ∧ ∃ f img, f ∈ classic_files w ∧ (Py.splitext f).1 = s
         ∧ raw_dir w !! f ≫= imread = Some img
         ∧ file_at res.2 p = Some (File (final_img final_mask apply_clahe img) ∅))
  ∧ (∀ f, f ∈ classic_files w → is_Some (raw_dir w !! f ≫= imread) →
       (Py.splitext f).1 ∈ dom res.1)
  ∧ (∃ dir', disk res.2 !! TEMP = Some dir'
       ∧ dom dir' = set_map (λ s, s +:+ ".png") (dom res.1))
  ∧ (∀ d, d ≠ TEMP → disk res.2 !! d = disk w !! d).
Proof.
  intros res. subst res. unfold Preprocess.stage_1_image_processing.
  change (listdir (recreate _ _)) with (listdir w).
  fold (classic_files w).
  set (w0 := recreate TEMP (print _ w)).
  assert (Hother0 : ∀ d, d ≠ TEMP → disk w0 !! d = disk w !! d).
  { intros d Hd. unfold w0. by rewrite recreate_disk_other. }
  destruct (decide (classic_files w = [])) as [Hnil|Hne].
  { cbn [fst snd]. split_and!.
    - intros s p. by rewrite lookup_empty.
    - intros f Hf. rewrite Hnil in Hf. by apply elem_of_nil in Hf.
    - exists ∅. split; [apply recreate_disk_same|].
      by rewrite !dom_empty_L, set_map_empty.
    - exact Hother0. }
  destruct (stage_1_loop_sound (raw_dir w) (classic_files w) (classic_files w)
              ∅ w0 ∅) as (Hbuilt & dir' & Hdir' & Hdom & Hother).
  { reflexivity. }
  { apply recreate_disk_same. }
  { by rewrite !dom_empty_L, set_map_empty. }
  { intros s p. by rewrite lookup_empty. }
  { done. }
  split_and!.
  - exact Hbuilt.
  - intros f Hf Hdec.
    rewrite (stage_1_loop_keys PROJECT_DIR imread final_mask apply_clahe
               (raw_dir w)) by reflexivity.
    apply elem_of_union_r, elem_of_list_to_set, list_elem_of_fmap.
    exists f. split; [done|]. by apply list_elem_of_filter.
  - by exists dir'.
  - intros d Hd. by rewrite Hother, Hother0.
Qed.

(** X4: the first stage of the classical engine.  Every entry of the
    temporary map is [name ↦ PROCESSED_TEMP_DIR/name.png], and that file
    holds, without metadata, the enhanced pixels and the mask of a
    discovered file with this base name that decodes; every discovered file
    that decodes has an entry; the temporary directory holds these files and
    nothing else, whatever it held before; no other directory changes. *)
Theorem stage_1_temp_map_sound (w : world raw) :
  let res := Preprocess.stage_1_image_processing PROJECT_DIR
               imread final_mask apply_clahe w in
  (∀ s p, res.1 !! s = Some p →
     p = (TEMP, s +:+ ".png")
     ∧ ∃ f img, f ∈ classic_files w ∧ (Py.splitext f).1 = s
         ∧ raw_dir w !! f ≫= imread = Some img
         ∧ file_at res.2 p = Some (File (final_img final_mask apply_clahe img) ∅))
  ∧ (∀ f, f ∈ classic_files w → is_Some (raw_dir w !! f ≫= imread) →
       (Py.splitext f).1 ∈ dom res.1)
  ∧ (∃ dir', disk res.2 !! TEMP = Some dir'
       ∧ dom dir' = set_map (λ s, s +:+ ".png") (dom res.1))
  ∧ (∀ d, d ≠ TEMP → disk res.2 !! d = disk w !! d).
Proof. apply stage_1_image_processing_spec. Qed.

Lemma stage_1_loop_jpeg_encodable files T (w : world raw) :
  jpeg_encodable (loop1 files T w).2 = jpeg_encodable w.
Proof.
  revert T w. induction files as [|f files IH]; intros T w; simpl; [done|].
  destruct (raw_dir w !! f ≫= imread); rewrite IH; [|done].
  apply imwrite_jpeg_encodable.
Qed.

Lemma file_at_dir (w : world raw) (d n : string) (dir : gmap string file) :
  disk w !! d = Some dir → file_at w (d, n) = dir !! n.
Proof. intros Hdir. unfold file_at. simpl. by rewrite Hdir. Qed.

Section Stage2Content.
Variable temp_map : gmap string path.
(** The state the temporary images are read from. *)
Variable w0 : world raw.
Hypothesis temp_outside : ∀ s q, temp_map !! s = Some q → q.1 ≠ OUT.

Local Abbreviation readable :=
  (λ x : string, is_Some (temp_map !! x ≫= file_at w0)).

(** What is at the place of the frame made from the temporary image [f]:
    the flattened image without metadata when the encoder takes it, and
    nothing when the encoder refuses it. *)
Local Abbreviation frame_of := (λ (w : world raw) (f : file),
  if jpeg_encodable w (Preprocess.flatten (pixels f))
  then Some (File (Preprocess.flatten (pixels f)) ∅) else None).

Lemma stage_2_loop_content names fm c (w : world raw) dir :
  disk w !! OUT = Some dir →
  (∀ q, q.1 ≠ OUT → file_at w q = file_at w0 q) →
  NoDup names →
  (∀ x, x ∈ names → fm !! x = None) →
  0 ≤ c →
  (∀ k, c ≤ k → dir !! frame_name k = None) →
  (∀ A p, fm !! A = Some p →
     ∃ k q f, 0 ≤ k < c ∧ p = (OUT, frame_name k)
       ∧ temp_map !! A = Some q ∧ file_at w0 q = Some f
       ∧ file_at w p = frame_of w f) →
  (∀ k, 0 ≤ k < c → ∃ A, fm !! A = Some (OUT, frame_name k)) →
  let res := loop2 temp_map names fm c w in
  let n := Z.of_nat (length (filter readable names)) in
  (∃ dir', disk res.2 !! OUT = Some dir'
     ∧ dom dir' ⊆ dom dir ∪ list_to_set (frame_name <$> seqZ c n)
     ∧ ((∀ img, jpeg_encodable w img = true) →
        dom dir' = dom dir ∪ list_to_set (frame_name <$> seqZ c n)))
  ∧ dom res.1 = dom fm ∪ list_to_set (filter readable names)
  ∧ (∀ A p, res.1 !! A = Some p →
       ∃ k q f, 0 ≤ k < c + n ∧ p = (OUT, frame_name k)
         ∧ temp_map !! A = Some q ∧ file_at w0 q = Some f
         ∧ file_at res.2 p = frame_of w f)
  ∧ (∀ k, 0 ≤ k < c + n → ∃ A, res.1 !! A = Some (OUT, frame_name k))
  ∧ (∀ d, d ≠ OUT → disk res.2 !! d = disk w !! d).
Proof.
  revert fm c w dir.
  induction names as [|x names IH];
    intros fm c w dir Hdir Hsame Hnd Hfresh Hc Hempty Hinv Hsurj; simpl.
  { split_and!; [|set_solver| | |done].
    - exists dir. split; [done|]. split; [set_solver|]. intros _. set_solver.
    - intros A p HA. destruct (Hinv A p HA) as (k & q & f & ? & ?).
      exists k, q, f. split; [lia|done].
    - intros k Hk. apply Hsurj. lia. }
  apply NoDup_cons in Hnd as [Hx Hnd].
  assert (Hfresh' : ∀ y, y ∈ names → fm !! y = None).
  { intros y Hy. apply Hfresh. by right. }
  destruct (temp_map !! x) as [q|] eqn:Hq; simpl.
  2:{ rewrite filter_cons_False by (rewrite Hq; by intros [? ?]).
      by apply (IH fm c w dir). }
  unfold imread_unchanged.
  assert (Hqout : q.1 ≠ OUT) by by eapply temp_outside.
  rewrite (Hsame q Hqout).
  destruct (file_at w0 q) as [f|] eqn:Hf; simpl.
  2:{ rewrite filter_cons_False by (rewrite Hq; simpl; rewrite Hf; by intros [? ?]).
      by apply (IH fm c w dir). }
  rewrite filter_cons_True by (rewrite Hq; simpl; rewrite Hf; by eexists).
  change (Py.str (Preprocess.start_index + c) +:+ ".jpg") with (frame_name c).
  set (img := Preprocess.flatten (pixels f)).
  set (w1 := imwrite (OUT, frame_name c) img w).
  assert (Henc1 : jpeg_encodable w1 = jpeg_encodable w)
    by (unfold w1; apply imwrite_jpeg_encodable).
  assert (Hw1 : ∃ dir1,
            disk w1 !! OUT = Some dir1
            ∧ dir1 !! frame_name c = frame_of w f
            ∧ (∀ name, name ≠ frame_name c → dir1 !! name = dir !! name)
            ∧ dom dir1 ⊆ {[frame_name c]} ∪ dom dir
            ∧ ((∀ img, jpeg_encodable w img = true) →
               dom dir1 = {[frame_name c]} ∪ dom dir)).
  { unfold w1. destruct (encodes w (OUT, frame_name c) img) eqn:He.
    - eexists. split; [by apply imwrite_disk_same|].
      rewrite encodes_frame in He. fold img. rewrite He.
      split; [by rewrite lookup_insert_eq|].
      split; [intros name Hne; by rewrite lookup_insert_ne|].
      rewrite dom_insert_L. done.
    - rewrite imwrite_refused by done. exists dir. split; [done|].
      rewrite encodes_frame in He. fold img. rewrite He.
      split; [apply Hempty; lia|]. split; [done|].
      split; [set_solver|]. intros Hall. by rewrite Hall in He. }
  destruct Hw1 as (dir1 & Hdir1 & Hat1 & Hold1 & Hsub1 & Heq1).
  edestruct (IH (<[x := (OUT, frame_name c)]> fm) (c + 1) w1 dir1)
    as ((dir' & Hdir' & Hdom & Hdomeq) & Hkeys & Hinv' & Hsurj' & Hother).
  - exact Hdir1.
  - intros q' Hq'. unfold w1. rewrite imwrite_file_at_other by done. by apply Hsame.
  - done.
  - intros y Hy. rewrite lookup_insert_ne by (intros ->; done). by apply Hfresh'.
  - lia.
  - intros k Hk. rewrite Hold1; [apply Hempty; lia|].
    intros E. apply frame_name_inj in E. lia.
  - intros A p. rewrite Henc1. destruct (decide (x = A)) as [<-|Hne].
    + rewrite lookup_insert_eq. intros [= <-]. exists c, q, f.
      split_and!; [lia..|done|done|done|].
      by rewrite (file_at_dir w1 OUT (frame_name c) dir1 Hdir1).
    + rewrite lookup_insert_ne by done. intros HA.
      destruct (Hinv A p HA) as (k & q' & f' & Hk & -> & ? & ? & Hfile).
      exists k, q', f'. split_and!; [lia..|done|done|done|].
      rewrite (file_at_dir w1 OUT (frame_name k) dir1 Hdir1), Hold1.
      * by rewrite <- (file_at_dir w OUT (frame_name k) dir Hdir).
      * intros E. apply frame_name_inj in E. lia.
  - intros k Hk. destruct (decide (k = c)) as [->|Hne].
    + exists x. by rewrite lookup_insert_eq.
    + destruct (Hsurj k) as [A HA]; [lia|]. exists A.
      rewrite lookup_insert_ne; [done|]. intros ->.
      rewrite Hfresh in HA by (by left). done.
  - simpl length.
    assert (Hseq : (list_to_set (frame_name <$>
                      seqZ c (Z.of_nat (S (length (filter readable names)))))
                    : gset string)
                   = {[frame_name c]}
                     ∪ list_to_set (frame_name <$>
                         seqZ (c + 1) (Z.of_nat (length (filter readable names))))).
    { rewrite (seqZ_cons c (Z.of_nat (S _))) by lia.
      replace (Z.succ c) with (c + 1) by lia.
      replace (Z.pred (Z.of_nat (S (length (filter readable names)))))
        with (Z.of_nat (length (filter readable names))) by lia.
      clear. set_solver. }
    split_and!.
    + exists dir'. split; [exact Hdir'|]. split.
      * rewrite Hseq. etrans; [exact Hdom|]. clear -Hsub1. set_solver.
      * intros Hall. rewrite Hseq, Hdomeq, Heq1; [clear; set_solver|done|].
        intros img'. rewrite Henc1. apply Hall.
    + rewrite Hkeys, dom_insert_L. clear. set_solver.
    + intros A p HA. destruct (Hinv' A p HA) as (k & q' & f' & Hk & Hrest).
      rewrite Henc1 in Hrest. exists k, q', f'. split; [lia|done].
    + intros k Hk. apply Hsurj'. lia.
    + intros d Hd. rewrite Hother by done. unfold w1.
      by rewrite imwrite_disk_other.
Qed.

End Stage2Content.



(** The two sanitization stages of the classical engine in sequence. *)
Lemma classic_stages_spec (w : world raw) :
  let s1 := Preprocess.stage_1_image_processing PROJECT_DIR
              imread final_mask apply_clahe w in
  let s2 := Preprocess.stage_2_sanitization PROJECT_DIR s1.1 s1.2 in
  let n := Z.of_nat (size (dom s1.1)) in
  dom s2.1 = dom s1.1
  ∧ (∃ dir', disk s2.2 !! OUT = Some dir'
       ∧ dom dir' ⊆ list_to_set (frame_name <$> seqZ 0 n)
       ∧ ((∀ img, jpeg_encodable w img = true) →
          dom dir' = list_to_set (frame_name <$> seqZ 0 n)))
  ∧ (∀ A p, s2.1 !! A = Some p →
       ∃ k f img,
         0 ≤ k < n ∧ p = (OUT, frame_name k)
         ∧ f ∈ classic_files w ∧ (Py.splitext f).1 = A
         ∧ raw_dir w !! f ≫= imread = Some img
         ∧ file_at s2.2 p
           = let frame := Preprocess.flatten (final_img final_mask apply_clahe img) in
             if jpeg_encodable w frame then Some (File frame ∅) else None)
  ∧ (∀ k, 0 ≤ k < n → ∃ A, s2.1 !! A = Some (OUT, frame_name k))
  ∧ (∀ d, d ≠ TEMP → d ≠ OUT → disk s2.2 !! d = disk w !! d).
Proof.
  intros s1 s2 n.
  destruct (stage_1_image_processing_spec w)
    as (Hbuilt & _ & _ & Hother1). fold s1 in Hbuilt, Hother1.
  assert (Henc : jpeg_encodable s1.2 = jpeg_encodable w).
  { subst s1. unfold Preprocess.stage_1_image_processing.
    destruct (decide _); [done|]. by rewrite stage_1_loop_jpeg_encodable. }
  subst s2. unfold Preprocess.stage_2_sanitization.
  set (names := Py.sorted (elements (dom s1.1))).
  set (w1 := recreate OUT (print _ s1.2)).
  assert (Hall : filter (λ x, is_Some (s1.1 !! x ≫= file_at s1.2)) names = names).
  { apply filter_all. apply Forall_forall. intros x Hx.
    apply elem_of_sorted_elements, elem_of_dom in Hx as [p Hp].
    rewrite Hp. simpl. destruct (Hbuilt x p Hp) as (_ & f & img & _ & _ & _ & ->).
    by eexists. }
  destruct (stage_2_loop_content s1.1 s1.2) with (names := names) (fm := ∅ : gmap string path)
      (c := 0) (w := w1) (dir := ∅ : gmap string file)
    as ((dir' & Hdir' & Hdom & Hdomeq) & Hkeys & Hinv & Hsurj & Hother).
  - intros s q Hq. destruct (Hbuilt s q Hq) as (-> & _). apply temp_out_differ.
  - apply recreate_disk_same.
  - intros q Hq. unfold w1. by rewrite recreate_file_at_other.
  - subst names. rewrite sorted_permutation. apply NoDup_elements.
  - intros. apply lookup_empty.
  - done.
  - intros. apply lookup_empty.
  - intros A p. by rewrite lookup_empty.
  - intros k Hk. lia.
  - rewrite Hall in Hdom, Hdomeq, Hkeys, Hinv, Hsurj.
    assert (Hlen : Z.of_nat (length names) = n).
    { subst names n. by rewrite sorted_elements_length. }
    rewrite Hlen in Hdom, Hdomeq, Hinv, Hsurj.
    rewrite dom_empty_L, (left_id_L ∅ (∪)) in Hdom, Hdomeq.
    change (jpeg_encodable w1) with (jpeg_encodable s1.2) in Hinv, Hdomeq.
    rewrite Henc in Hinv, Hdomeq.
    split_and!.
    + rewrite Hkeys, dom_empty_L, (left_id_L ∅ (∪)). apply set_eq. intros x.
      rewrite elem_of_list_to_set. apply elem_of_sorted_elements.
    + by exists dir'.
    + intros A p HA. destruct (Hinv A p HA) as (k & q & f0 & Hk & -> & Hq & Hf0 & Hfile).
      destruct (Hbuilt A q Hq) as (-> & f & img & Hf & Hbase & Hread & Hq').
      rewrite Hq' in Hf0. injection Hf0 as <-.
      exists k, f, img. split_and!; try done; lia.
    + exact Hsurj.
    + intros d Hd1 Hd2. rewrite Hother by done. unfold w1.
      rewrite recreate_disk_other by done. by apply Hother1.
Qed.

(** X6: the two sanitization stages of the classical engine in sequence.
    No image is lost between them in the map: the final map has the keys
    of the temporary map, the base names of the discovered files that
    decode, and numbers them [1000.jpg .. (999+n).jpg], [n] being the number
    of these base names.  The frame of a name holds, without metadata, the
    flattened image of a discovered file with this base name when the
    encoder takes that image, and is missing when the encoder refuses it;
    the output directory holds nothing but these frames.  Directories other
    than the temporary and the output directory are left as they were. *)
Theorem classic_stages_end_to_end (w : world raw) :
  let s1 := Preprocess.stage_1_image_processing PROJECT_DIR
              imread final_mask apply_clahe w in
  let s2 := Preprocess.stage_2_sanitization PROJECT_DIR s1.1 s1.2 in
  let n := Z.of_nat (size (dom s1.1)) in
  dom s2.1 = dom s1.1
  ∧ (∃ dir', disk s2.2 !! OUT = Some dir'
       ∧ dom dir' ⊆ list_to_set (frame_name <$> seqZ 0 n)
       ∧ ((∀ img, jpeg_encodable w img = true) →
          dom dir' = list_to_set (frame_name <$> seqZ 0 n)))
  ∧ (∀ A p, s2.1 !! A = Some p →
       ∃ k f img,
         0 ≤ k < n ∧ p = (OUT, frame_name k)
         ∧ f ∈ classic_files w ∧ (Py.splitext f).1 = A
         ∧ raw_dir w !! f ≫= imread = Some img
         ∧ file_at s2.2 p
           = let frame := Preprocess.flatten (final_img final_mask apply_clahe img) in
             if jpeg_encodable w frame then Some (File frame ∅) else None)
  ∧ (∀ k, 0 ≤ k < n → ∃ A, s2.1 !! A = Some (OUT, frame_name k))
  ∧ (∀ d, d ≠ TEMP → d ≠ OUT → disk s2.2 !! d = disk w !! d).
Proof. apply classic_stages_spec. Qed.

Lemma stage_1_loop_nothing_decodes files T (w : world raw) :
  Forall (λ f, raw_dir w !! f ≫= imread = None) files →
  loop1 files T w = (T, w).
Proof.
  induction 1 as [|f files Hf _ IH]; simpl; [done|]. by rewrite Hf.
Qed.

(** X7: when none of the discovered files decodes (in particular when there
    is none), [main] of the classical engine returns after the first stage:
    the temporary directory has been emptied, every other directory, the
    output directory with the frames of an earlier run included, is as it
    was, and the second and third stage print nothing.  The only diagnostic
    is the one for an empty input directory; files that are all unreadable
    are passed over in silence. *)
Theorem classic_main_nothing_decodes (exif_of : raw → tags) (w : world raw) :
  Forall (λ f, raw_dir w !! f ≫= imread = None) (classic_files w) →
  let w' := Preprocess.main PROJECT_DIR imread final_mask apply_clahe exif_of w in
  disk w' !! TEMP = Some ∅
  ∧ (∀ d, d ≠ TEMP → disk w' !! d = disk w !! d)
  ∧ log w'
    = log w
      ++ [(STDOUT, Preprocess.banner);
          (STDOUT, " PREPARACIÓN DE DATOS PARA FOTOGRAMETRÍA");
          (STDOUT, Preprocess.banner);
          (STDOUT, "
[Etapa 1/3] Procesamiento de Imagen (Masking + CLAHE)...")]
      ++ (if decide (classic_files w = []) then
            [(STDOUT, "[ERROR] No hay imágenes en "
                      +:+ Preprocess.INPUT_DIR PROJECT_DIR)]
          else []).
Proof.
  intros Hnone w'. subst w'.
  unfold Preprocess.main, Preprocess.stage_1_image_processing.
  match goal with |- context [listdir ?w0] =>
    change (listdir w0) with (listdir w) end.
  fold (classic_files w).
  destruct (decide (classic_files w = [])) as [Hnil|Hne].
  - rewrite decide_True by done. cbn [fst snd]. split_and!.
    + apply recreate_disk_same.
    + intros d Hd. simpl. by rewrite lookup_insert_ne.
    + simpl. rewrite <- !app_assoc. reflexivity.
  - rewrite stage_1_loop_nothing_decodes by done.
    rewrite decide_True by done. split_and!.
    + apply recreate_disk_same.
    + intros d Hd. simpl. by rewrite lookup_insert_ne.
    + simpl. rewrite <- !app_assoc. reflexivity.
Qed.






End ClassicStages.

Lemma classic_main_nothing_decodes_witness :
  let w : world Demo.photo :=
    World {["bad.jpg" := Demo.corrupt]}
          {[Demo.out_dir := {["1000.jpg" := File (Color [Bgr 10 20 30]) ∅]}]}
          true [] in
  let w' := Preprocess.main "/p" Demo.imread Demo.final_mask Demo.apply_clahe
              Demo.meta w in
  disk w' !! Preprocess.PROCESSED_TEMP_DIR "/p" = Some ∅
  ∧ (∀ d, d ≠ Preprocess.PROCESSED_TEMP_DIR "/p" → disk w' !! d = disk w !! d)
  ∧ log w'
    = log w
      ++ [(STDOUT, Preprocess.banner);
          (STDOUT, " PREPARACIÓN DE DATOS PARA FOTOGRAMETRÍA");
          (STDOUT, Preprocess.banner);
          (STDOUT, "
[Etapa 1/3] Procesamiento de Imagen (Masking + CLAHE)...")]
      ++ (if decide (classic_files w = []) then
            [(STDOUT, "[ERROR] No hay imágenes en "
                      +:+ Preprocess.INPUT_DIR "/p")]
          else []).
Proof.
  intros w.
  apply (classic_main_nothing_decodes "/p" Demo.imread Demo.final_mask
           Demo.apply_clahe Demo.meta w).
  vm_compute. repeat constructor.
Defined.


(** A frame the encoder refuses keeps its entry and its number.  With an
    encoder that takes images of one pixel only, standing for the size limit
    of the JPEG format, the two-pixel [a.jpg] is numbered 1000 and [b.jpg]
    1001 in the final map, and only [1001.jpg] is on the disk. *)
Example classic_refused_frame_stays_in_map :
  let wide := Demo.Photo (Some [Bgr 1 2 3; Bgr 4 5 6]) ∅ in
  let w : world Demo.photo :=
    MkWorld {["a.jpg" := wide; "b.jpg" := Demo.good ∅]} ∅ true []
            (λ img, match img with Color [_] => true | _ => false end) in
  let res := Demo.classic_stages w in
  res.1 !! "a" = Some (Demo.out_dir, "1000.jpg")
  ∧ res.1 !! "b" = Some (Demo.out_dir, "1001.jpg")
  ∧ Demo.names_in Demo.out_dir res.2 = ["1001.jpg"].
Proof. repeat split; by vm_compute. Qed.

(* ===================================================================== *)
(** * Where the metadata of a frame is taken from *)
(* ===================================================================== *)

(** A dictionary comprehension keeps, for each key, the value of the last
    item with that key. *)
Lemma foldl_insert_last {V} (key : string → string) (val : string → V)
    (l : list string) (m : gmap string V) (s : string) :
  foldl (λ m f, <[key f := val f]> m) m l !! s
  = match last (filter (λ f, key f = s) l) with
    | Some f => Some (val f)
    | None => m !! s
    end.
Proof.
  revert m. induction l as [|f l IH]; intros m; simpl; [done|].
  rewrite IH. destruct (decide (key f = s)) as [Hk|Hk].
  - rewrite filter_cons_True by done.
    destruct (filter _ l) as [|g r] eqn:Hr; simpl.
    + by rewrite <- Hk, lookup_insert_eq.
    + change (last (f :: g :: r)) with (last (g :: r)).
      by destruct (last (g :: r)) eqn:Hl; [|by apply last_None in Hl].
  - rewrite filter_cons_False by done.
    destruct (last _); [done|]. by rewrite lookup_insert_ne.
Qed.

Lemma fnmatch_any (f : string) : Py.fnmatch "*" f = true.
Proof.
  apply (fnmatch_star EmptyString f); [done|].
  exists f. by rewrite string_app_empty_r.
Qed.

Lemma last_filter_is_Some {A} (P : A → Prop) `{∀ x, Decision (P x)}
    (l : list A) (x : A) :
  x ∈ l → P x → ∃ y, last (filter P l) = Some y ∧ y ∈ l ∧ P y.
Proof.
  intros Hx HP.
  assert (Hin : x ∈ filter P l) by by apply list_elem_of_filter.
  destruct (last (filter P l)) as [y|] eqn:Hl.
  - exists y. split; [done|]. apply last_Some_elem_of in Hl.
    by apply list_elem_of_filter in Hl as [? ?].
  - apply last_None in Hl. rewrite Hl in Hin. by apply elem_of_nil in Hin.
Qed.

(** X9: the third stage of the classical engine looks a frame's source up by
    base name in a dictionary built from every visible entry of the input
    directory.  The entry under a base name is the last listed visible file
    with that base name, whatever its extension; and every file the first
    stage discovers has its base name in the dictionary, so the lookup for a
    frame never fails. *)
Theorem raw_path_map_lookup {raw : Type} (PROJECT_DIR : string) (w : world raw) :
  (∀ s,
     Preprocess.raw_path_map PROJECT_DIR w !! s
     = (λ f, (Preprocess.INPUT_DIR PROJECT_DIR, f))
       <$> last (filter (λ f, (Py.splitext f).1 = s) (Py.glob "*" (listdir w))))
  ∧ (∀ f, f ∈ classic_files w →
       ∃ g, Preprocess.raw_path_map PROJECT_DIR w !! (Py.splitext f).1
            = Some (Preprocess.INPUT_DIR PROJECT_DIR, g)
            ∧ g ∈ listdir w ∧ Py.ishidden g = false
            ∧ (Py.splitext g).1 = (Py.splitext f).1).
Proof.
  assert (Hlook : ∀ s,
     Preprocess.raw_path_map PROJECT_DIR w !! s
     = (λ f, (Preprocess.INPUT_DIR PROJECT_DIR, f))
       <$> last (filter (λ f, (Py.splitext f).1 = s) (Py.glob "*" (listdir w)))).
  { intros s. unfold Preprocess.raw_path_map.
    rewrite (foldl_insert_last (λ f, (Py.splitext f).1)
               (λ f, (Preprocess.INPUT_DIR PROJECT_DIR, f))).
    by destruct (last _). }
  split; [exact Hlook|]. intros f Hf.
  apply discovered_iff_suffix in Hf as (Hin & Hvis & _).
  assert (Hglob : f ∈ Py.glob "*" (listdir w)).
  { unfold Py.glob. apply list_elem_of_filter. split; [apply fnmatch_any|].
    by apply list_elem_of_filter. }
  destruct (last_filter_is_Some (λ g, (Py.splitext g).1 = (Py.splitext f).1)
              (Py.glob "*" (listdir w)) f Hglob eq_refl) as (g & Hlast & Hg & Hbase).
  exists g. rewrite Hlook, Hlast. split; [done|].
  unfold Py.glob in Hg. apply list_elem_of_filter in Hg as [_ Hg].
  apply list_elem_of_filter in Hg as [Hgv Hgin]. done.
Qed.

(** X10: the learned engine does the same with [Path.stem] as the key and
    with hidden entries included: the entry under a stem is the last listed
    entry of the input directory with that stem, and every discovered file
    has its stem in the dictionary. *)
Theorem raw_map_lookup {raw : Type} (PROJECT_DIR : string) (w : world raw) :
  (∀ s,
     PreprocessIA.raw_map PROJECT_DIR w !! s
     = (λ f, (PreprocessIA.INPUT_DIR PROJECT_DIR, f))
       <$> last (filter (λ f, Py.stem f = s) (listdir w)))
  ∧ (∀ f, f ∈ (ext ← PreprocessIA.extensions; Py.path_glob ext (listdir w)) →
       ∃ g, PreprocessIA.raw_map PROJECT_DIR w !! Py.stem f
            = Some (PreprocessIA.INPUT_DIR PROJECT_DIR, g)
            ∧ g ∈ listdir w ∧ Py.stem g = Py.stem f).
Proof.
  assert (Hall : Py.path_glob "*" (listdir w) = listdir w).
  { unfold Py.path_glob. apply filter_all, Forall_forall. intros f _.
    apply fnmatch_any. }
  assert (Hlook : ∀ s,
     PreprocessIA.raw_map PROJECT_DIR w !! s
     = (λ f, (PreprocessIA.INPUT_DIR PROJECT_DIR, f))
       <$> last (filter (λ f, Py.stem f = s) (listdir w))).
  { intros s. unfold PreprocessIA.raw_map. rewrite Hall.
    rewrite (foldl_insert_last Py.stem
               (λ f, (PreprocessIA.INPUT_DIR PROJECT_DIR, f))).
    by destruct (last _). }
  split; [exact Hlook|]. intros f Hf.
  apply discovered_iff_suffix in Hf as (Hin & _).
  destruct (last_filter_is_Some (λ g, Py.stem g = Py.stem f)
              (listdir w) f Hin eq_refl) as (g & Hlast & Hg & Hstem).
  exists g. by rewrite Hlook, Hlast.
Qed.

(* ===================================================================== *)
(** * The mask operations of the classical engine *)
(* ===================================================================== *)

Lemma roi_radius_all :
  forallb (λ x, forallb (roi_radius_at x) (seqZ 0 256)) (seqZ 0 256) = true.
Proof. by vm_compute. Qed.

(** X11: for an image of at most 65535 by 65535 pixels the region of
    interest is the disc of radius [⌊17·min(h,w)/40⌋] (the rounding of the
    literal [0.85] never shows) around [(w // 2, h // 2)], and this disc lies
    inside the image: the circle is never clipped. *)
Theorem roi_circle_inside_image (h w : Z) :
  0 < h < 65536 → 0 < w < 65536 →
  let '((cx, cy), radius) := create_circular_mask_circle h w ROI_RATIO in
  radius = 17 * Z.min h w / 40
  ∧ 0 ≤ cx - radius ∧ cx + radius ≤ w - 1
  ∧ 0 ≤ cy - radius ∧ cy + radius ≤ h - 1.
Proof.
  intros Hh Hw. unfold create_circular_mask_circle.
  set (m := Z.min h w).
  assert (Hm : 0 < m < 65536) by lia.
  pose proof (forallb2_seqZ roi_radius_at 256 256 roi_radius_all (m / 256) (m mod 256))
    as Hr.
  unfold roi_radius_at, create_circular_mask_circle in Hr. cbn [snd] in Hr.
  rewrite Z.min_id in Hr.
  replace (256 * (m / 256) + m mod 256) with m in Hr
    by (rewrite (Z.div_mod m 256) at 1; lia).
  specialize (Hr ltac:(split; [apply Z.div_pos; lia|apply Z.div_lt_upper_bound; lia])
                 ltac:(apply Z.mod_pos_bound; lia)).
  apply andb_prop in Hr as [H1 H2]. apply Z.leb_le in H1. apply Z.ltb_lt in H2.
  set (r := py_int _) in *.
  assert (Hreq : r = 17 * m / 40).
  { apply Z.div_unique with (17 * m - 40 * r); lia. }
  split; [exact Hreq|].
  assert (2 * (w / 2) ≤ w < 2 * (w / 2) + 2).
  { pose proof (Z.div_mod w 2). pose proof (Z.mod_pos_bound w 2). lia. }
  assert (2 * (h / 2) ≤ h < 2 * (h / 2) + 2).
  { pose proof (Z.div_mod h 2). pose proof (Z.mod_pos_bound h 2). lia. }
  assert (m ≤ h ∧ m ≤ w) by lia.
  clear Hreq. lia.
Qed.

Lemma roi_circle_inside_image_witness :
  let '((cx, cy), radius) := create_circular_mask_circle 3000 4000 ROI_RATIO in
  radius = 17 * Z.min 3000 4000 / 40
  ∧ 0 ≤ cx - radius ∧ cx + radius ≤ 4000 - 1
  ∧ 0 ≤ cy - radius ∧ cy + radius ≤ 3000 - 1.
Proof. apply (roi_circle_inside_image 3000 4000); lia. Defined.

(** [np.argmax] picks a maximal element, and the first one. *)
Lemma np_argmax_spec (l : list Z) :
  l ≠ [] →
  ∃ best, l !! np_argmax l = Some best
    ∧ (∀ j x, l !! j = Some x → x ≤ best)
    ∧ (∀ j x, l !! j = Some x → (j < np_argmax l)%nat → x < best).
Proof.
  induction l as [|x l IH]; [done|]. intros _. simpl.
  destruct l as [|y l].
  { simpl. exists x. split_and!; [done| |intros ? ? _ ?; lia].
    intros [|j] z; simpl; [intros [= ->]; lia|done]. }
  destruct IH as (best & Hbest & Hmax & Hfirst); [done|].
  rewrite Hbest. destruct (decide (x < best)) as [Hlt|Hge].
  - exists best. split_and!; [done| |].
    + intros [|j] z; simpl; [intros [= ->]; lia|apply Hmax].
    + intros [|j] z; simpl; [intros [= ->] _; lia|].
      intros Hz Hj. apply (Hfirst j z Hz). exact (proj2 (Nat.succ_lt_mono _ _) Hj).
  - exists x. split_and!; [done| |intros ? ? _ ?; lia].
    intros [|j] z; [intros [= ->]; lia|]. intros Hz.
    specialize (Hmax j z Hz). lia.
Qed.

(** X12: [keep_largest_component], for a labelling with one area per label.
    With fewer than two labels the mask is returned as it is.  Otherwise the
    result is a binary mask, 255 exactly on the pixels of one label [L ≥ 1]:
    the background label is never kept, whatever its area; no other label
    from 1 on has a larger area than [L], and among the labels of that area
    [L] is the smallest. *)
Theorem keep_largest_component_spec
    (connectedComponentsWithStats : list Z → Z * list Z * list Z)
    (mask labels areas : list Z) (num_labels : Z) :
  connectedComponentsWithStats mask = (num_labels, labels, areas) →
  Z.of_nat (length areas) = num_labels →
  let cleaned := keep_largest_component connectedComponentsWithStats mask in
  (num_labels < 2 → cleaned = mask)
  ∧ (2 ≤ num_labels →
     ∃ (L : nat) (area : Z),
       (1 ≤ L)%nat ∧ Z.of_nat L < num_labels
       ∧ cleaned = (λ l, if decide (l = Z.of_nat L) then 255 else 0) <$> labels
       ∧ areas !! L = Some area
       ∧ (∀ j a, (1 ≤ j)%nat → areas !! j = Some a → a ≤ area)
       ∧ (∀ j a, (1 ≤ j < L)%nat → areas !! j = Some a → a < area)).
Proof.
  intros Hcc Hlen cleaned. subst cleaned. unfold keep_largest_component.
  rewrite Hcc. split.
  - intros Hfew. by rewrite decide_True.
  - intros Hmany. rewrite decide_False by lia.
    destruct areas as [|a0 rest]; [simpl in Hlen; lia|].
    simpl drop. rewrite drop_0.
    destruct (np_argmax_spec rest) as (best & Hbest & Hmax & Hfirst).
    { intros ->. simpl in Hlen. lia. }
    exists (S (np_argmax rest)), best.
    assert (Hlt : (np_argmax rest < length rest)%nat)
      by (apply lookup_lt_is_Some; by eexists).
    split_and!.
    + lia.
    + simpl in Hlen. lia.
    + apply list_fmap_ext. intros _ l _.
      replace (1 + Z.of_nat (np_argmax rest)) with (Z.of_nat (S (np_argmax rest)))
        by lia. done.
    + done.
    + intros [|j] a Hj; [lia|]. simpl. apply Hmax.
    + intros [|j] a Hj; [lia|]. simpl. intros Ha. apply (Hfirst j a Ha). lia.
Qed.

Lemma keep_largest_component_spec_witness :
  let cc := λ _ : list Z, (3, [0; 1; 2; 2; 0; 0; 0], [4; 1; 2]) in
  let cleaned := keep_largest_component cc [0; 255; 255; 255; 0; 0; 0] in
  (3 < 2 → cleaned = [0; 255; 255; 255; 0; 0; 0])
  ∧ (2 ≤ 3 →
     ∃ (L : nat) (area : Z),
       (1 ≤ L)%nat ∧ Z.of_nat L < 3
       ∧ cleaned
         = (λ l, if decide (l = Z.of_nat L) then 255 else 0) <$> [0; 1; 2; 2; 0; 0; 0]
       ∧ [4; 1; 2] !! L = Some area
       ∧ (∀ j a, (1 ≤ j)%nat → [4; 1; 2] !! j = Some a → a ≤ area)
       ∧ (∀ j a, (1 ≤ j < L)%nat → [4; 1; 2] !! j = Some a → a < area)).
Proof.
  intros cc.
  apply (keep_largest_component_spec cc [0; 255; 255; 255; 0; 0; 0]
           [0; 1; 2; 2; 0; 0; 0] [4; 1; 2] 3); reflexivity.
Defined.

(* ===================================================================== *)
(** * The learned engine, frame by frame *)
(* ===================================================================== *)

Section LearnedFrames.
Context {raw session encoded : Type}.
Variable PROJECT_DIR : string.
Variable remove : raw → session → string + encoded.
Variable imdecode : encoded → option (list bgra).
Variable session_ : session.
Variable rd : gmap string raw.

Local Abbreviation OUT := (PreprocessIA.OUTPUT_DIR PROJECT_DIR).
Local Abbreviation ok := (survives remove imdecode session_ rd).
Local Abbreviation loop :=
  (PreprocessIA.sanitize_loop PROJECT_DIR remove imdecode session_).
Local Abbreviation try_ := (PreprocessIA.try_decode remove imdecode session_ rd).



(** The frame of the file at position [k] holds the rendering of its
    cut-out when the encoder takes it, and is left as it was when the
    encoder refuses it; names that are no frame name from [i] on are left
    alone. *)
Lemma learned_loop_content files i mp (w : world raw) dir :
  raw_dir w = rd → disk w !! OUT = Some dir →
  ∃ dir', disk (loop files i mp w).2 !! OUT = Some dir'
    ∧ (∀ (k : nat) f px, files !! k = Some f → try_ f = inr (Some px) →
         dir' !! frame_name (i + Z.of_nat k)
         = if jpeg_encodable w (PreprocessIA.render px)
           then Some (File (PreprocessIA.render px) ∅)
           else dir !! frame_name (i + Z.of_nat k))
    ∧ (∀ name, (∀ k : nat, name ≠ frame_name (i + Z.of_nat k)) →
         dir' !! name = dir !! name)
    ∧ (∀ d, d ≠ OUT → disk (loop files i mp w).2 !! d = disk w !! d).
Proof.
  revert i mp w dir.
  induction files as [|f files IH]; intros i mp w dir Hrd Hdir; simpl.
  { exists dir. split_and!; done. }
  rewrite Hrd. destruct (try_ f) as [e|[px|]] eqn:Htry.
  - destruct (IH (i + 1) mp (emit ERROR ("Error procesando " +:+ f +:+ ": " +:+ e) w)
                dir Hrd Hdir) as (dir' & Hdir' & Hnew & Hold & Hother).
    exists dir'. split_and!; [done| | |exact Hother].
    + intros [|k] g px'; simpl; [intros [= <-]; congruence|].
      intros Hk Hg. replace (i + Z.of_nat (S k)) with (i + 1 + Z.of_nat k)
        by lia. by rewrite (Hnew k g px' Hk Hg).
    + intros name Hname. apply Hold. intros k.
      replace (i + 1 + Z.of_nat k) with (i + Z.of_nat (S k)) by lia. apply Hname.
  - set (p := (OUT, Py.str (PreprocessIA.start_index + i) +:+ ".jpg")).
    change (Py.str (PreprocessIA.start_index + i) +:+ ".jpg") with (frame_name i) in p.
    assert (Hw1 : ∃ dir1,
              disk (imwrite p (PreprocessIA.render px) w) !! OUT = Some dir1
              ∧ dir1 !! frame_name i
                = (if jpeg_encodable w (PreprocessIA.render px)
                   then Some (File (PreprocessIA.render px) ∅)
                   else dir !! frame_name i)
              ∧ ∀ name, name ≠ frame_name i → dir1 !! name = dir !! name).
    { unfold p. destruct (encodes w (OUT, frame_name i) (PreprocessIA.render px)) eqn:He.
      - eexists. split; [by apply imwrite_disk_same|].
        rewrite encodes_frame in He. rewrite He.
        split; [by rewrite lookup_insert_eq|].
        intros name Hne. by rewrite lookup_insert_ne.
      - rewrite imwrite_refused by done. exists dir. split; [done|].
        rewrite encodes_frame in He. by rewrite He. }
    destruct Hw1 as (dir1 & Hdir1 & Hat1 & Hold1).
    destruct (IH (i + 1) (<[Py.stem f := p]> mp)
                (imwrite p (PreprocessIA.render px) w) dir1)
      as (dir' & Hdir' & Hnew & Hold & Hother).
    { by rewrite imwrite_raw_dir. }
    { exact Hdir1. }
    exists dir'. split_and!; [done| | |].
    + intros [|k] g px'; simpl.
      * intros [= <-] Hg. rewrite Htry in Hg. injection Hg as <-.
        rewrite Z.add_0_r, Hold; [done|].
        intros k E. apply frame_name_inj in E. lia.
      * intros Hk Hg. replace (i + Z.of_nat (S k)) with (i + 1 + Z.of_nat k)
          by lia. rewrite (Hnew k g px' Hk Hg), imwrite_jpeg_encodable.
        rewrite Hold1; [done|]. intros E. apply frame_name_inj in E. lia.
    + intros name Hname. rewrite Hold.
      * apply Hold1. specialize (Hname 0%nat).
        rewrite Z.add_0_r in Hname. done.
      * intros k. replace (i + 1 + Z.of_nat k) with (i + Z.of_nat (S k)) by lia.
        apply Hname.
    + intros d Hd. rewrite Hother by done. unfold p. by rewrite imwrite_disk_other.
  - destruct (IH (i + 1) mp (emit WARNING ("Decodificación fallida para " +:+ f) w)
                dir Hrd Hdir) as (dir' & Hdir' & Hnew & Hold & Hother).
    exists dir'. split_and!; [done| | |exact Hother].
    + intros [|k] g px'; simpl; [intros [= <-]; congruence|].
      intros Hk Hg. replace (i + Z.of_nat (S k)) with (i + 1 + Z.of_nat k)
        by lia. by rewrite (Hnew k g px' Hk Hg).
    + intros name Hname. apply Hold. intros k.
      replace (i + 1 + Z.of_nat k) with (i + Z.of_nat (S k)) by lia. apply Hname.
Qed.

End LearnedFrames.

Lemma elem_of_survivor_indices (ok : string → bool) files i (z : Z) :
  z ∈ survivor_indices ok files i
  ↔ ∃ (k : nat) f, files !! k = Some f ∧ ok f = true ∧ z = i + Z.of_nat k.
Proof.
  revert i. induction files as [|f files IH]; intros i; simpl.
  { split; [by intros ?%elem_of_nil|]. intros (k & g & Hk & _). by rewrite lookup_nil in Hk. }
  assert (Hrest : z ∈ survivor_indices ok files (i + 1)
                  ↔ ∃ (k : nat) g, (f :: files) !! S k = Some g ∧ ok g = true
                                   ∧ z = i + Z.of_nat (S k)).
  { rewrite IH. split; intros (k & g & Hk & Hg & ->); exists k, g;
      (split_and!; [done|done|lia]). }
  destruct (ok f) eqn:Hf.
  - rewrite elem_of_cons, Hrest. split.
    + intros [->|(k & g & ?)]; [exists 0%nat, f; split_and!; [done|done|lia]|].
      by exists (S k), g.
    + intros ([|k] & g & Hk & Hg & ->); [left; lia|]. right. by exists k, g.
  - rewrite Hrest. split.
    + intros (k & g & ?). by exists (S k), g.
    + intros ([|k] & g & Hk & Hg & ->); [|by exists k, g].
      simpl in Hk. injection Hk as <-. congruence.
Qed.

Lemma survivor_indices_ext (ok ok' : string → bool) files i :
  (∀ f, ok f = ok' f) → survivor_indices ok files i = survivor_indices ok' files i.
Proof.
  intros Hext. revert i. induction files as [|f files IH]; intros i; simpl; [done|].
  by rewrite Hext, IH.
Qed.

Lemma size_list_to_set_le (l : list string) :
  (size (list_to_set l : gset string) ≤ length l)%nat.
Proof.
  induction l as [|x l IH]; [done|]. rewrite list_to_set_cons. simpl length.
  destruct (decide (x ∈ (list_to_set l : gset string))) as [Hin|Hout].
  - replace ({[x]} ∪ list_to_set l) with (list_to_set l : gset string)
      by set_solver. lia.
  - rewrite size_union by set_solver. rewrite size_singleton. lia.
Qed.

(** The sanitization of the learned engine, as one statement. *)
Lemma sanitize_images_spec
    {raw session encoded : Type} (PROJECT_DIR : string)
    (new_session : string → string + session)
    (remove : raw → session → string + encoded)
    (imdecode : encoded → option (list bgra))
    (w : world raw) (session_ : session) :
  new_session "u2net" = inr session_ →
  let files :=
    Py.sorted (ext ← PreprocessIA.extensions; Py.path_glob ext (listdir w)) in
  let res := PreprocessIA.sanitize_images PROJECT_DIR new_session remove imdecode w in
  ∃ dir',
    disk res.2 !! PreprocessIA.OUTPUT_DIR PROJECT_DIR = Some dir'
    ∧ (∀ name, name ∈ dom dir'
         ↔ ∃ (k : nat) f, files !! k = Some f
             ∧ frame_written remove imdecode session_ (raw_dir w)
                 (jpeg_encodable w) f = true
             ∧ name = frame_name (Z.of_nat k))
    ∧ (∀ (k : nat) f px, files !! k = Some f →
         PreprocessIA.try_decode remove imdecode session_ (raw_dir w) f
         = inr (Some px) →
         dir' !! frame_name (Z.of_nat k)
         = if jpeg_encodable w (PreprocessIA.render px)
           then Some (File (PreprocessIA.render px) ∅) else None)
    ∧ (∀ A p, res.1 !! A = Some p →
         ∃ (k : nat) f, files !! k = Some f
           ∧ survives remove imdecode session_ (raw_dir w) f = true
           ∧ Py.stem f = A
           ∧ p = (PreprocessIA.OUTPUT_DIR PROJECT_DIR, frame_name (Z.of_nat k)))
    ∧ ((∀ img, jpeg_encodable w img = true) → (size res.1 ≤ size dir')%nat)
    ∧ (∀ d, d ≠ PreprocessIA.OUTPUT_DIR PROJECT_DIR →
         disk res.2 !! d = disk w !! d).
Proof.
  intros Hsession files res. subst res. unfold PreprocessIA.sanitize_images.
  change (listdir (recreate _ w)) with (listdir w).
  destruct (decide (_ = [])) as [Hnil|Hne].
  { assert (Hfiles : files = []).
    { subst files. rewrite Hnil. apply Permutation_nil_r. by rewrite sorted_permutation. }
    exists ∅. cbn [fst snd]. rewrite Hfiles. split_and!.
    - apply recreate_disk_same.
    - intros name. rewrite dom_empty_L. split; [by intros ?%elem_of_empty|].
      intros (k & f & Hk & _). by rewrite lookup_nil in Hk.
    - intros k f px Hk. by rewrite lookup_nil in Hk.
    - intros A p. by rewrite lookup_empty.
    - by rewrite !map_size_empty.
    - intros d Hd. simpl. by rewrite lookup_insert_ne. }
  rewrite Hsession. fold files.
  match goal with
  | |- context [PreprocessIA.sanitize_loop _ _ _ _ _ _ _ ?w0] => set (w1 := w0)
  end.
  destruct (learned_loop_content PROJECT_DIR remove imdecode session_ (raw_dir w)
              files 0 ∅ w1 ∅) as (dir' & Hdir' & Hnew & _ & Hother).
  { reflexivity. }
  { apply recreate_disk_same. }
  destruct (learned_loop_dir PROJECT_DIR remove imdecode session_ (raw_dir w)
              files 0 ∅ w1 ∅) as (dir2 & Hdir2 & Hdom).
  { reflexivity. }
  { apply recreate_disk_same. }
  rewrite Hdir' in Hdir2. injection Hdir2 as <-.
  rewrite dom_empty_L, (left_id_L ∅ (∪)) in Hdom.
  change (jpeg_encodable w1) with (jpeg_encodable w) in Hdom, Hnew.
  exists dir'. split_and!.
  - exact Hdir'.
  - intros name. rewrite Hdom, elem_of_list_to_set, list_elem_of_fmap. split.
    + intros (z & -> & Hz). apply elem_of_survivor_indices in Hz as (k & f & ? & ? & ->).
      exists k, f. split_and!; done.
    + intros (k & f & Hk & Hf & ->). exists (Z.of_nat k). split; [done|].
      apply elem_of_survivor_indices. exists k, f. split_and!; [done|done|lia].
  - intros k f px Hk Hf. rewrite <- (lookup_empty (frame_name (0 + Z.of_nat k))).
    rewrite <- (Hnew k f px Hk Hf). f_equal.
  - intros A p HA.
    apply (learned_loop_mapping _ _ _ _ (raw_dir w)) in HA; [|reflexivity].
    destruct HA as [HA|(k & f & Hk & Hf & Hst & ->)]; [by rewrite lookup_empty in HA|].
    exists k, f. split_and!; try done.
  - intros Hall. rewrite <- !size_dom, Hdom.
    rewrite (survivor_indices_ext _ (survives remove imdecode session_ (raw_dir w))).
    2:{ intros f. unfold frame_written, survives.
        destruct (PreprocessIA.try_decode _ _ _ _ _) as [e|[px|]]; [done| |done].
        apply Hall. }
    rewrite (learned_loop_keys _ _ _ _ (raw_dir w)) by reflexivity.
    rewrite dom_empty_L, (left_id_L ∅ (∪)).
    rewrite (size_list_to_set (frame_name <$> _))
      by (apply frame_names_NoDup, survivor_indices_NoDup).
    rewrite length_fmap, survivor_indices_length.
    etransitivity; [apply size_list_to_set_le|]. by rewrite length_fmap.
  - intros d Hd. rewrite Hother by done. unfold w1. simpl.
    by rewrite lookup_insert_ne.
Qed.

(** X13: the learned engine with a session that starts.  The output
    directory ends up holding exactly the frames [1000+k] of the positions
    [k], in the ascending order of the discovered file names, whose file
    yields a cut-out that the encoder takes; such a frame holds the
    rendering of that cut-out and no metadata, and the frame of a cut-out
    the encoder refuses is missing.  Every entry of the mapping names the
    frame of a discovered file with that stem that yields a cut-out,
    whether or not the frame was written.  When the encoder refuses no
    image the mapping has no more entries than there are frames.  No
    directory but the output directory changes. *)
Theorem learned_frames_by_position
    {raw session encoded : Type} (PROJECT_DIR : string)
    (new_session : string → string + session)
    (remove : raw → session → string + encoded)
    (imdecode : encoded → option (list bgra))
    (w : world raw) (session_ : session) :
  new_session "u2net" = inr session_ →
  let files :=
    Py.sorted (ext ← PreprocessIA.extensions; Py.path_glob ext (listdir w)) in
  let res := PreprocessIA.sanitize_images PROJECT_DIR new_session remove imdecode w in
  ∃ dir',
    disk res.2 !! PreprocessIA.OUTPUT_DIR PROJECT_DIR = Some dir'
    ∧ (∀ name, name ∈ dom dir'
         ↔ ∃ (k : nat) f, files !! k = Some f
             ∧ frame_written remove imdecode session_ (raw_dir w)
                 (jpeg_encodable w) f = true
             ∧ name = frame_name (Z.of_nat k))
    ∧ (∀ (k : nat) f px, files !! k = Some f →
         PreprocessIA.try_decode remove imdecode session_ (raw_dir w) f
         = inr (Some px) →
         dir' !! frame_name (Z.of_nat k)
         = if jpeg_encodable w (PreprocessIA.render px)
           then Some (File (PreprocessIA.render px) ∅) else None)
    ∧ (∀ A p, res.1 !! A = Some p →
         ∃ (k : nat) f, files !! k = Some f
           ∧ survives remove imdecode session_ (raw_dir w) f = true
           ∧ Py.stem f = A
           ∧ p = (PreprocessIA.OUTPUT_DIR PROJECT_DIR, frame_name (Z.of_nat k)))
    ∧ ((∀ img, jpeg_encodable w img = true) → (size res.1 ≤ size dir')%nat)
    ∧ (∀ d, d ≠ PreprocessIA.OUTPUT_DIR PROJECT_DIR →
         disk res.2 !! d = disk w !! d).
Proof. apply sanitize_images_spec. Qed.





Lemma learned_frames_by_position_witness :
  let w := Worlds.one_corrupt in
  let files :=
    Py.sorted (ext ← PreprocessIA.extensions; Py.path_glob ext (listdir w)) in
  let res := PreprocessIA.sanitize_images "/p" Demo.new_session Demo.remove
               Demo.imdecode w in
  ∃ dir',
    disk res.2 !! PreprocessIA.OUTPUT_DIR "/p" = Some dir'
    ∧ (∀ name, name ∈ dom dir'
         ↔ ∃ (k : nat) f, files !! k = Some f
             ∧ frame_written Demo.remove Demo.imdecode () (raw_dir w)
                 (jpeg_encodable w) f = true
             ∧ name = frame_name (Z.of_nat k))
    ∧ (∀ (k : nat) f px, files !! k = Some f →
         PreprocessIA.try_decode Demo.remove Demo.imdecode () (raw_dir w) f
         = inr (Some px) →
         dir' !! frame_name (Z.of_nat k)
         = if jpeg_encodable w (PreprocessIA.render px)
           then Some (File (PreprocessIA.render px) ∅) else None)
    ∧ (∀ A p, res.1 !! A = Some p →
         ∃ (k : nat) f, files !! k = Some f
           ∧ survives Demo.remove Demo.imdecode () (raw_dir w) f = true
           ∧ Py.stem f = A
           ∧ p = (PreprocessIA.OUTPUT_DIR "/p", frame_name (Z.of_nat k)))
    ∧ ((∀ img, jpeg_encodable w img = true) → (size res.1 ≤ size dir')%nat)
    ∧ (∀ d, d ≠ PreprocessIA.OUTPUT_DIR "/p" → disk res.2 !! d = disk w !! d).
Proof.
  intros w.
  apply (learned_frames_by_position "/p" Demo.new_session Demo.remove
           Demo.imdecode w ()).
  reflexivity.
Defined.


(** A frame the encoder refuses keeps its entry in the mapping.  With an
    encoder that takes images of one pixel only, standing for the size limit
    of the JPEG format, the two-pixel [a.jpg] and [b.jpg] both have an
    entry, and only [1001.jpg] is on the disk. *)
Example learned_refused_frame_stays_in_map :
  let wide := Demo.Photo (Some [Bgr 1 2 3; Bgr 4 5 6]) ∅ in
  let w : world Demo.photo :=
    MkWorld {["a.jpg" := wide; "b.jpg" := Demo.good ∅]} ∅ true []
            (λ img, match img with Color [_] => true | _ => false end) in
  let res := Demo.learned_sanitize w in
  res.1 !! "a" = Some (Demo.out_dir, "1000.jpg")
  ∧ res.1 !! "b" = Some (Demo.out_dir, "1001.jpg")
  ∧ Demo.names_in Demo.out_dir res.2 = ["1001.jpg"].
Proof. repeat split; by vm_compute. Qed.

(* ===================================================================== *)
(** * Rendering a cut-out *)
(* ===================================================================== *)

Lemma render_pointwise (px : list bgra) :
  PreprocessIA.render px = Color (render_pixel <$> px).
Proof.
  unfold PreprocessIA.render, Cv2.split4. cbn [PreprocessIA.APPLY_DESPILL].
  rewrite merge3_fmap.
  rewrite green_spill_reduction_pointwise by (by rewrite !length_fmap).
  unfold PreprocessIA.composite. f_equal.
  induction px as [|p px IH]; [done|]. simpl. f_equal. exact IH.
Qed.

Lemma despill_pixel_bounds (p : bgr Z) (m : Z) :
  uint8_pixel p →
  let q := despill_pixel p m in
  blue q = blue p ∧ red q = red p ∧ 0 ≤ green q ≤ green p
  ∧ (m ≤ 0 ∨ 2 * green p ≤ red p + blue p → green q = green p).
Proof.
  intros Hpx. pose proof Hpx as (Hb & Hg & Hr).
  unfold despill_pixel. simpl. rewrite !uint8_roundtrip by done.
  split; [done|]. split; [done|].
  rewrite rb_avg_half_sum by done.
  pose proof (blend_between_all (green p) (red p + blue p) Hg) as Hchk.
  unfold blend_between_at in Hchk. unfold Np.is_uint8 in *.
  specialize (Hchk ltac:(lia)).
  destruct (PrimFloat.ltb _ _) eqn:Hlt; simpl.
  - unbool. destruct (bool_decide (0 < m)) eqn:Hm.
    + apply bool_decide_eq_true in Hm. split; [lia|]. intros [?|?]; lia.
    + rewrite uint8_roundtrip by done. split; [lia|done].
  - rewrite uint8_roundtrip by done. split; [lia|done].
Qed.

Lemma composite_sample_bounds (c a : Z) :
  Np.is_uint8 c → Np.is_uint8 a →
  let o := PreprocessIA.composite_sample c a in
  0 ≤ o ≤ c ∧ (a = 0 → o = 0) ∧ (a = 255 → o = c).
Proof.
  intros Hc Ha. pose proof (composite_all c a Hc Ha) as Hchk.
  unfold composite_at in Hchk. unfold Np.is_uint8 in *. simpl.
  apply andb_prop in Hchk as [Hchk Himp]. unbool.
  split; [nia|]. split; [intros ->; lia|].
  intros ->. rewrite Z.eqb_refl in Himp. simpl in Himp. by apply Z.eqb_eq.
Qed.

(** X15: the frame the learned engine writes for a decoded cut-out with
    [uint8] samples has the size of the cut-out, and pixel by pixel: its
    samples are [uint8] values none of which exceeds the corresponding sample
    of the cut-out (the rendering never brightens); a fully transparent pixel
    becomes black; a fully opaque pixel whose green does not exceed the
    red/blue average is copied unchanged. *)
Theorem render_never_brightens (px : list bgra) :
  Forall uint8_pixel4 px →
  ∃ out,
    PreprocessIA.render px = Color out
    ∧ length out = length px
    ∧ ∀ i p q, px !! i = Some p → out !! i = Some q →
        uint8_pixel q
        ∧ blue q ≤ blue4 p ∧ green q ≤ green4 p ∧ red q ≤ red4 p
        ∧ (alpha4 p = 0 → q = Bgr 0 0 0)
        ∧ (alpha4 p = 255 → 2 * green4 p ≤ red4 p + blue4 p →
           q = Bgr (blue4 p) (green4 p) (red4 p)).
Proof.
  intros Hu8. exists (render_pixel <$> px).
  split; [apply render_pointwise|]. split; [by rewrite length_fmap|].
  intros i p q Hp Hq. rewrite list_lookup_fmap, Hp in Hq. injection Hq as <-.
  assert (Hpx : uint8_pixel4 p) by (eapply Forall_lookup_1; eauto).
  destruct Hpx as (Hb & Hg & Hr & Ha).
  pose proof (despill_pixel_bounds (Bgr (blue4 p) (green4 p) (red4 p)) (alpha4 p))
    as Hd. cbv zeta in Hd. unfold render_pixel.
  set (q := despill_pixel _ _) in *.
  destruct Hd as (Hqb & Hqr & Hqg & Hsame); [done|].
  cbn [blue green red] in Hqb, Hqr, Hqg, Hsame.
  assert (Hub : Np.is_uint8 (blue q)) by (by rewrite Hqb).
  assert (Hur : Np.is_uint8 (red q)) by (by rewrite Hqr).
  assert (Hug : Np.is_uint8 (green q)) by (unfold Np.is_uint8 in *; lia).
  destruct (composite_sample_bounds (blue q) (alpha4 p) Hub Ha) as (Bb & Bb0 & Bb1).
  destruct (composite_sample_bounds (green q) (alpha4 p) Hug Ha) as (Bg & Bg0 & Bg1).
  destruct (composite_sample_bounds (red q) (alpha4 p) Hur Ha) as (Br & Br0 & Br1).
  cbv zeta in *. unfold uint8_pixel, Np.is_uint8 in *. cbn [blue green red].
  split_and!; try lia.
  - intros H0. by rewrite Bb0, Bg0, Br0.
  - intros H1 Hns. rewrite Bb1, Bg1, Br1 by done.
    rewrite Hqb, Hqr, Hsame by (right; lia). done.
Qed.

Lemma render_never_brightens_witness :
  ∃ out,
    PreprocessIA.render [Bgra 10 200 30 128; Bgra 90 40 80 255; Bgra 7 8 9 0]
    = Color out
    ∧ length out = length [Bgra 10 200 30 128; Bgra 90 40 80 255; Bgra 7 8 9 0]
    ∧ ∀ i p q,
        [Bgra 10 200 30 128; Bgra 90 40 80 255; Bgra 7 8 9 0] !! i = Some p →
        out !! i = Some q →
        uint8_pixel q
        ∧ blue q ≤ blue4 p ∧ green q ≤ green4 p ∧ red q ≤ red4 p
        ∧ (alpha4 p = 0 → q = Bgr 0 0 0)
        ∧ (alpha4 p = 255 → 2 * green4 p ≤ red4 p + blue4 p →
           q = Bgr (blue4 p) (green4 p) (red4 p)).
Proof.
  apply (render_never_brightens
           [Bgra 10 200 30 128; Bgra 90 40 80 255; Bgra 7 8 9 0]).
  repeat constructor; vm_compute; congruence.
Defined.

Lemma composite_mono_all :
  forallb (λ c, forallb (composite_mono_at c) (seqZ 0 255)) (seqZ 0 256) = true.
Proof. by vm_compute. Qed.

Lemma composite_mono_sample_all :
  forallb (λ c, forallb (composite_mono_sample_at c) (seqZ 0 256)) (seqZ 0 255) = true.
Proof. by vm_compute. Qed.

(** X16: compositing over black is monotone: for [uint8] operands, a larger
    alpha never gives a darker sample, and neither does a larger input
    sample. *)
Theorem composite_sample_monotone (c c' a a' : Z) :
  0 ≤ c ≤ c' → c' < 256 → 0 ≤ a ≤ a' → a' < 256 →
  PreprocessIA.composite_sample c a ≤ PreprocessIA.composite_sample c' a'.
Proof.
  intros Hc Hc' Ha Ha'.
  assert (Halpha : ∀ x n, 0 ≤ x < 256 → 0 ≤ n → 0 ≤ a → a + n < 256 →
            PreprocessIA.composite_sample x a
            ≤ PreprocessIA.composite_sample x (a + n)).
  { intros x n Hx Hn. revert n Hn.
    apply (natlike_ind (λ n, 0 ≤ a → a + n < 256 →
             PreprocessIA.composite_sample x a
             ≤ PreprocessIA.composite_sample x (a + n))).
    - intros _ _. by rewrite Z.add_0_r.
    - intros n Hn IH H0 Hlt. specialize (IH H0 ltac:(lia)).
      pose proof (forallb2_seqZ composite_mono_at 256 255 composite_mono_all
                    x (a + n) ltac:(lia) ltac:(lia)) as Hstep.
      unfold composite_mono_at in Hstep. apply Z.leb_le in Hstep.
      replace (a + Z.succ n) with (a + n + 1) by lia. lia. }
  assert (Hsample : ∀ y n, 0 ≤ y < 256 → 0 ≤ n → 0 ≤ c → c + n < 256 →
            PreprocessIA.composite_sample c y
            ≤ PreprocessIA.composite_sample (c + n) y).
  { intros y n Hy Hn. revert n Hn.
    apply (natlike_ind (λ n, 0 ≤ c → c + n < 256 →
             PreprocessIA.composite_sample c y
             ≤ PreprocessIA.composite_sample (c + n) y)).
    - intros _ _. by rewrite Z.add_0_r.
    - intros n Hn IH H0 Hlt. specialize (IH H0 ltac:(lia)).
      pose proof (forallb2_seqZ composite_mono_sample_at 255 256
                    composite_mono_sample_all (c + n) y ltac:(lia) ltac:(lia))
        as Hstep.
      unfold composite_mono_sample_at in Hstep. apply Z.leb_le in Hstep.
      replace (c + Z.succ n) with (c + n + 1) by lia. lia. }
  etransitivity.
  - apply (Halpha c (a' - a)); lia.
  - replace (a + (a' - a)) with a' by lia.
    replace c' with (c + (c' - c)) by lia. apply Hsample; lia.
Qed.

Lemma composite_sample_monotone_witness :
  PreprocessIA.composite_sample 100 50 ≤ PreprocessIA.composite_sample 200 128.
Proof. apply (composite_sample_monotone 100 200 50 128); lia. Defined.

(* ===================================================================== *)
(** * From the sanitization engines to the orchestrator *)
(* ===================================================================== *)

Lemma substring_all (s : string) : substring 0 (String.length s) s = s.
Proof. induction s as [|c s IH]; [done|]. simpl. by rewrite IH. Qed.

Lemma substring_app_r (s t : string) :
  substring (String.length s) (String.length t) (s +:+ t) = t.
Proof. induction s as [|c s IH]; simpl; [apply substring_all|exact IH]. Qed.

Lemma endswith_app (s suffix : string) : Py.endswith (s +:+ suffix) suffix = true.
Proof.
  unfold Py.endswith. rewrite string_length_app.
  rewrite bool_decide_eq_true_2 by lia.
  replace (String.length s + String.length suffix - String.length suffix)%nat
    with (String.length s) by lia.
  rewrite substring_app_r. simpl. apply String.eqb_refl.
Qed.

Lemma frames_all_counted (X : gset string) :
  (∀ f, f ∈ X → ∃ k, f = frame_name k) →
  length (filter (λ f, Py.endswith f ".jpg" = true) (elements X)) = size X.
Proof.
  intros Hframes. rewrite filter_all; [done|].
  apply Forall_forall. intros f Hf.
  apply elem_of_elements, Hframes in Hf as (k & ->).
  apply endswith_app.
Qed.

Lemma string_app_assoc (a b c : string) : (a +:+ b) +:+ c = a +:+ (b +:+ c).
Proof. induction a as [|x a IH]; [done|]. simpl. by rewrite IH. Qed.

Lemma sep_after_data (s : string) : Py.sep_after (s +:+ "data") = "/".
Proof.
  assert (Hend : Py.endswith (s +:+ "data") "/" = false).
  { unfold Py.endswith. rewrite string_length_app.
    rewrite bool_decide_eq_true_2 by (simpl; lia).
    change (s +:+ "data") with (s +:+ ("dat" +:+ "a")).
    rewrite <- string_app_assoc.
    replace (String.length s + String.length "data" - String.length "/")%nat
      with (String.length (s +:+ "dat")) by (rewrite string_length_app; simpl; lia).
    change (String.length "/") with (String.length "a").
    by rewrite (substring_app_r (s +:+ "dat") "a"). }
  unfold Py.sep_after. rewrite Hend. by destruct s.
Qed.

(** X17: the three programs agree on the directory of the sanitized frames,
    and the orchestrator's test [f.endswith('.jpg')] counts every file either
    engine leaves there: with both environment variables set, the
    orchestrator's preconditions hold on the directory an engine has written
    exactly when that directory holds at least three files. *)
Theorem orchestrator_counts_every_frame
    {raw session encoded : Type} (PROJECT_DIR : string)
    (new_session : string → string + session)
    (remove : raw → session → string + encoded)
    (imdecode : encoded → option (list bgra))
    (temp_map : gmap string path) (w : world raw)
    (m : Pipeline.machine) (dir' : gmap string file) :
  Pipeline.truthy (Pipeline.ALICEVISION_BIN m) = true →
  Pipeline.truthy (Pipeline.SENSOR_DB m) = true →
  Pipeline.sanitized m = Some (elements (dom dir')) →
  disk (Preprocess.stage_2_sanitization PROJECT_DIR temp_map w).2
    !! Pipeline.INPUT_IMAGES_DIR PROJECT_DIR = Some dir'
  ∨ disk (PreprocessIA.sanitize_images PROJECT_DIR new_session remove imdecode w).2
      !! Pipeline.INPUT_IMAGES_DIR PROJECT_DIR = Some dir' →
  Pipeline.INPUT_IMAGES_DIR PROJECT_DIR = Preprocess.OUTPUT_FINAL_DIR PROJECT_DIR
  ∧ Pipeline.INPUT_IMAGES_DIR PROJECT_DIR = PreprocessIA.OUTPUT_DIR PROJECT_DIR
  ∧ (preconditions m = true ↔ (3 ≤ size dir')%nat).
Proof.
  intros Hbin Hdb Hsan Hdir.
  assert (E1 : Pipeline.INPUT_IMAGES_DIR PROJECT_DIR
               = Preprocess.OUTPUT_FINAL_DIR PROJECT_DIR) by reflexivity.
  assert (E2 : Pipeline.INPUT_IMAGES_DIR PROJECT_DIR
               = PreprocessIA.OUTPUT_DIR PROJECT_DIR).
  { unfold Pipeline.INPUT_IMAGES_DIR, PreprocessIA.OUTPUT_DIR, Py.join.
    rewrite <- (string_app_assoc PROJECT_DIR (Py.sep_after PROJECT_DIR) "data").
    rewrite sep_after_data.
    by rewrite !string_app_assoc. }
  split; [exact E1|]. split; [exact E2|].
  assert (Hframes : ∀ f, f ∈ dom dir' → ∃ k, f = frame_name k).
  { assert (Hsub : ∀ ks, dom dir' ⊆ list_to_set (frame_name <$> ks) →
                         ∀ f, f ∈ dom dir' → ∃ k, f = frame_name k).
    { intros ks Hks f Hf. apply Hks in Hf.
      apply elem_of_list_to_set, list_elem_of_fmap in Hf as (k & -> & _). by exists k. }
    destruct Hdir as [Hdir|Hdir].
    - rewrite E1 in Hdir. revert Hdir. unfold Preprocess.stage_2_sanitization.
      edestruct (stage_2_loop_inv (raw := raw) PROJECT_DIR temp_map
                   (Py.sorted (elements (dom temp_map))) ∅ 0)
        as (n & dir2 & _ & Hdir2 & Hdom & _).
      + apply recreate_disk_same.
      + apply sorted_strongly.
      + intros ? ? Hin. by rewrite dom_empty_L in Hin.
      + intros ? ? Hin. by rewrite lookup_empty in Hin.
      + intros ? ? ? ? Hin. by rewrite lookup_empty in Hin.
      + done.
      + rewrite Hdir2. intros [= <-].
        rewrite dom_empty_L, (left_id_L ∅ (∪)) in Hdom. by eapply Hsub.
    - rewrite E2 in Hdir. revert Hdir. unfold PreprocessIA.sanitize_images.
      change (listdir (recreate _ w)) with (listdir w).
      destruct (decide (_ = [])) as [Hnil|Hne].
      { cbn [fst snd]. change (disk (emit _ _ ?w0)) with (disk w0).
        rewrite recreate_disk_same. intros [= <-] f. by rewrite dom_empty_L. }
      destruct (new_session "u2net") as [e|session_].
      { cbn [fst snd]. change (disk (emit _ _ (emit _ _ ?w0))) with (disk w0).
        rewrite recreate_disk_same. intros [= <-] f. by rewrite dom_empty_L. }
      match goal with
      | |- context [PreprocessIA.sanitize_loop _ _ _ _ ?fs _ _ ?w0] =>
          destruct (learned_loop_dir PROJECT_DIR remove imdecode session_ (raw_dir w)
                      fs 0 ∅ w0 ∅) as (dir2 & Hdir2 & Hdom);
            [reflexivity|apply recreate_disk_same|]
      end.
      rewrite Hdir2. intros [= <-].
      rewrite dom_empty_L, (left_id_L ∅ (∪)) in Hdom.
      eapply Hsub. by rewrite Hdom. }
  unfold preconditions. rewrite Hbin, Hdb, Hsan. simpl.
  rewrite (frames_all_counted (dom dir') Hframes), size_dom.
  apply bool_decide_eq_true.
Qed.

Lemma orchestrator_counts_every_frame_witness :
  let dir' : gmap string file := {["1000.jpg" := File (Color [Bgr 10 20 30]) ∅]} in
  let m := Pipeline.Machine (Some "/opt/av/bin") (Some "/opt/av/db")
             (Some (elements (dom dir'))) None [] [] in
  Pipeline.INPUT_IMAGES_DIR "/p" = Preprocess.OUTPUT_FINAL_DIR "/p"
  ∧ Pipeline.INPUT_IMAGES_DIR "/p" = PreprocessIA.OUTPUT_DIR "/p"
  ∧ (preconditions m = true ↔ (3 ≤ size dir')%nat).
Proof.
  intros dir' m.
  apply (orchestrator_counts_every_frame "/p" Demo.new_session Demo.remove
           Demo.imdecode (stage_1_of Worlds.rotated).1 (stage_1_of Worlds.rotated).2
           m dir').
  - reflexivity.
  - reflexivity.
  - reflexivity.
  - left. by vm_compute.
Defined.

(* ===================================================================== *)
(** * The calibration tool's choice of files *)
(* ===================================================================== *)

Lemma substring_split (s : string) (i : nat) :
  (i ≤ String.length s)%nat →
  s = substring 0 i s +:+ substring i (String.length s - i) s.
Proof.
  revert i. induction s as [|c s IH]; intros [|i] Hi; simpl in *; try lia.
  - done.
  - by rewrite substring_all.
  - f_equal. apply IH. lia.
Qed.

Lemma endswith_iff (s suffix : string) :
  Py.endswith s suffix = true ↔ is_suffix suffix s.
Proof.
  split.
  - unfold Py.endswith. intros [Hle Heq]%andb_prop.
    apply bool_decide_eq_true in Hle. apply String.eqb_eq in Heq.
    exists (substring 0 (String.length s - String.length suffix) s).
    rewrite <- Heq at 2.
    rewrite (substring_split s (String.length s - String.length suffix)) at 1 by lia.
    do 2 f_equal. lia.
  - intros [pre ->]. apply endswith_app.
Qed.

Lemma lower_app (a b : string) :
  Tuner.lower (a +:+ b) = Tuner.lower a +:+ Tuner.lower b.
Proof. induction a as [|c a IH]; [done|]. simpl. by rewrite IH. Qed.

(** A suffix whose first character does not occur in [pre] lies within what
    follows [pre]. *)
Lemma is_suffix_past (pre s suffix : string) (c : ascii) (rest : string) :
  suffix = String c rest →
  (∀ a b, pre ≠ a +:+ String c b) →
  is_suffix suffix (pre +:+ s) → is_suffix suffix s.
Proof.
  intros -> Hfree. induction pre as [|d pre IH]; [done|].
  intros [z Hz]. destruct z as [|d' z]; simpl in Hz.
  - injection Hz as -> Hz. exfalso. apply (Hfree EmptyString pre). done.
  - injection Hz as <- Hz. apply IH.
    + intros a b ->. apply (Hfree (String d a) b). done.
    + by exists z.
Qed.

Lemma no_dot_in_input_dir (a b : string) :
  Tuner.lower (Tuner.INPUT_DIR +:+ "/") ≠ a +:+ String "."%char b.
Proof.
  vm_compute (Tuner.lower _). intros H.
  repeat (destruct a as [|? a]; simpl in H; [discriminate H|injection H as _ H]).
  destruct a; discriminate H.
Qed.

Lemma tuner_test_iff (f : string) :
  existsb (Py.endswith (Tuner.lower (Py.join Tuner.INPUT_DIR f))) Tuner.valid_exts = true
  ↔ is_suffix ".jpg" (Tuner.lower f) ∨ is_suffix ".jpeg" (Tuner.lower f)
    ∨ is_suffix ".png" (Tuner.lower f).
Proof.
  unfold Py.join. rewrite <- string_app_assoc, lower_app.
  assert (Hpast : ∀ suffix rest, suffix = String "."%char rest →
            Py.endswith (Tuner.lower (Tuner.INPUT_DIR +:+ "/") +:+ Tuner.lower f) suffix
            = true ↔ is_suffix suffix (Tuner.lower f)).
  { intros suffix rest Hs. rewrite endswith_iff. split.
    - apply (is_suffix_past _ _ _ _ _ Hs). apply no_dot_in_input_dir.
    - intros [pre ->]. exists (Tuner.lower (Tuner.INPUT_DIR +:+ "/") +:+ pre).
      by rewrite string_app_assoc. }
  unfold Tuner.valid_exts. simpl existsb. rewrite orb_false_r, !orb_true_iff.
  by rewrite !(Hpast _ _ eq_refl).
Qed.

(** X18: the calibration tool offers exactly the visible entries of the
    input directory whose name, lowered, ends in [.jpg], [.jpeg] or [.png].
    Every file the sanitization engines' classical discovery finds is among
    them; and when there is a candidate at all, the sample chosen is one of
    them. *)
Theorem tuner_files_spec (names : list string) :
  (∀ p, p ∈ Tuner.files names
     ↔ ∃ f, p = Py.join Tuner.INPUT_DIR f ∧ f ∈ names ∧ Py.ishidden f = false
         ∧ (is_suffix ".jpg" (Tuner.lower f) ∨ is_suffix ".jpeg" (Tuner.lower f)
            ∨ is_suffix ".png" (Tuner.lower f)))
  ∧ (∀ f, f ∈ (ext ← Preprocess.extensions; Py.glob ext names) →
       Py.join Tuner.INPUT_DIR f ∈ Tuner.files names)
  ∧ (Tuner.files names ≠ [] →
     ∃ p, Tuner.sample_img_path (Tuner.files names) = Some p
          ∧ p ∈ Tuner.files names).
Proof.
  assert (Hfiles : ∀ p, p ∈ Tuner.files names
     ↔ ∃ f, p = Py.join Tuner.INPUT_DIR f ∧ f ∈ names ∧ Py.ishidden f = false
         ∧ (is_suffix ".jpg" (Tuner.lower f) ∨ is_suffix ".jpeg" (Tuner.lower f)
            ∨ is_suffix ".png" (Tuner.lower f))).
  { intros p. unfold Tuner.files. rewrite list_elem_of_filter, sorted_permutation.
    rewrite list_elem_of_fmap. split.
    - intros (Htest & f & -> & Hf). exists f. split; [done|].
      unfold Py.glob in Hf. apply list_elem_of_filter in Hf as [_ Hf].
      apply list_elem_of_filter in Hf as [Hvis Hin].
      split; [done|]. split; [done|]. by apply tuner_test_iff.
    - intros (f & -> & Hin & Hvis & Hsuf). split; [by apply tuner_test_iff|].
      exists f. split; [done|]. unfold Py.glob. apply list_elem_of_filter.
      split; [apply fnmatch_any|]. by apply list_elem_of_filter. }
  split; [exact Hfiles|]. split.
  - intros f Hf. apply discovered_iff_suffix in Hf as (Hin & Hvis & Hsuf).
    apply Hfiles. exists f. split_and!; try done.
    destruct Hsuf as [[pre ->]|[[pre ->]|[[pre ->]|[pre ->]]]]; rewrite lower_app.
    + left. by eexists.
    + left. by eexists.
    + right; left. by eexists.
    + right; right. by eexists.
  - intros Hne. unfold Tuner.sample_img_path.
    destruct (Tuner.files names !! (length (Tuner.files names) / 2)%nat) as [p|] eqn:Hp.
    + exists p. split; [done|]. by eapply list_elem_of_lookup_2.
    + exfalso. apply lookup_ge_None in Hp.
      destruct (Tuner.files names) as [|x l]; [done|]. simpl length in Hp.
      pose proof (Nat.Div0.div_le_upper_bound (S (length l)) 2 (S (length l))).
      assert (S (length l) / 2 < S (length l))%nat; [|lia].
      apply Nat.div_lt; lia.
Qed.

(* ===================================================================== *)
(** * The environment script *)
(* ===================================================================== *)

Lemma contains_app_r (a b sub : string) :
  contains b sub = true → contains (a +:+ b) sub = true.
Proof.
  intros Hb. induction a as [|c a IH]; [done|].
  simpl. rewrite IH. apply orb_true_r.
Qed.

Lemma sensor_lines_name_the_camera (content : string) :
  contains (content +:+ SetupEnv.sensor_lines) SetupEnv.CAMERA_MODEL_ID = true.
Proof. apply contains_app_r. by vm_compute. Qed.

Lemma update_sensor_database_fs_only (root_path : string) (h h' : SetupEnv.host) :
  SetupEnv.fs h' = SetupEnv.fs h →
  (SetupEnv.update_sensor_database root_path h').1
  = (SetupEnv.update_sensor_database root_path h).1
  ∧ SetupEnv.fs (SetupEnv.update_sensor_database root_path h').2
    = SetupEnv.fs (SetupEnv.update_sensor_database root_path h).2.
Proof.
  destruct h as [f cw lg], h' as [f' cw' lg']. simpl. intros ->.
  unfold SetupEnv.update_sensor_database, SetupEnv.locate_sensor_database,
    SetupEnv.exists_. simpl.
  destruct (negb _); simpl;
    (destruct (f !! _) as [[|content rd wr]|]; simpl; [done| |done];
     destruct rd; simpl; [|done];
     destruct (contains _ _); simpl; [done|];
     by destruct wr).
Qed.

(** What one run does to the file system. *)
Lemma update_sensor_database_cases (root_path : string) (h : SetupEnv.host) :
  let r := SetupEnv.update_sensor_database root_path h in
  let db_file := SetupEnv.locate_sensor_database root_path h in
  SetupEnv.fs r.2 = SetupEnv.fs h
  ∨ ∃ content readable,
      r.1 = SetupEnv.Returned db_file
      ∧ SetupEnv.fs h !! db_file = Some (SetupEnv.TextFile content readable true)
      ∧ contains content SetupEnv.CAMERA_MODEL_ID = false
      ∧ SetupEnv.fs r.2
        = <[db_file := SetupEnv.TextFile (content +:+ SetupEnv.sensor_lines)
                         readable true]> (SetupEnv.fs h).
Proof.
  intros r db. subst r. unfold SetupEnv.update_sensor_database. fold db.
  destruct (SetupEnv.fs h !! db) as [[|content rd wr]|] eqn:Hdb; simpl; [by left| |by left].
  destruct rd; simpl; [|by left].
  destruct (contains content SetupEnv.CAMERA_MODEL_ID) eqn:Hc; simpl; [by left|].
  destruct wr; simpl; [|by left].
  right. exists content, true. by split_and!.
Qed.

(** X19: [update_sensor_database] registers the camera at most once.  A run
    either leaves the file system as it is, or appends the three sensor
    lines to the database it found, whose content did not mention the camera
    and is kept in front of them; and a second run right after the first
    ends the same way and changes no file. *)
Theorem update_sensor_database_idempotent
    (root_path : string) (h : SetupEnv.host) :
  let r1 := SetupEnv.update_sensor_database root_path h in
  let r2 := SetupEnv.update_sensor_database root_path r1.2 in
  (SetupEnv.fs r1.2 = SetupEnv.fs h
   ∨ ∃ db_file content readable,
       r1.1 = SetupEnv.Returned db_file
       ∧ SetupEnv.fs h !! db_file = Some (SetupEnv.TextFile content readable true)
       ∧ contains content SetupEnv.CAMERA_MODEL_ID = false
       ∧ SetupEnv.fs r1.2
         = <[db_file := SetupEnv.TextFile (content +:+ SetupEnv.sensor_lines)
                          readable true]> (SetupEnv.fs h))
  ∧ r2.1 = r1.1
  ∧ SetupEnv.fs r2.2 = SetupEnv.fs r1.2.
Proof.
  intros r1 r2.
  destruct (update_sensor_database_cases root_path h)
    as [Hfs|(content & rd & Hret & Hdb & Hc & Hfs)]; fold r1 in Hfs.
  - split; [by left|]. subst r2.
    destruct (update_sensor_database_fs_only root_path h r1.2 Hfs) as [Ho Hf].
    by split.
  - fold r1 in Hret. set (db := SetupEnv.locate_sensor_database root_path h) in *.
    split. { right. by exists db, content, rd. }
    subst r2. destruct r1 as [o1 h1]. cbn [fst snd] in *. subst o1.
    assert (Hex : ∀ p, SetupEnv.exists_ p h1 = SetupEnv.exists_ p h).
    { intros p. unfold SetupEnv.exists_. rewrite Hfs. apply bool_decide_ext.
      destruct (decide (db = p)) as [<-|Hne].
      - rewrite lookup_insert_eq, Hdb. split; by eexists.
      - by rewrite lookup_insert_ne. }
    unfold SetupEnv.update_sensor_database.
    assert (Hloc : SetupEnv.locate_sensor_database root_path h1 = db).
    { unfold db, SetupEnv.locate_sensor_database. by rewrite Hex. }
    rewrite Hloc, Hfs, lookup_insert_eq.
    destruct rd; cbn [negb fst snd]; [|done].
    by rewrite sensor_lines_name_the_camera.
Qed.

Lemma update_sensor_database_outcome (root_path : string) (h : SetupEnv.host) :
  let r := SetupEnv.update_sensor_database root_path h in
  let db_file := SetupEnv.locate_sensor_database root_path h in
  match r.1 with
  | SetupEnv.Returned p => p = db_file ∧ SetupEnv.exists_ db_file h = true
  | SetupEnv.Exited code =>
      code = 1 ∧ SetupEnv.exists_ db_file h = false
      ∧ SetupEnv.fs r.2 = SetupEnv.fs h
  | SetupEnv.Raised _ =>
      SetupEnv.exists_ db_file h = true ∧ SetupEnv.fs r.2 = SetupEnv.fs h
  end.
Proof.
  intros r db. subst r. unfold SetupEnv.update_sensor_database. fold db.
  unfold SetupEnv.exists_.
  destruct (SetupEnv.fs h !! db) as [[|content rd wr]|] eqn:Hdb; simpl.
  - done.
  - destruct rd; simpl; [|done].
    destruct (contains _ _); simpl; [done|]. by destruct wr.
  - done.
Qed.

(** X20: [main] of the environment script.  It leaves through [sys.exit]
    exactly when the framework directory, both candidate [bin] directories
    or both candidate sensor databases are missing, always with code 1 and
    before any file has been touched; an exception that is not caught leaves
    the files untouched as well.  When it returns, the binaries directory
    and the sensor database it has settled on exist, and either [vars.sh]
    holds the export lines for exactly these two paths or the failure to
    write it has been logged. *)
Theorem setup_main_outcomes (CURRENT_DIR : string) (h : SetupEnv.host) :
  let root := SetupEnv.ALICEVISION_ROOT CURRENT_DIR in
  let nested_bin := Py.join (Py.join root "aliceVision") "bin" in
  let flat_bin := Py.join root "bin" in
  let db_file := SetupEnv.locate_sensor_database root h in
  let vars := Py.join CURRENT_DIR SetupEnv.VARS_FILENAME in
  let r := SetupEnv.main CURRENT_DIR h in
  match r.1 with
  | SetupEnv.Exited code => code = 1 ∧ SetupEnv.fs r.2 = SetupEnv.fs h
  | SetupEnv.Raised _ => SetupEnv.fs r.2 = SetupEnv.fs h
  | SetupEnv.Returned _ =>
      ∃ bin_path,
        (bin_path = nested_bin ∨ bin_path = flat_bin)
        ∧ SetupEnv.exists_ bin_path h = true
        ∧ SetupEnv.exists_ db_file h = true
        ∧ ((∃ readable writable,
              SetupEnv.fs r.2 !! vars
              = Some (SetupEnv.TextFile
                        (SetupEnv.env_content bin_path db_file root)
                        readable writable))
           ∨ (∃ e, In (ERROR, "Error escribiendo " +:+ SetupEnv.VARS_FILENAME
                              +:+ ": " +:+ e) (SetupEnv.log r.2)))
  end
  ∧ ((∃ code, r.1 = SetupEnv.Exited code)
     ↔ SetupEnv.exists_ root h = false
       ∨ (SetupEnv.exists_ nested_bin h = false ∧ SetupEnv.exists_ flat_bin h = false)
       ∨ SetupEnv.exists_ db_file h = false).
Proof.
  intros root nested_bin flat_bin db_file vars r. subst r.
  unfold SetupEnv.main. fold root.
  change (SetupEnv.exists_ root (SetupEnv.emit _ _ h)) with (SetupEnv.exists_ root h).
  destruct (SetupEnv.exists_ root h) eqn:Hroot; cbn [negb].
  2:{ cbn [fst snd]. split; [done|]. split; [by left|]. intros _. by eexists. }
  unfold SetupEnv.validate_binaries. fold nested_bin flat_bin.
  set (h1 := SetupEnv.emit INFO _ h).
  change (SetupEnv.exists_ nested_bin h1) with (SetupEnv.exists_ nested_bin h).
  set (bin_path := if negb (SetupEnv.exists_ nested_bin h) then flat_bin else nested_bin).
  change (SetupEnv.exists_ bin_path h1) with (SetupEnv.exists_ bin_path h).
  assert (Hbin : SetupEnv.exists_ bin_path h = false
                 ↔ SetupEnv.exists_ nested_bin h = false
                   ∧ SetupEnv.exists_ flat_bin h = false).
  { subst bin_path. destruct (SetupEnv.exists_ nested_bin h) eqn:Hn; simpl.
    - rewrite Hn. split; [done|]. by intros [? _].
    - split; [done|]. by intros [_ ?]. }
  destruct (SetupEnv.exists_ bin_path h) eqn:Hb; cbn [negb].
  2:{ cbn [fst snd]. split; [done|]. split; [intros _; right; left; by apply Hbin|].
      intros _. by eexists. }
  set (h2 := SetupEnv.emit INFO _ h1).
  pose proof (update_sensor_database_outcome root h2) as Hup. cbv zeta in Hup.
  change (SetupEnv.locate_sensor_database root h2) with db_file in Hup.
  change (SetupEnv.exists_ db_file h2) with (SetupEnv.exists_ db_file h) in Hup.
  change (SetupEnv.fs h2) with (SetupEnv.fs h) in Hup.
  destruct (SetupEnv.update_sensor_database root h2) as [[p|code|exc] h3];
    cbn [fst snd] in *.
  - destruct Hup as (-> & Hdb). split.
    + exists bin_path. split_and!.
      * subst bin_path. destruct (negb _); [by right|by left].
      * done.
      * done.
      * unfold SetupEnv.generate_env_script. fold vars.
        destruct (SetupEnv.write_text vars _ h3) as [e|fs'] eqn:Hw.
        -- right. exists e. simpl. apply in_or_app. right. by left.
        -- left. unfold SetupEnv.write_text in Hw.
           destruct (SetupEnv.fs h3 !! vars) as [[|c rd wr]|].
           ++ done.
           ++ destruct wr; [|done]. injection Hw as <-. exists rd, true.
              simpl. by rewrite lookup_insert_eq.
           ++ destruct (SetupEnv.cwd_writable h3); [|done]. injection Hw as <-.
              exists true, true. simpl. by rewrite lookup_insert_eq.
    + split; [by intros [? ?]|]. intros [?|[[? ?]|?]]; try congruence.
      assert (true = false) by (by apply Hbin). congruence.
  - destruct Hup as (-> & Hdb & Hfs). split; [done|].
    split; [intros _; right; by right|]. intros _. by eexists.
  - destruct Hup as (Hdb & Hfs). split; [done|].
    split; [by intros [? ?]|]. intros [?|[[? ?]|?]]; try congruence.
    assert (true = false) by (by apply Hbin). congruence.
Qed.
